(** * ts.c: the timestamp detection and formatting engine

    A shallow embedding of [src/ts.c] (the [ts] timestamp tool) and the
    properties of its pattern table, extractors, epoch parsers, line
    rewriter, sub-second formatter and bounded text primitives.

    Conventions of the embedding.
    - A [const char *] argument is an [option (list ascii)]: [None] is the
      null pointer, [Some s] a string whose bytes before the terminator are
      [s].
    - A writable [char *] is an [option buffer]: the bytes of the array from
      the pointer to the end of the array.  A store past the end makes the
      list grow, so an overrun is visible as a change of length.
    - An out-parameter [time_t *] is an [option Z]: the content of the cell
      before the call; functions return the content after the call.
    - [long], [time_t] are 64 bits wide, [unsigned long] is 64 bits wide
      (the LP64 platforms the build asserts with [HAVE_64BIT_LONG] and
      [HAVE_64BIT_TIME_T]); integer values are [Z] with the wrap-around of
      the conversions written out.
    - [regcomp]/[regexec] are modelled for the fragment of POSIX extended
      expressions the table uses, [strtoul] in base 10, and [vsnprintf] for
      the directives of the source's formats.  The calendar functions of
      the C library are a class [Libc]; [time] is read through a call
      counter so that successive calls may see the clock advance or fail. *)

From Stdlib Require Import ZArith List Ascii String Bool Lia Arith.
Import ListNotations.

Local Open Scope Z_scope.

(** ** Strings *)

Definition cs (s : string) : list ascii := list_ascii_of_string s.

Definition NUL : ascii := Ascii.zero.

Definition ascii_eqb (a b : ascii) : bool := Ascii.eqb a b.

Fixpoint str_eqb (a b : list ascii) : bool :=
  match a, b with
  | [], [] => true
  | x :: a', y :: b' => ascii_eqb x y && str_eqb a' b'
  | _, _ => false
  end.

(** [strncmp(s, tok, strlen(tok)) == 0]: [tok] is a prefix of [s]. *)
Fixpoint has_prefix (tok s : list ascii) : bool :=
  match tok, s with
  | [], _ => true
  | t :: tok', c :: s' => ascii_eqb t c && has_prefix tok' s'
  | _ :: _, [] => false
  end.

(** [strstr(s, tok) != NULL]. *)
Fixpoint strstr (s tok : list ascii) : bool :=
  has_prefix tok s ||
  match s with
  | [] => false
  | _ :: s' => strstr s' tok
  end.

(** [strchr(s, c)]: the offset of the first [c] in [s]. *)
Fixpoint strchr (s : list ascii) (c : ascii) : option nat :=
  match s with
  | [] => None
  | x :: s' => if ascii_eqb x c then Some O else option_map S (strchr s' c)
  end.

(** The [len] bytes of [s] from offset [start]. *)
Definition substr (s : list ascii) (start len : nat) : list ascii :=
  firstn len (skipn start s).

(** ** Error codes and records of the source *)

Inductive ts_error_t : Type :=
| TS_SUCCESS
| TS_ERROR_INVALID_ARGUMENT
| TS_ERROR_BUFFER_OVERFLOW
| TS_ERROR_REGEX_COMPILE
| TS_ERROR_REGEX_EXEC
| TS_ERROR_TIME_PARSE
| TS_ERROR_SYSTEM.

Definition ts_error_code (e : ts_error_t) : Z :=
  match e with
  | TS_SUCCESS => 0
  | TS_ERROR_INVALID_ARGUMENT => -1
  | TS_ERROR_BUFFER_OVERFLOW => -2
  | TS_ERROR_REGEX_COMPILE => -3
  | TS_ERROR_REGEX_EXEC => -4
  | TS_ERROR_TIME_PARSE => -5
  | TS_ERROR_SYSTEM => -6
  end.

Definition is_success (e : ts_error_t) : bool :=
  match e with TS_SUCCESS => true | _ => false end.

Record high_res_time_t : Type := {
  seconds : Z;
  nanoseconds : Z
}.

Record timestamp_format_t : Type := {
  pattern : list ascii;
  format : option (list ascii);
  name : list ascii
}.

Definition MAX_LINE_LENGTH : nat := 4096.
Definition MAX_FORMAT_LENGTH : nat := 256.
Definition MAX_TIMESTAMP_LENGTH : nat := 128.
Definition MAX_TIME_STR_LENGTH : nat := 64.
Definition SECONDS_PER_MINUTE : Z := 60.
Definition SECONDS_PER_HOUR : Z := 3600.
Definition SECONDS_PER_DAY : Z := 86400.
Definition NANOSECONDS_PER_SECOND : Z := 1000000000.
Definition FUTURE_THRESHOLD_DAYS : Z := 30.

(** The table of the source, without its [{NULL, NULL, NULL}] terminator:
    the loops over it stop at the terminator, that is at the end of the
    list. *)
Definition timestamp_formats : list timestamp_format_t :=
  [ {| pattern := cs "[A-Za-z]{3} [0-9]{1,2} [0-9]{2}:[0-9]{2}:[0-9]{2}";
       format := Some (cs "%b %d %H:%M:%S"); name := cs "syslog" |};
    {| pattern := cs "[0-9]{4}-[0-9]{2}-[0-9]{2}T[0-9]{2}:[0-9]{2}:[0-9]{2}";
       format := Some (cs "%Y-%m-%dT%H:%M:%S"); name := cs "ISO-8601" |};
    {| pattern := cs "[0-9]{1,2} [A-Za-z]{3} [0-9]{2} [0-9]{2}:[0-9]{2}:[0-9]{2}";
       format := Some (cs "%d %b %y %H:%M:%S"); name := cs "RFC" |};
    {| pattern := cs "[A-Za-z]{3} [A-Za-z]{3} [0-9]{2} [0-9]{2}:[0-9]{2}";
       format := Some (cs "%a %b %d %H:%M"); name := cs "lastlog" |};
    {| pattern := cs "[0-9]{2} [a-z]{3} [0-9]{2}:[0-9]{2}";
       format := Some (cs "%d %b %H:%M"); name := cs "short" |};
    {| pattern := cs "[0-9]{2} [a-z]{3}/[0-9]{2} [0-9]{2}:[0-9]{2}:[0-9]{2}";
       format := Some (cs "%d %b/%y %H:%M:%S"); name := cs "short_with_year" |};
    {| pattern := cs "[0-9]{10,}\.[0-9]{1,9}";
       format := None; name := cs "unix_fractional" |};
    {| pattern := cs "[0-9]{10,}";
       format := None; name := cs "unix_plain" |} ].

(** ** POSIX extended regular expressions: the fragment of the table

    A compiled expression is a sequence of pieces, each a character class
    with a repetition interval.  [regcomp] reads bracket expressions with
    ranges, escaped and ordinary characters, [.], and the repetition
    operators [{m}], [{m,}], [{m,n}], [*], [+] and [?]; anything else
    (groups, alternation, anchors) is outside the fragment and rejected. *)

Definition char_class : Type := list (ascii * ascii).

Definition in_class (cl : char_class) (c : ascii) : bool :=
  existsb (fun r => (nat_of_ascii (fst r) <=? nat_of_ascii c)%nat
                    && (nat_of_ascii c <=? nat_of_ascii (snd r))%nat) cl.

Record piece : Type := {
  p_class : char_class;
  p_min : nat;
  p_max : option nat
}.

Definition regex_t : Type := list piece.

Definition is_digit (c : ascii) : bool :=
  (48 <=? nat_of_ascii c)%nat && (nat_of_ascii c <=? 57)%nat.

Definition digit_val (c : ascii) : Z := Z.of_nat (nat_of_ascii c) - 48.

Fixpoint parse_bracket (s : list ascii) (acc : char_class)
  : option (char_class * list ascii) :=
  match s with
  | [] => None
  | c :: rest =>
    if ascii_eqb c "]" then Some (rev acc, rest)
    else
      match rest with
      | d :: hi :: rest' =>
        if ascii_eqb d "-" && negb (ascii_eqb hi "]")
        then parse_bracket rest' ((c, hi) :: acc)
        else parse_bracket rest ((c, c) :: acc)
      | _ => parse_bracket rest ((c, c) :: acc)
      end
  end.

Fixpoint parse_count (s : list ascii) (acc : nat) : nat * list ascii :=
  match s with
  | c :: rest =>
    if is_digit c then parse_count rest (acc * 10 + (nat_of_ascii c - 48))%nat
    else (acc, s)
  | [] => (acc, s)
  end.

(** The repetition operator, if any, at the head of [s]. *)
Definition parse_repeat (s : list ascii) : option (nat * option nat * list ascii) :=
  match s with
  | c :: rest =>
    if ascii_eqb c "*" then Some (O, None, rest)
    else if ascii_eqb c "+" then Some (1%nat, None, rest)
    else if ascii_eqb c "?" then Some (O, Some 1%nat, rest)
    else if ascii_eqb c "{" then
      match rest with
      | d :: _ =>
        if is_digit d then
          let (m, r1) := parse_count rest O in
          match r1 with
          | e :: r2 =>
            if ascii_eqb e "}" then Some (m, Some m, r2)
            else if ascii_eqb e "," then
              match r2 with
              | f :: r3 =>
                if ascii_eqb f "}" then Some (m, None, r3)
                else if is_digit f then
                  let (n, r4) := parse_count r2 O in
                  match r4 with
                  | g :: r5 =>
                    if ascii_eqb g "}" && (m <=? n)%nat
                    then Some (m, Some n, r5) else None
                  | [] => None
                  end
                else None
              | [] => None
              end
            else None
          | [] => None
          end
        else None
      | [] => None
      end
    else Some (1%nat, Some 1%nat, s)
  | [] => Some (1%nat, Some 1%nat, s)
  end.

Definition any_char : char_class := [(ascii_of_nat 1, ascii_of_nat 255)].

Definition is_special (c : ascii) : bool :=
  existsb (ascii_eqb c) (cs "(){}*+?|^$").

Definition parse_atom (s : list ascii) : option (char_class * list ascii) :=
  match s with
  | [] => None
  | c :: rest =>
    if ascii_eqb c "[" then parse_bracket rest []
    else if ascii_eqb c "\" then
      match rest with
      | e :: rest' => Some ([(e, e)], rest')
      | [] => None
      end
    else if ascii_eqb c "." then Some (any_char, rest)
    else if is_special c then None
    else Some ([(c, c)], rest)
  end.

Fixpoint regcomp_from (fuel : nat) (s : list ascii) : option regex_t :=
  match s with
  | [] => Some []
  | _ :: _ =>
    match fuel with
    | O => None
    | S fuel' =>
      match parse_atom s with
      | None => None
      | Some (cl, r1) =>
        match parse_repeat r1 with
        | None => None
        | Some (lo, hi, r2) =>
          match regcomp_from fuel' r2 with
          | None => None
          | Some re => Some ({| p_class := cl; p_min := lo; p_max := hi |} :: re)
          end
        end
      end
    end
  end.

(** [regcomp(&regex, pattern, REG_EXTENDED)]: [None] is a non-zero return. *)
Definition regcomp (pat : list ascii) : option regex_t :=
  regcomp_from (List.length pat) pat.

Definition omax (a b : option nat) : option nat :=
  match a, b with
  | Some x, Some y => Some (Nat.max x y)
  | Some x, None => Some x
  | None, _ => b
  end.

Definition may_repeat (hi : option nat) : bool :=
  match hi with
  | None => true
  | Some h => (0 <? h)%nat
  end.

(** The longest match of [cl{lo,hi}] followed by [k] at the head of [s]. *)
Fixpoint match_rep (cl : char_class) (k : list ascii -> option nat)
         (lo : nat) (hi : option nat) (s : list ascii) : option nat :=
  let stop := if (lo =? 0)%nat then k s else None in
  let more :=
    match s with
    | c :: s' =>
      if in_class cl c && may_repeat hi
      then option_map S (match_rep cl k (Nat.pred lo) (option_map Nat.pred hi) s')
      else None
    | [] => None
    end in
  omax more stop.

(** The length of the longest match of [re] anchored at the head of [s]. *)
Fixpoint match_here (re : regex_t) (s : list ascii) : option nat :=
  match re with
  | [] => Some O
  | p :: re' => match_rep (p_class p) (match_here re') (p_min p) (p_max p) s
  end.

Fixpoint search (re : regex_t) (s : list ascii) (off : nat) : option (nat * nat) :=
  match match_here re s with
  | Some n => Some (off, (off + n)%nat)
  | None =>
    match s with
    | [] => None
    | _ :: s' => search re s' (S off)
    end
  end.

(** [regexec(&regex, line, 1, matches, 0)]: [Some (rm_so, rm_eo)] of the
    leftmost, longest match, [None] for [REG_NOMATCH]. *)
Definition regexec (re : regex_t) (line : list ascii) : option (nat * nat) :=
  search re line O.

(** ** Integer conversions *)

Definition ULONG_MAX : Z := 18446744073709551615.

(** The conversion [(time_t)seconds] of an [unsigned long] to the signed
    64-bit [time_t]: values from [2^63] up wrap to negative numbers. *)
Definition to_time_t (v : Z) : Z :=
  (v + 9223372036854775808) mod 18446744073709551616 - 9223372036854775808.

Definition is_space (c : ascii) : bool :=
  let n := nat_of_ascii c in
  (n =? 32)%nat || ((9 <=? n)%nat && (n <=? 13)%nat).

Fixpoint skip_space (s : list ascii) : list ascii :=
  match s with
  | c :: s' => if is_space c then skip_space s' else s
  | [] => []
  end.

(** The leading run of decimal digits of [s] and what follows it. *)
Fixpoint span_digits (s : list ascii) : list ascii * list ascii :=
  match s with
  | c :: s' =>
    if is_digit c then let (ds, r) := span_digits s' in (c :: ds, r)
    else ([], s)
  | [] => ([], [])
  end.

Definition digits_value (ds : list ascii) : Z :=
  fold_left (fun a c => a * 10 + digit_val c) ds 0.

Record strtoul_result : Type := {
  st_value : Z;
  st_endptr : list ascii;
  st_erange : bool
}.

(** [strtoul(nptr, &endptr, 10)] with [errno] cleared before the call:
    white space, an optional sign, then the digit run.  Without a digit
    nothing is converted and [endptr] is [nptr]; a magnitude above
    [ULONG_MAX] gives [ULONG_MAX] and [ERANGE]; a minus sign negates the
    magnitude in the unsigned type. *)
Definition strtoul (nptr : list ascii) : strtoul_result :=
  let s1 := skip_space nptr in
  let '(neg, s2) :=
    match s1 with
    | c :: r =>
      if ascii_eqb c "-" then (true, r)
      else if ascii_eqb c "+" then (false, r)
      else (false, s1)
    | [] => (false, s1)
    end in
  let (ds, rest) := span_digits s2 in
  match ds with
  | [] => {| st_value := 0; st_endptr := nptr; st_erange := false |}
  | _ :: _ =>
    let v := digits_value ds in
    if ULONG_MAX <? v
    then {| st_value := ULONG_MAX; st_endptr := rest; st_erange := true |}
    else {| st_value := if neg then (- v) mod 18446744073709551616 else v;
            st_endptr := rest; st_erange := false |}
  end.

Definition is_nil {A : Type} (l : list A) : bool :=
  match l with [] => true | _ :: _ => false end.

(** ** The numeric epoch parsers *)

Definition parse_unix_timestamp_fractional
           (timestamp_str : option (list ascii)) (result : option Z)
  : ts_error_t * option Z :=
  match timestamp_str, result with
  | Some str, Some _ =>
    match strchr str "." with
    | None => (TS_ERROR_TIME_PARSE, result)
    | Some dot_pos =>
      (* the conversion runs on the string cut at the dot; the dot is
         stored back before the byte at [endptr] is read, so that what
         [endptr] points to is the rest of the cut string followed by the
         dot and what comes after it *)
      let r := strtoul (firstn dot_pos str) in
      let endptr := st_endptr r ++ skipn dot_pos str in
      if st_erange r || negb (is_nil endptr) || (st_value r =? 0)
      then (TS_ERROR_TIME_PARSE, result)
      else (TS_SUCCESS, Some (to_time_t (st_value r)))
    end
  | _, _ => (TS_ERROR_INVALID_ARGUMENT, result)
  end.

Definition parse_unix_timestamp_plain
           (timestamp_str : option (list ascii)) (result : option Z)
  : ts_error_t * option Z :=
  match timestamp_str, result with
  | Some str, Some _ =>
    let r := strtoul str in
    if st_erange r || negb (is_nil (st_endptr r)) || (st_value r =? 0)
    then (TS_ERROR_TIME_PARSE, result)
    else (TS_SUCCESS, Some (to_time_t (st_value r)))
  | _, _ => (TS_ERROR_INVALID_ARGUMENT, result)
  end.

(** ** Character arrays *)

Definition buffer : Type := list ascii.

(** [strlen]: the offset of the first NUL (the length of the array when it
    holds none). *)
Fixpoint strlen (b : buffer) : nat :=
  match b with
  | [] => O
  | c :: b' => if ascii_eqb c NUL then O else S (strlen b')
  end.

(** [strnlen(b, n)]: the offset of the first NUL among the first [n]
    bytes, [n] when there is none. *)
Fixpoint strnlen (b : buffer) (n : nat) {struct n} : nat :=
  match n with
  | O => O
  | S n' =>
    match b with
    | [] => n
    | c :: b' => if ascii_eqb c NUL then O else S (strnlen b' n')
    end
  end.

(** The string a buffer holds: its bytes before the first NUL. *)
Definition cstr (b : buffer) : list ascii := firstn (strlen b) b.

(** Storing [src] from the head of [dst]. *)
Fixpoint overwrite (dst : buffer) (src : list ascii) : buffer :=
  match src with
  | [] => dst
  | x :: src' => x :: overwrite (tl dst) src'
  end.

(** [memcpy(dst + off, src, length src)]. *)
Fixpoint memcpy (dst : buffer) (off : nat) (src : list ascii) : buffer :=
  match off with
  | O => overwrite dst src
  | S off' =>
    match dst with
    | c :: dst' => c :: memcpy dst' off' src
    | [] => NUL :: memcpy [] off' src
    end
  end.

(** ** Formatted output: the directives the source uses *)

Inductive printf_arg : Type :=
| ArgInt (z : Z)
| ArgStr (s : list ascii).

Definition digit_char (d : Z) : ascii := ascii_of_nat (Z.to_nat (48 + d)).

Fixpoint udec_aux (fuel : nat) (n : Z) (acc : list ascii) : list ascii :=
  let acc' := digit_char (n mod 10) :: acc in
  match fuel with
  | O => acc'
  | S f => if n / 10 =? 0 then acc' else udec_aux f (n / 10) acc'
  end.

(** The decimal digits of a non-negative number. *)
Definition udec (n : Z) : list ascii :=
  udec_aux (Z.to_nat (Z.log2 n)) n [].

(** [%0<width>d] and [%<width>d] with [pad0] false: the sign, then the
    digits, filled on the left up to [width] with zeros after the sign
    or with spaces before it. *)
Definition fmt_int (pad0 : bool) (width : nat) (z : Z) : list ascii :=
  let sign := if z <? 0 then cs "-" else [] in
  let ds := udec (Z.abs z) in
  let fill := (width - (List.length sign + List.length ds))%nat in
  if pad0 then sign ++ repeat "0"%char fill ++ ds
  else repeat " "%char fill ++ sign ++ ds.

Definition fmt_str (width : nat) (s : list ascii) : list ascii :=
  repeat " "%char (width - List.length s)%nat ++ s.

(** The expansion of a format: [%%], and [%d], [%ld], [%s] with an
    optional [0] flag and width.  [None] is a conversion error (what makes
    [vsnprintf] return a negative number). *)
Fixpoint render (fuel : nat) (fmt : list ascii) (args : list printf_arg)
  : option (list ascii) :=
  match fuel, fmt with
  | _, [] => Some []
  | O, _ :: _ => None
  | S fuel', c :: rest =>
    if ascii_eqb c "%" then
      match rest with
      | d :: rest' =>
        if ascii_eqb d "%" then option_map (cons d) (render fuel' rest' args)
        else
          let '(pad0, r1) := if ascii_eqb d "0" then (true, rest') else (false, rest) in
          let (width, r2) := parse_count r1 O in
          let r3 := match r2 with
                    | l :: r => if ascii_eqb l "l" then r else r2
                    | [] => r2
                    end in
          match r3, args with
          | conv :: r4, ArgInt z :: args' =>
            if ascii_eqb conv "d"
            then option_map (app (fmt_int pad0 width z)) (render fuel' r4 args')
            else None
          | conv :: r4, ArgStr s :: args' =>
            if ascii_eqb conv "s"
            then option_map (app (fmt_str width s)) (render fuel' r4 args')
            else None
          | _, _ => None
          end
      | [] => None
      end
    else option_map (cons c) (render fuel' rest args)
  end.

Definition sprintf (fmt : list ascii) (args : list printf_arg) : option (list ascii) :=
  render (List.length fmt) fmt args.

(** [vsnprintf(dest, size, format, args)]: at most [size - 1] bytes of the
    expansion and a NUL are stored (nothing when [size] is 0); the return
    value is the length of the whole expansion, or negative on a
    conversion error.  (An expansion longer than [INT_MAX] would also give
    a negative value; [safe_snprintf] reports an overflow in both cases.) *)
Definition vsnprintf (dest : buffer) (size : nat)
           (fmt : list ascii) (args : list printf_arg) : Z * buffer :=
  match sprintf fmt args with
  | None => (-1, dest)
  | Some text =>
    (Z.of_nat (List.length text),
     match size with
     | O => dest
     | S m => overwrite dest (firstn m text ++ [NUL])
     end)
  end.

(** ** Safe text primitives *)

Definition safe_strcat (dest : option buffer) (dest_size : nat)
           (src : option (list ascii)) : ts_error_t * option buffer :=
  match dest, src with
  | Some d, Some s =>
    let dest_len := strnlen d dest_size in
    let src_len := List.length s in
    if (dest_size <=? dest_len + src_len)%nat
    then (TS_ERROR_BUFFER_OVERFLOW, dest)
    else (TS_SUCCESS, Some (memcpy d dest_len (s ++ [NUL])))
  | _, _ => (TS_ERROR_INVALID_ARGUMENT, dest)
  end.

Definition safe_snprintf (dest : option buffer) (dest_size : nat)
           (fmt : option (list ascii)) (args : list printf_arg)
  : ts_error_t * option buffer :=
  match dest, fmt with
  | Some d, Some f =>
    let (result, d') := vsnprintf d dest_size f args in
    if (result <? 0) || (Z.of_nat dest_size <=? result)
    then (TS_ERROR_BUFFER_OVERFLOW, Some d')
    else (TS_SUCCESS, Some d')
  | _, _ => (TS_ERROR_INVALID_ARGUMENT, dest)
  end.

(** ** The C library

    [struct tm] and the calendar functions of the platform.  [time_at n] is
    what the [n]-th call of [time(NULL)] of the run returns ([-1] when it
    fails).  [strptime s fmt tm0] is the [struct tm] after
    [strptime(s, fmt, &tm)] on a structure holding [tm0], [None] when it
    returns a null pointer.  [mktime] returns the calendar time and the
    normalised structure it leaves behind.  [strftime_text fmt tm] is the
    whole expansion of [fmt]. *)

Record tm : Type := {
  tm_sec : Z; tm_min : Z; tm_hour : Z;
  tm_mday : Z; tm_mon : Z; tm_year : Z;
  tm_wday : Z; tm_yday : Z; tm_isdst : Z
}.

Definition tm_zero : tm :=
  {| tm_sec := 0; tm_min := 0; tm_hour := 0; tm_mday := 0; tm_mon := 0;
     tm_year := 0; tm_wday := 0; tm_yday := 0; tm_isdst := 0 |}.

Definition set_tm_year (t : tm) (y : Z) : tm :=
  {| tm_sec := tm_sec t; tm_min := tm_min t; tm_hour := tm_hour t;
     tm_mday := tm_mday t; tm_mon := tm_mon t; tm_year := y;
     tm_wday := tm_wday t; tm_yday := tm_yday t; tm_isdst := tm_isdst t |}.

Definition set_tm_mon (t : tm) (m : Z) : tm :=
  {| tm_sec := tm_sec t; tm_min := tm_min t; tm_hour := tm_hour t;
     tm_mday := tm_mday t; tm_mon := m; tm_year := tm_year t;
     tm_wday := tm_wday t; tm_yday := tm_yday t; tm_isdst := tm_isdst t |}.

Definition set_tm_mday (t : tm) (d : Z) : tm :=
  {| tm_sec := tm_sec t; tm_min := tm_min t; tm_hour := tm_hour t;
     tm_mday := d; tm_mon := tm_mon t; tm_year := tm_year t;
     tm_wday := tm_wday t; tm_yday := tm_yday t; tm_isdst := tm_isdst t |}.

Class Libc : Type := {
  time_at : nat -> Z;
  localtime : Z -> option tm;
  gmtime : Z -> option tm;
  strptime : list ascii -> list ascii -> tm -> option tm;
  mktime : tm -> Z * tm;
  strftime_text : list ascii -> tm -> list ascii
}.

(** Computations that read the clock: the state is the number of calls of
    [time] made so far. *)
Definition M (A : Type) : Type := nat -> A * nat.

Definition ret {A : Type} (a : A) : M A := fun n => (a, n).

Definition bind {A B : Type} (m : M A) (k : A -> M B) : M B :=
  fun n => let (a, n') := m n in k a n'.

Notation "x <- m ;; k" := (bind m (fun x => k))
  (at level 61, m at next level, right associativity).

Section Engine.

Context {libc : Libc}.

Definition time : M Z := fun n => (time_at n, S n).

(** [strftime(buf, maxsize, fmt, tm)]: [None] is a return value of 0 (the
    expansion with its NUL does not fit in [maxsize] bytes, or is empty),
    [Some text] the string left in [buf]. *)
Definition strftime (maxsize : nat) (fmt : list ascii) (t : tm)
  : option (list ascii) :=
  let text := strftime_text fmt t in
  if is_nil text || (maxsize <=? List.length text)%nat then None else Some text.

(** *** Calendar parse *)

(** The block that sets default values for missing fields; [None] is its
    return of [TS_ERROR_SYSTEM]. *)
Definition default_missing_fields (tm_info : tm) : M (option tm) :=
  with_year <-
    (if tm_year tm_info =? 0 then
       now <- time ;;
       if now =? -1 then ret None
       else match localtime now with
            | None => ret None
            | Some now_tm => ret (Some (set_tm_year tm_info (tm_year now_tm)))
            end
     else ret (Some tm_info)) ;;
  match with_year with
  | None => ret None
  | Some tm_info =>
    let tm_info := if tm_mon tm_info =? 0 then set_tm_mon tm_info 0 else tm_info in
    let tm_info := if tm_mday tm_info =? 0 then set_tm_mday tm_info 1 else tm_info in
    ret (Some tm_info)
  end.

Definition parse_timestamp_strptime
           (timestamp_str fmt : option (list ascii)) (result : option Z)
  : M (ts_error_t * option Z) :=
  match timestamp_str, fmt, result with
  | Some str, Some f, Some _ =>
    match strptime str f tm_zero with
    | None => ret (TS_ERROR_TIME_PARSE, result)
    | Some tm_info =>
      defaulted <- default_missing_fields tm_info ;;
      match defaulted with
      | None => ret (TS_ERROR_SYSTEM, result)
      | Some tm_info =>
        let (r1, tm_info) := mktime tm_info in
        if r1 =? -1 then ret (TS_ERROR_TIME_PARSE, Some r1)
        else
          now <- time ;;
          if negb (now =? -1)
             && (now + SECONDS_PER_DAY * FUTURE_THRESHOLD_DAYS <? r1)
          then
            let (r2, _) := mktime (set_tm_year tm_info (tm_year tm_info - 1)) in
            if r2 =? -1 then ret (TS_ERROR_TIME_PARSE, Some r2)
            else ret (TS_SUCCESS, Some r2)
          else ret (TS_SUCCESS, Some r1)
      end
    end
  | _, _, _ => ret (TS_ERROR_INVALID_ARGUMENT, result)
  end.

(** *** Detect and parse *)

(** The parser the loop of [parse_timestamp_in_line] hands the copied match
    to, chosen by the entry's name and format. *)
Definition parse_with (f : timestamp_format_t) (timestamp_str : list ascii)
           (result : option Z) : M (ts_error_t * option Z) :=
  if str_eqb (name f) (cs "unix_fractional")
  then ret (parse_unix_timestamp_fractional (Some timestamp_str) result)
  else if str_eqb (name f) (cs "unix_plain")
  then ret (parse_unix_timestamp_plain (Some timestamp_str) result)
  else match format f with
       | Some fmt => parse_timestamp_strptime (Some timestamp_str) (Some fmt) result
       | None => ret (TS_ERROR_TIME_PARSE, result)
       end.

Fixpoint parse_timestamp_loop (fmts : list timestamp_format_t)
         (line : list ascii) (result : option Z) : M (ts_error_t * option Z) :=
  match fmts with
  | [] => ret (TS_ERROR_TIME_PARSE, result)
  | f :: rest =>
    match regcomp (pattern f) with
    | None => parse_timestamp_loop rest line result
    | Some regex =>
      match regexec regex line with
      | Some (rm_so, rm_eo) =>
        let len := (rm_eo - rm_so)%nat in
        if (MAX_TIMESTAMP_LENGTH <=? len)%nat
        then parse_timestamp_loop rest line result
        else
          let timestamp_str := substr line rm_so len in
          r <- parse_with f timestamp_str result ;;
          if is_success (fst r) then ret (TS_SUCCESS, snd r)
          else parse_timestamp_loop rest line (snd r)
      | None => parse_timestamp_loop rest line result
      end
    end
  end.

Definition parse_timestamp_in_line (line : option (list ascii)) (result : option Z)
  : M (ts_error_t * option Z) :=
  match line, result with
  | Some l, Some _ => parse_timestamp_loop timestamp_formats l result
  | _, _ => ret (TS_ERROR_INVALID_ARGUMENT, result)
  end.

End Engine.

(** *** Leftmost span *)

Fixpoint find_match_loop (fmts : list timestamp_format_t) (line : list ascii)
         (best_match_start best_match_end : Z) : Z * Z :=
  match fmts with
  | [] => (best_match_start, best_match_end)
  | f :: rest =>
    match regcomp (pattern f) with
    | None => find_match_loop rest line best_match_start best_match_end
    | Some regex =>
      match regexec regex line with
      | Some (rm_so, rm_eo) =>
        if (best_match_start =? -1) || (Z.of_nat rm_so <? best_match_start)
        then find_match_loop rest line (Z.of_nat rm_so) (Z.of_nat rm_eo)
        else find_match_loop rest line best_match_start best_match_end
      | None => find_match_loop rest line best_match_start best_match_end
      end
    end
  end.

Definition find_timestamp_match (line : option (list ascii))
           (start_pos end_pos : option Z) : ts_error_t * option Z * option Z :=
  match line, start_pos, end_pos with
  | Some l, Some _, Some _ =>
    let (best_match_start, best_match_end) :=
      find_match_loop timestamp_formats l (-1) (-1) in
    if negb (best_match_start =? -1)
    then (TS_SUCCESS, Some best_match_start, Some best_match_end)
    else (TS_ERROR_TIME_PARSE, start_pos, end_pos)
  | _, _, _ => (TS_ERROR_INVALID_ARGUMENT, start_pos, end_pos)
  end.

(** *** Line rewriter *)

(** [start_pos] and [end_pos] are locals of the caller that it does not
    initialise; [find_timestamp_match] stores to both before the caller
    reads them, so their first content (0 here) is never observed. *)
Definition replace_timestamp_in_line (output : option buffer) (output_size : nat)
           (line new_timestamp : option (list ascii)) : ts_error_t * option buffer :=
  match output, line, new_timestamp with
  | Some out, Some l, Some new =>
    match find_timestamp_match line (Some 0) (Some 0) with
    | (TS_SUCCESS, Some start_pos, Some end_pos) =>
      let before_len := Z.to_nat start_pos in
      let after_start := Z.to_nat end_pos in
      let new_timestamp_len := List.length new in
      let after_len := List.length (skipn after_start l) in
      if (output_size <=? before_len + new_timestamp_len + after_len)%nat
      then (TS_ERROR_BUFFER_OVERFLOW, output)
      else
        let out := memcpy out O (firstn before_len l) in
        let out := memcpy out before_len [NUL] in
        let out := memcpy out before_len new in
        let out := memcpy out (before_len + new_timestamp_len) [NUL] in
        let out := memcpy out (before_len + new_timestamp_len)
                          (skipn after_start l ++ [NUL]) in
        (TS_SUCCESS, Some out)
    | _ =>
      let line_len := List.length l in
      if (output_size <=? line_len)%nat
      then (TS_ERROR_BUFFER_OVERFLOW, output)
      else (TS_SUCCESS, Some (memcpy out O (l ++ [NUL])))
    end
  | _, _, _ => (TS_ERROR_INVALID_ARGUMENT, output)
  end.

(** ** Time formatter *)

Section Formatter.

Context {libc : Libc}.

(** [safe_snprintf(result + strlen(result), sizeof(result) - strlen(result),
    fmt, ...)] on the array [result] of [MAX_FORMAT_LENGTH] bytes: the
    destination is the array from its NUL on.  The array always holds a
    NUL (it starts zeroed and every store ends with one), so the
    subtraction does not wrap. *)
Definition append_format (result : buffer) (fmt : list ascii)
           (args : list printf_arg) : ts_error_t * buffer :=
  let n := strlen result in
  let (code, tail) :=
    safe_snprintf (Some (skipn n result)) (MAX_FORMAT_LENGTH - n) (Some fmt) args in
  (code, firstn n result ++ match tail with
                            | Some t => t
                            | None => skipn n result
                            end).

(** [safe_strcat(result, sizeof(result), temp)] with [temp] the one
    character [c] and a NUL. *)
Definition append_char (result : buffer) (c : ascii) : ts_error_t * buffer :=
  let (code, r) := safe_strcat (Some result) MAX_FORMAT_LENGTH (Some [c]) in
  (code, match r with Some b => b | None => result end).

(** The first pass over the format.  [current] is the rest of the format;
    [skip] counts the bytes of it a directive recognised just before has
    already consumed ([current += 3] is one step and two skipped bytes). *)
Fixpoint first_pass (current : list ascii) (skip : nat) (tm_info : tm)
         (timestamp : high_res_time_t) (result : buffer) : ts_error_t * buffer :=
  match current with
  | [] => (TS_SUCCESS, result)
  | c :: rest =>
    match skip with
    | S k => first_pass rest k tm_info timestamp result
    | O =>
      let usec := Z.quot (nanoseconds timestamp) 1000 in
      if has_prefix (cs "%.S") current then
        let (code, result') :=
          append_format result (cs "%02d.%06ld") [ArgInt (tm_sec tm_info); ArgInt usec] in
        if is_success code then first_pass rest 2 tm_info timestamp result'
        else (code, result')
      else if has_prefix (cs "%.s") current then
        let (code, result') :=
          append_format result (cs "%ld.%06ld") [ArgInt (seconds timestamp); ArgInt usec] in
        if is_success code then first_pass rest 2 tm_info timestamp result'
        else (code, result')
      else if has_prefix (cs "%.T") current then
        match strftime MAX_TIME_STR_LENGTH (cs "%H:%M:%S") tm_info with
        | None => (TS_ERROR_BUFFER_OVERFLOW, result)
        | Some time_str =>
          let (code, result') :=
            append_format result (cs "%s.%06ld") [ArgStr time_str; ArgInt usec] in
          if is_success code then first_pass rest 2 tm_info timestamp result'
          else (code, result')
        end
      else if has_prefix (cs "%N") current then
        let (code, result') :=
          append_format result (cs "%09ld") [ArgInt (nanoseconds timestamp)] in
        if is_success code then first_pass rest 1 tm_info timestamp result'
        else (code, result')
      else if has_prefix (cs "%s") current then
        let (code, result') :=
          append_format result (cs "%ld") [ArgInt (seconds timestamp)] in
        if is_success code then first_pass rest 1 tm_info timestamp result'
        else (code, result')
      else
        let (code, result') := append_char result c in
        if is_success code then first_pass rest 0 tm_info timestamp result'
        else (code, result')
    end
  end.

Definition format_timestamp_with_subsecond (buf : option buffer) (buffer_size : nat)
           (fmt : option (list ascii)) (timestamp : option high_res_time_t)
  : ts_error_t * option buffer :=
  match buf, fmt, timestamp with
  | Some b, Some f, Some ts =>
    match localtime (seconds ts) with
    | None => (TS_ERROR_SYSTEM, buf)
    | Some tm_info =>
      let (code, result) := first_pass f 0 tm_info ts (repeat NUL MAX_FORMAT_LENGTH) in
      if negb (is_success code) then (code, buf)
      else if strstr (cstr result) (cs "%") then
        match strftime MAX_FORMAT_LENGTH (cstr result) tm_info with
        | None => (TS_ERROR_BUFFER_OVERFLOW, buf)
        | Some temp_buffer =>
          let temp_len := List.length temp_buffer in
          if (buffer_size <=? temp_len)%nat then (TS_ERROR_BUFFER_OVERFLOW, buf)
          else (TS_SUCCESS, Some (memcpy b O (temp_buffer ++ [NUL])))
        end
      else
        let result_len := strlen result in
        if (buffer_size <=? result_len)%nat then (TS_ERROR_BUFFER_OVERFLOW, buf)
        else (TS_SUCCESS, Some (memcpy b O (cstr result ++ [NUL])))
    end
  | _, _, _ => (TS_ERROR_INVALID_ARGUMENT, buf)
  end.

(** ** Delta modes of [main]

    The incremental ([-i]) and since-start ([-s]) branches of the line loop
    hold the same block; [delta_timestamp] is that block, from the test of
    the format for a sub-second token to [format_result], on the local
    array [timestamp] whose first content is whatever the stack holds. *)

Definition delta_timestamp (fmt : list ascii) (diff_sec diff_nsec : Z)
           (timestamp : buffer) : ts_error_t * buffer :=
  let keep r := match r with
                | (code, Some b) => (code, b)
                | (code, None) => (code, timestamp)
                end in
  if strstr fmt (cs "%.s") then
    keep (safe_snprintf (Some timestamp) MAX_FORMAT_LENGTH (Some (cs "%ld.%06ld"))
                        [ArgInt diff_sec; ArgInt (Z.quot diff_nsec 1000)])
  else if strstr fmt (cs "%.S") then
    let total_seconds := Z.rem diff_sec 60 in
    keep (safe_snprintf (Some timestamp) MAX_FORMAT_LENGTH (Some (cs "%02ld.%06ld"))
                        [ArgInt total_seconds; ArgInt (Z.quot diff_nsec 1000)])
  else if strstr fmt (cs "%.T") then
    let hours := Z.quot diff_sec SECONDS_PER_HOUR in
    let minutes := Z.quot (Z.rem diff_sec SECONDS_PER_HOUR) SECONDS_PER_MINUTE in
    let secs := Z.rem diff_sec SECONDS_PER_MINUTE in
    keep (safe_snprintf (Some timestamp) MAX_FORMAT_LENGTH
                        (Some (cs "%02ld:%02ld:%02ld.%06ld"))
                        [ArgInt hours; ArgInt minutes; ArgInt secs;
                         ArgInt (Z.quot diff_nsec 1000)])
  else
    match gmtime diff_sec with
    | Some tm_info =>
      match strftime MAX_FORMAT_LENGTH fmt tm_info with
      | Some text => (TS_SUCCESS, memcpy timestamp O (text ++ [NUL]))
      | None => (TS_ERROR_BUFFER_OVERFLOW, timestamp)
      end
    | None => (TS_ERROR_BUFFER_OVERFLOW, timestamp)
    end.

(** The subtraction of two readings, borrowing a second when the
    nanoseconds go negative. *)
Definition elapsed (current_time reference : high_res_time_t) : Z * Z :=
  let diff_sec := seconds current_time - seconds reference in
  let diff_nsec := nanoseconds current_time - nanoseconds reference in
  if diff_nsec <? 0 then (diff_sec - 1, diff_nsec + NANOSECONDS_PER_SECOND)
  else (diff_sec, diff_nsec).

(** What the branch writes to standard output for one line:
    [printf("%s %s", timestamp, line)], or the line alone on a failure. *)
Definition delta_output (fmt line : list ascii) (timestamp : buffer)
           (current_time reference : high_res_time_t) : list ascii :=
  let (diff_sec, diff_nsec) := elapsed current_time reference in
  let (format_result, timestamp') := delta_timestamp fmt diff_sec diff_nsec timestamp in
  if is_success format_result then cstr timestamp' ++ cs " " ++ line else line.

(** The [-i] branch: the output and the new [last_time]. *)
Definition incremental_mode_line (fmt line : list ascii) (timestamp : buffer)
           (current_time last_time : high_res_time_t)
  : list ascii * high_res_time_t :=
  (delta_output fmt line timestamp current_time last_time, current_time).

(** The [-s] branch. *)
Definition since_start_mode_line (fmt line : list ascii) (timestamp : buffer)
           (current_time start_time : high_res_time_t) : list ascii :=
  delta_output fmt line timestamp current_time start_time.

End Formatter.

(** ** Relative time *)

Section RelativeTime.

Context {libc : Libc}.

(** The subtraction and the negation are those of [time_t]; they are exact
    as long as the difference of the two times fits in 64 bits. *)
Definition format_relative_time (buf : option buffer) (buffer_size : nat)
           (timestamp : Z) : M (ts_error_t * option buffer) :=
  match buf with
  | None => ret (TS_ERROR_INVALID_ARGUMENT, buf)
  | Some _ =>
    now <- time ;;
    if now =? -1 then ret (TS_ERROR_SYSTEM, buf)
    else
      let diff := now - timestamp in
      ret
        (if diff <? 0 then
           let diff := - diff in
           if diff <? SECONDS_PER_MINUTE then
             safe_snprintf buf buffer_size (Some (cs "in %lds")) [ArgInt diff]
           else if diff <? SECONDS_PER_HOUR then
             let minutes := Z.quot diff SECONDS_PER_MINUTE in
             let secs := Z.rem diff SECONDS_PER_MINUTE in
             if 0 <? secs then
               safe_snprintf buf buffer_size (Some (cs "in %ldm%lds"))
                             [ArgInt minutes; ArgInt secs]
             else
               safe_snprintf buf buffer_size (Some (cs "in %ldm")) [ArgInt minutes]
           else if diff <? SECONDS_PER_DAY then
             let hours := Z.quot diff SECONDS_PER_HOUR in
             let minutes := Z.quot (Z.rem diff SECONDS_PER_HOUR) SECONDS_PER_MINUTE in
             if 0 <? minutes then
               safe_snprintf buf buffer_size (Some (cs "in %ldh%ldm"))
                             [ArgInt hours; ArgInt minutes]
             else
               safe_snprintf buf buffer_size (Some (cs "in %ldh")) [ArgInt hours]
           else
             let days := Z.quot diff SECONDS_PER_DAY in
             let hours := Z.quot (Z.rem diff SECONDS_PER_DAY) SECONDS_PER_HOUR in
             if 0 <? hours then
               safe_snprintf buf buffer_size (Some (cs "in %ldd%ldh"))
                             [ArgInt days; ArgInt hours]
             else
               safe_snprintf buf buffer_size (Some (cs "in %ldd")) [ArgInt days]
         else
           if diff <? SECONDS_PER_MINUTE then
             safe_snprintf buf buffer_size (Some (cs "%lds ago")) [ArgInt diff]
           else if diff <? SECONDS_PER_HOUR then
             let minutes := Z.quot diff SECONDS_PER_MINUTE in
             let secs := Z.rem diff SECONDS_PER_MINUTE in
             if 0 <? secs then
               safe_snprintf buf buffer_size (Some (cs "%ldm%lds ago"))
                             [ArgInt minutes; ArgInt secs]
             else
               safe_snprintf buf buffer_size (Some (cs "%ldm ago")) [ArgInt minutes]
           else if diff <? SECONDS_PER_DAY then
             let hours := Z.quot diff SECONDS_PER_HOUR in
             let minutes := Z.quot (Z.rem diff SECONDS_PER_HOUR) SECONDS_PER_MINUTE in
             if 0 <? minutes then
               safe_snprintf buf buffer_size (Some (cs "%ldh%ldm ago"))
                             [ArgInt hours; ArgInt minutes]
             else
               safe_snprintf buf buffer_size (Some (cs "%ldh ago")) [ArgInt hours]
           else
             let days := Z.quot diff SECONDS_PER_DAY in
             let hours := Z.quot (Z.rem diff SECONDS_PER_DAY) SECONDS_PER_HOUR in
             if 0 <? hours then
               safe_snprintf buf buffer_size (Some (cs "%ldd%ldh ago"))
                             [ArgInt days; ArgInt hours]
             else
               safe_snprintf buf buffer_size (Some (cs "%ldd ago")) [ArgInt days])
  end.

End RelativeTime.

(** ** The driver: [process_line] and the line loop of [main]

    Standard output is the text written to it; the messages on standard
    error are left out.  The local arrays of the loop body are not
    initialised: [stack256] and [stack4096] are what the stack holds where
    the arrays of [MAX_FORMAT_LENGTH] and [MAX_LINE_LENGTH] bytes are
    placed.  [clock_gettime clock n] is what the [n]-th call of
    [clock_gettime] returns in [tv_sec] and [tv_nsec] ([clock] true for
    [CLOCK_MONOTONIC]), [None] when it fails; [have_clock_monotonic] is the
    build's [HAVE_CLOCK_MONOTONIC]. *)

Record options : Type := {
  relative_mode : bool;
  incremental_mode : bool;
  since_start_mode : bool;
  monotonic_mode : bool;
  unique_mode : bool;
  format_buffer : list ascii
}.

(** The locals of [main] before the options are read. *)
Definition default_options : options :=
  {| relative_mode := false; incremental_mode := false;
     since_start_mode := false; monotonic_mode := false;
     unique_mode := false; format_buffer := cs "%b %d %H:%M:%S" |}.

(** The [getopt] loop on the option characters [getopt] returns, in their
    order: the options at the end of the loop, or the exit status of a
    [return] from [main] ([-h], or a character outside ["rismuh"]). *)
Fixpoint getopt_loop (opts : list ascii) (o : options) : options + Z :=
  match opts with
  | [] => inl o
  | opt :: rest =>
    if ascii_eqb opt "r" then
      getopt_loop rest
        {| relative_mode := true; incremental_mode := incremental_mode o;
           since_start_mode := since_start_mode o;
           monotonic_mode := monotonic_mode o; unique_mode := unique_mode o;
           format_buffer := format_buffer o |}
    else if ascii_eqb opt "i" then
      getopt_loop rest
        {| relative_mode := relative_mode o; incremental_mode := true;
           since_start_mode := since_start_mode o;
           monotonic_mode := monotonic_mode o; unique_mode := unique_mode o;
           format_buffer := firstn (MAX_FORMAT_LENGTH - 1) (cs "%H:%M:%S") |}
    else if ascii_eqb opt "s" then
      getopt_loop rest
        {| relative_mode := relative_mode o;
           incremental_mode := incremental_mode o; since_start_mode := true;
           monotonic_mode := monotonic_mode o; unique_mode := unique_mode o;
           format_buffer := firstn (MAX_FORMAT_LENGTH - 1) (cs "%H:%M:%S") |}
    else if ascii_eqb opt "m" then
      getopt_loop rest
        {| relative_mode := relative_mode o;
           incremental_mode := incremental_mode o;
           since_start_mode := since_start_mode o;
           monotonic_mode := true; unique_mode := unique_mode o;
           format_buffer := format_buffer o |}
    else if ascii_eqb opt "u" then
      getopt_loop rest
        {| relative_mode := relative_mode o;
           incremental_mode := incremental_mode o;
           since_start_mode := since_start_mode o;
           monotonic_mode := monotonic_mode o; unique_mode := true;
           format_buffer := format_buffer o |}
    else if ascii_eqb opt "h" then inr 0
    else inr 1
  end.

(** The options and the format argument [argv[optind]], when there is
    one: the options the loop runs with and whether a format was given. *)
Definition read_arguments (opts : list ascii) (format_arg : option (list ascii))
  : (options * bool) + Z :=
  match getopt_loop opts default_options with
  | inr status => inr status
  | inl o =>
    match format_arg with
    | Some arg =>
      inl ({| relative_mode := relative_mode o;
              incremental_mode := incremental_mode o;
              since_start_mode := since_start_mode o;
              monotonic_mode := monotonic_mode o; unique_mode := unique_mode o;
              format_buffer := firstn (MAX_FORMAT_LENGTH - 1) arg |}, true)
    | None => inl (o, false)
    end
  end.

Record loop_state : Type := {
  last_line : list ascii;
  last_time : high_res_time_t;
  time_calls : nat;
  clock_calls : nat
}.

Section Driver.

Context {libc : Libc}.

Variable clock_gettime : bool -> nat -> option (Z * Z).
Variable have_clock_monotonic : bool.
Variables stack256 stack4096 : buffer.

Definition get_high_res_time (monotonic : bool) (calls : nat)
  : high_res_time_t * nat :=
  let clock_id := if have_clock_monotonic then monotonic else false in
  (match clock_gettime clock_id calls with
   | Some (tv_sec, tv_nsec) => {| seconds := tv_sec; nanoseconds := tv_nsec |}
   | None => {| seconds := 0; nanoseconds := 0 |}
   end, S calls).

(** [process_line]: the status and what it prints. *)
Definition process_line (line fmt : option (list ascii))
           (current_time : option high_res_time_t) : ts_error_t * list ascii :=
  match line, fmt, current_time with
  | Some l, Some _, Some _ =>
    let (result, timestamp) :=
      format_timestamp_with_subsecond (Some stack256) MAX_FORMAT_LENGTH
                                      fmt current_time in
    if is_success result
    then (TS_SUCCESS,
          cstr (match timestamp with Some b => b | None => stack256 end)
          ++ cs " " ++ l)
    else (result, [])
  | _, _, _ => (TS_ERROR_INVALID_ARGUMENT, [])
  end.

(** [printf("%s", replaced_line)] after a successful replacement, the line
    itself after a failed one. *)
Definition print_replaced (line new_text : list ascii) : list ascii :=
  match replace_timestamp_in_line (Some stack4096) MAX_LINE_LENGTH
                                  (Some line) (Some new_text) with
  | (TS_SUCCESS, Some replaced_line) => cstr replaced_line
  | _ => line
  end.

(** The [-r] branch: what it prints for one line (nothing after a
    [continue]).  [parsed_time] is not initialised; the parser stores to it
    before it is read, so its first content (0 here) is never observed. *)
Definition relative_mode_line (format_given : bool) (fmt line : list ascii)
  : M (list ascii) :=
  parsed <- parse_timestamp_in_line (Some line) (Some 0) ;;
  match parsed with
  | (TS_SUCCESS, Some parsed_time) =>
    if format_given then
      match localtime parsed_time with
      | None => ret []
      | Some tm_info =>
        match strftime MAX_FORMAT_LENGTH fmt tm_info with
        | None => ret []
        | Some formatted_time => ret (print_replaced line formatted_time)
        end
      end
    else
      formatted <- format_relative_time (Some stack256) MAX_FORMAT_LENGTH parsed_time ;;
      match formatted with
      | (TS_SUCCESS, Some relative_time) =>
        ret (print_replaced line (cstr relative_time))
      | _ => ret line
      end
  | _ => ret line
  end.

(** [strncpy(last_line, line, sizeof(last_line) - 1)] and the NUL stored
    in the last byte. *)
Definition remember_line (o : options) (line : list ascii) (st : loop_state)
  : list ascii :=
  if unique_mode o then firstn (MAX_LINE_LENGTH - 1) line else last_line st.

(** One turn of the [while (fgets(...))] loop on the line read. *)
Definition loop_body (o : options) (format_given : bool)
           (start_time : high_res_time_t) (line : list ascii) (st : loop_state)
  : list ascii * loop_state :=
  if unique_mode o && str_eqb line (last_line st) then ([], st)
  else
    let (current_time, clock') :=
      get_high_res_time (monotonic_mode o) (clock_calls st) in
    if relative_mode o then
      let (out, time') :=
        relative_mode_line format_given (format_buffer o) line (time_calls st) in
      (out, {| last_line := last_line st; last_time := last_time st;
               time_calls := time'; clock_calls := clock' |})
    else if incremental_mode o then
      let (out, last') :=
        incremental_mode_line (format_buffer o) line stack256
                              current_time (last_time st) in
      (out, {| last_line := remember_line o line st; last_time := last';
               time_calls := time_calls st; clock_calls := clock' |})
    else if since_start_mode o then
      (since_start_mode_line (format_buffer o) line stack256
                             current_time start_time,
       {| last_line := remember_line o line st; last_time := last_time st;
          time_calls := time_calls st; clock_calls := clock' |})
    else
      let (result, out) :=
        process_line (Some line) (Some (format_buffer o)) (Some current_time) in
      (if is_success result then out else line,
       {| last_line := remember_line o line st; last_time := last_time st;
          time_calls := time_calls st; clock_calls := clock' |}).

Fixpoint line_loop (o : options) (format_given : bool)
         (start_time : high_res_time_t) (lines : list (list ascii))
         (st : loop_state) : list ascii :=
  match lines with
  | [] => []
  | line :: rest =>
    let (out, st') := loop_body o format_given start_time line st in
    out ++ line_loop o format_given start_time rest st'
  end.

(** [main] from the initialisation of the timing to the end of the input:
    [lines] are the strings [fgets] returns one after the other. *)
Definition main_loop (o : options) (format_given : bool)
           (lines : list (list ascii)) : list ascii :=
  let (start_time, clock') := get_high_res_time (monotonic_mode o) O in
  line_loop o format_given start_time lines
            {| last_line := []; last_time := start_time;
               time_calls := O; clock_calls := clock' |}.

End Driver.

(** ** A reference platform

    An instance of [Libc] to run the engine on: the C locale in the UTC
    time zone, with the proleptic Gregorian calendar, for the conversions
    the formats of the table and the default output formats use. *)

Module UTC.

Definition days_from_civil (y m d : Z) : Z :=
  let y' := if m <=? 2 then y - 1 else y in
  let era := y' / 400 in
  let yoe := y' - era * 400 in
  let mp := if 2 <? m then m - 3 else m + 9 in
  let doy := (153 * mp + 2) / 5 + d - 1 in
  let doe := yoe * 365 + yoe / 4 - yoe / 100 + doy in
  era * 146097 + doe - 719468.

Definition civil_from_days (z : Z) : Z * Z * Z :=
  let z := z + 719468 in
  let era := z / 146097 in
  let doe := z - era * 146097 in
  let yoe := (doe - doe / 1460 + doe / 36524 - doe / 146096) / 365 in
  let doy := doe - (365 * yoe + yoe / 4 - yoe / 100) in
  let mp := (5 * doy + 2) / 153 in
  let d := doy - (153 * mp + 2) / 5 + 1 in
  let m := if mp <? 10 then mp + 3 else mp - 9 in
  let y := yoe + era * 400 in
  (if m <=? 2 then y + 1 else y, m, d).

Definition gmtime_utc (t : Z) : option tm :=
  let days := t / 86400 in
  let secs := t mod 86400 in
  let '(y, m, d) := civil_from_days days in
  Some {| tm_sec := secs mod 60; tm_min := (secs / 60) mod 60;
          tm_hour := secs / 3600;
          tm_mday := d; tm_mon := m - 1; tm_year := y - 1900;
          tm_wday := (days + 4) mod 7;
          tm_yday := days - days_from_civil y 1 1;
          tm_isdst := 0 |}.

Definition mktime_utc (t : tm) : Z * tm :=
  let y := 1900 + tm_year t + tm_mon t / 12 in
  let m := tm_mon t mod 12 + 1 in
  let days := days_from_civil y m 1 + (tm_mday t - 1) in
  let r := days * 86400 + tm_hour t * 3600 + tm_min t * 60 + tm_sec t in
  (r, match gmtime_utc r with Some t' => t' | None => t end).

Definition months : list string :=
  ["jan"; "feb"; "mar"; "apr"; "may"; "jun";
   "jul"; "aug"; "sep"; "oct"; "nov"; "dec"]%string.

Definition weekdays : list string :=
  ["sun"; "mon"; "tue"; "wed"; "thu"; "fri"; "sat"]%string.

Definition lower (c : ascii) : ascii :=
  let n := nat_of_ascii c in
  if (65 <=? n)%nat && (n <=? 90)%nat then ascii_of_nat (n + 32) else c.

Fixpoint find_name (names : list string) (s : list ascii) (i : Z) : option Z :=
  match names with
  | [] => None
  | n :: names' =>
    if has_prefix (cs n) (map lower (firstn 3 s)) then Some i
    else find_name names' s (i + 1)
  end.

(** Up to [width] digits, at least one, after optional white space. *)
Definition read_number (width : nat) (s : list ascii) : option (Z * list ascii) :=
  let s := skip_space s in
  let (ds, _) := span_digits (firstn width s) in
  match ds with
  | [] => None
  | _ :: _ => Some (digits_value ds, skipn (List.length ds) s)
  end.

Definition in_range (lo hi v : Z) : bool := (lo <=? v) && (v <=? hi).

Definition set_field (conv : ascii) (v : Z) (t : tm) : option tm :=
  let mk sec min hour mday mon year wday :=
    Some {| tm_sec := sec; tm_min := min; tm_hour := hour; tm_mday := mday;
            tm_mon := mon; tm_year := year; tm_wday := wday;
            tm_yday := tm_yday t; tm_isdst := tm_isdst t |} in
  let keep := mk (tm_sec t) (tm_min t) (tm_hour t) (tm_mday t) (tm_mon t) in
  if ascii_eqb conv "S" then
    if in_range 0 61 v
    then mk v (tm_min t) (tm_hour t) (tm_mday t) (tm_mon t) (tm_year t) (tm_wday t)
    else None
  else if ascii_eqb conv "M" then
    if in_range 0 59 v
    then mk (tm_sec t) v (tm_hour t) (tm_mday t) (tm_mon t) (tm_year t) (tm_wday t)
    else None
  else if ascii_eqb conv "H" then
    if in_range 0 23 v
    then mk (tm_sec t) (tm_min t) v (tm_mday t) (tm_mon t) (tm_year t) (tm_wday t)
    else None
  else if ascii_eqb conv "d" then
    if in_range 1 31 v
    then mk (tm_sec t) (tm_min t) (tm_hour t) v (tm_mon t) (tm_year t) (tm_wday t)
    else None
  else if ascii_eqb conv "m" then
    if in_range 1 12 v
    then mk (tm_sec t) (tm_min t) (tm_hour t) (tm_mday t) (v - 1) (tm_year t) (tm_wday t)
    else None
  else if ascii_eqb conv "Y" then keep (v - 1900) (tm_wday t)
  else if ascii_eqb conv "y" then
    if in_range 0 99 v then keep (if v <? 69 then v + 100 else v) (tm_wday t) else None
  else if ascii_eqb conv "b" then keep (tm_year t) (tm_wday t)
  else None.

Fixpoint strptime_c (fuel : nat) (s fmt : list ascii) (t : tm) : option tm :=
  match fuel, fmt with
  | _, [] => Some t
  | O, _ :: _ => None
  | S fuel', c :: fmt' =>
    if ascii_eqb c "%" then
      match fmt' with
      | conv :: fmt'' =>
        if ascii_eqb conv "b" then
          match find_name months (skip_space s) 0 with
          | Some i =>
            strptime_c fuel' (skipn 3 (skip_space s)) fmt''
                       {| tm_sec := tm_sec t; tm_min := tm_min t; tm_hour := tm_hour t;
                          tm_mday := tm_mday t; tm_mon := i; tm_year := tm_year t;
                          tm_wday := tm_wday t; tm_yday := tm_yday t;
                          tm_isdst := tm_isdst t |}
          | None => None
          end
        else if ascii_eqb conv "a" then
          match find_name weekdays (skip_space s) 0 with
          | Some i =>
            strptime_c fuel' (skipn 3 (skip_space s)) fmt''
                       {| tm_sec := tm_sec t; tm_min := tm_min t; tm_hour := tm_hour t;
                          tm_mday := tm_mday t; tm_mon := tm_mon t; tm_year := tm_year t;
                          tm_wday := i; tm_yday := tm_yday t;
                          tm_isdst := tm_isdst t |}
          | None => None
          end
        else
          match read_number (if ascii_eqb conv "Y" then 4 else 2) s with
          | Some (v, s') =>
            match set_field conv v t with
            | Some t' => strptime_c fuel' s' fmt'' t'
            | None => None
            end
          | None => None
          end
      | [] => None
      end
    else if is_space c then strptime_c fuel' (skip_space s) fmt' t
    else
      match s with
      | x :: s' => if ascii_eqb x c then strptime_c fuel' s' fmt' t else None
      | [] => None
      end
  end.

Definition pad2 (v : Z) : list ascii := fmt_int true 2 v.

Definition month_name (i : Z) : list ascii :=
  cs (nth (Z.to_nat i)
          ["Jan"; "Feb"; "Mar"; "Apr"; "May"; "Jun";
           "Jul"; "Aug"; "Sep"; "Oct"; "Nov"; "Dec"]%string "?"%string).

Fixpoint strftime_c (fmt : list ascii) (skip : bool) (t : tm) : list ascii :=
  match fmt with
  | [] => []
  | c :: fmt' =>
    if skip then strftime_c fmt' false t
    else if ascii_eqb c "%" then
      match fmt' with
      | conv :: _ =>
        (if ascii_eqb conv "Y" then fmt_int false 0 (tm_year t + 1900)
         else if ascii_eqb conv "m" then pad2 (tm_mon t + 1)
         else if ascii_eqb conv "d" then pad2 (tm_mday t)
         else if ascii_eqb conv "H" then pad2 (tm_hour t)
         else if ascii_eqb conv "M" then pad2 (tm_min t)
         else if ascii_eqb conv "S" then pad2 (tm_sec t)
         else if ascii_eqb conv "b" then month_name (tm_mon t)
         else if ascii_eqb conv "%" then [c]
         else [c; conv])
        ++ strftime_c fmt' true t
      | [] => [c]
      end
    else c :: strftime_c fmt' false t
  end.

(** The platform whose clock shows [clock n] at the [n]-th call. *)
Definition platform (clock : nat -> Z) : Libc :=
  {| time_at := clock;
     localtime := gmtime_utc;
     gmtime := gmtime_utc;
     strptime := fun s fmt t => strptime_c (List.length fmt) s fmt t;
     mktime := mktime_utc;
     strftime_text := fun fmt t => strftime_c fmt false t |}.

End UTC.

(** ** Notions the properties are stated with *)

(** Where the pattern of entry [f] matches in [line], if anywhere. *)
Definition entry_match (f : timestamp_format_t) (line : list ascii)
  : option (nat * nat) :=
  match regcomp (pattern f) with
  | Some regex => regexec regex line
  | None => None
  end.

Section TableWalk.

Context {libc : Libc}.

(** The state a walk over the table carries: the content of the result
    cell and the count of clock readings. *)
Definition walk_state : Type := (option Z * nat)%type.

(** Entry [f] matches somewhere in [line], and its parser, run on the
    matched text in state [st], succeeds with [v]. *)
Definition matches_and_parses (f : timestamp_format_t) (line : list ascii)
           (st : walk_state) (v : option Z) (n' : nat) : Prop :=
  exists so eo,
    entry_match f line = Some (so, eo) /\
    parse_with f (substr line so (eo - so)) (fst st) (snd st) = ((TS_SUCCESS, v), n').

(** The same with a match that fits the copy buffer of
    [MAX_TIMESTAMP_LENGTH] bytes. *)
Definition wins (f : timestamp_format_t) (line : list ascii)
           (st : walk_state) (v : option Z) (n' : nat) : Prop :=
  exists so eo,
    entry_match f line = Some (so, eo) /\
    (eo - so < MAX_TIMESTAMP_LENGTH)%nat /\
    parse_with f (substr line so (eo - so)) (fst st) (snd st) = ((TS_SUCCESS, v), n').

(** Entry [f] is passed over in state [st], leaving [st']: it has no
    match, or a match too long for the copy buffer, or its parser fails. *)
Definition passed_over (f : timestamp_format_t) (line : list ascii)
           (st st' : walk_state) : Prop :=
  match entry_match f line with
  | None => st' = st
  | Some (so, eo) =>
    if (MAX_TIMESTAMP_LENGTH <=? eo - so)%nat then st' = st
    else exists code,
        parse_with f (substr line so (eo - so)) (fst st) (snd st)
        = ((code, fst st'), snd st') /\ code <> TS_SUCCESS
  end.

Inductive all_passed_over (line : list ascii)
  : list timestamp_format_t -> walk_state -> walk_state -> Prop :=
| apo_nil st : all_passed_over line [] st st
| apo_cons f fs st st' st'' :
    passed_over f line st st' ->
    all_passed_over line fs st' st'' ->
    all_passed_over line (f :: fs) st st''.

End TableWalk.

Section Expansion.

Context {libc : Libc}.

(** The first pass of the formatter in the words of the specification: a
    left-to-right scan that replaces each custom token by its rendering and
    copies every other character, on strings without a capacity. *)
Definition usec6 (ts : high_res_time_t) : list ascii :=
  fmt_int true 6 (Z.quot (nanoseconds ts) 1000).

Fixpoint expand_custom (fmt : list ascii) (skip : nat) (tm_info : tm)
         (ts : high_res_time_t) : list ascii :=
  match fmt with
  | [] => []
  | c :: rest =>
    match skip with
    | S k => expand_custom rest k tm_info ts
    | O =>
      if has_prefix (cs "%.S") fmt then
        fmt_int true 2 (tm_sec tm_info) ++ cs "." ++ usec6 ts
        ++ expand_custom rest 2 tm_info ts
      else if has_prefix (cs "%.s") fmt then
        fmt_int false 0 (seconds ts) ++ cs "." ++ usec6 ts
        ++ expand_custom rest 2 tm_info ts
      else if has_prefix (cs "%.T") fmt then
        strftime_text (cs "%H:%M:%S") tm_info ++ cs "." ++ usec6 ts
        ++ expand_custom rest 2 tm_info ts
      else if has_prefix (cs "%N") fmt then
        fmt_int true 9 (nanoseconds ts) ++ expand_custom rest 1 tm_info ts
      else if has_prefix (cs "%s") fmt then
        fmt_int false 0 (seconds ts) ++ expand_custom rest 1 tm_info ts
      else c :: expand_custom rest 0 tm_info ts
    end
  end.

(** The two passes: the standard formatter runs on the first pass's text
    exactly when a [%] is left in it. *)
Definition two_pass (fmt : list ascii) (tm_info : tm) (ts : high_res_time_t)
  : list ascii :=
  let pass1 := expand_custom fmt 0 tm_info ts in
  if strstr pass1 (cs "%") then strftime_text pass1 tm_info else pass1.

End Expansion.

(** The two numeric entries of the table. *)
Definition unix_fractional_entry : timestamp_format_t :=
  {| pattern := cs "[0-9]{10,}\.[0-9]{1,9}"; format := None;
     name := cs "unix_fractional" |}.

Definition unix_plain_entry : timestamp_format_t :=
  {| pattern := cs "[0-9]{10,}"; format := None; name := cs "unix_plain" |}.

(** The array [result] of the formatter holds the string [text]. *)
Definition holds_text (result : buffer) (text : list ascii) : Prop :=
  exists rest,
    result = text ++ NUL :: rest /\ ~ In NUL text /\
    List.length result = MAX_FORMAT_LENGTH.

(** A step [k] of the first pass carries an array holding [text] to one
    holding [text ++ out] when that is shorter than the array, and reports
    a buffer overflow when it is not. *)
Definition extends_by (k : buffer -> ts_error_t * buffer) (out : list ascii)
  : Prop :=
  forall result text,
    holds_text result text ->
    ((List.length text + List.length out < MAX_FORMAT_LENGTH)%nat ->
     exists result',
       k result = (TS_SUCCESS, result') /\ holds_text result' (text ++ out))
    /\ ((MAX_FORMAT_LENGTH <= List.length text + List.length out)%nat ->
        fst (k result) = TS_ERROR_BUFFER_OVERFLOW).

(** Characters a formatted integer is made of. *)
Definition numeric (c : ascii) : Prop :=
  is_digit c = true \/ c = "-"%char \/ c = " "%char.

(** The parts of a string [strtoul] distinguishes: after optional white
    space and sign, the run of digits and what follows it. *)
Definition strip_sign (s : list ascii) : bool * list ascii :=
  match s with
  | c :: r =>
    if ascii_eqb c "-" then (true, r)
    else if ascii_eqb c "+" then (false, r)
    else (false, s)
  | [] => (false, s)
  end.

Definition digit_run (str : list ascii) : list ascii :=
  fst (span_digits (snd (strip_sign (skip_space str)))).

Definition remainder (str : list ascii) : list ascii :=
  snd (span_digits (snd (strip_sign (skip_space str)))).

Definition negated (str : list ascii) : bool :=
  fst (strip_sign (skip_space str)).

(** The range of a [long]. *)
Definition long_range (z : Z) : Prop :=
  -9223372036854775808 <= z <= 9223372036854775807.

(** The least number of bytes a compiled expression can match. *)
Definition min_length (re : regex_t) : nat :=
  fold_right (fun p acc => (p_min p + acc)%nat) O re.

Definition class_is_digits (cl : char_class) : bool :=
  match cl with
  | [(lo, hi)] => ascii_eqb lo "0" && ascii_eqb hi "9"
  | _ => false
  end.

(** The expression has a piece that must match at least one digit. *)
Definition needs_digit (re : regex_t) : bool :=
  existsb (fun p => (1 <=? p_min p)%nat && class_is_digits (p_class p)) re.

(** [tok] ends [s]. *)
Definition has_suffix (tok s : list ascii) : bool :=
  has_prefix (rev tok) (rev s).

(** A non-negative duration in its largest unit, followed by the next
    smaller unit when that part is not zero. *)
Definition magnitude (d : Z) : list ascii :=
  let num := fmt_int false 0 in
  if d <? 60 then num d ++ cs "s"
  else if d <? 3600 then
    num (d / 60) ++ cs "m"
    ++ (if 0 <? d mod 60 then num (d mod 60) ++ cs "s" else [])
  else if d <? 86400 then
    num (d / 3600) ++ cs "h"
    ++ (if 0 <? d mod 3600 / 60 then num (d mod 3600 / 60) ++ cs "m" else [])
  else
    num (d / 86400) ++ cs "d"
    ++ (if 0 <? d mod 86400 / 3600 then num (d mod 86400 / 3600) ++ cs "h" else []).

(** The relative rendering of [timestamp] seen at [now]. *)
Definition relative_text (now timestamp : Z) : list ascii :=
  if now - timestamp <? 0 then cs "in " ++ magnitude (timestamp - now)
  else magnitude (now - timestamp) ++ cs " ago".

(** The lines left when every line equal to the one kept before it is
    removed; [prev] is the line kept last. *)
Fixpoint squeeze (prev : list ascii) (lines : list (list ascii))
  : list (list ascii) :=
  match lines with
  | [] => []
  | line :: rest =>
    if str_eqb line prev then squeeze prev rest
    else line :: squeeze line rest
  end.

(** None of the five custom tokens occurs in the format. *)
Definition no_custom_token (fmt : list ascii) : bool :=
  negb (strstr fmt (cs "%.S")) && negb (strstr fmt (cs "%.s"))
  && negb (strstr fmt (cs "%.T")) && negb (strstr fmt (cs "%N"))
  && negb (strstr fmt (cs "%s")).

(** The nanoseconds of a reading are those of a [struct timespec]. *)
Definition normal_time (t : high_res_time_t) : Prop :=
  0 <= nanoseconds t < NANOSECONDS_PER_SECOND.

(** The instant of a reading, in nanoseconds. *)
Definition instant (t : high_res_time_t) : Z :=
  seconds t * NANOSECONDS_PER_SECOND + nanoseconds t.

(** The option character [c] is among those [getopt] returned. *)
Definition has_option (c : ascii) (opts : list ascii) : bool :=
  existsb (fun opt => ascii_eqb opt c) opts.

(** The options that set a flag. *)
Definition flag_options (opts : list ascii) : bool :=
  forallb (fun opt => has_option opt (cs "rismu")) opts.

(** The options with the [-u] flag replaced. *)
Definition with_unique (u : bool) (o : options) : options :=
  {| relative_mode := relative_mode o; incremental_mode := incremental_mode o;
     since_start_mode := since_start_mode o; monotonic_mode := monotonic_mode o;
     unique_mode := u; format_buffer := format_buffer o |}.



(** The lines [fgets] returns fit the array of [MAX_LINE_LENGTH] bytes with
    their NUL, and none is empty. *)
Definition fgets_line (line : list ascii) : Prop :=
  line <> [] /\ (List.length line < MAX_LINE_LENGTH)%nat.

(** * Properties *)

(** ** Leftmost span *)

Lemma find_match_loop_spec (line : list ascii) :
  forall fmts bs be,
    let (s, e) := find_match_loop fmts line bs be in
    (s = bs /\ e = be /\
     forall g so eo, In g fmts -> entry_match g line = Some (so, eo) ->
                     bs <> -1 /\ bs <= Z.of_nat so)
    \/
    (exists pre f post so eo,
        fmts = pre ++ f :: post /\
        entry_match f line = Some (so, eo) /\
        s = Z.of_nat so /\ e = Z.of_nat eo /\
        (bs = -1 \/ Z.of_nat so < bs) /\
        (forall g so' eo', In g pre -> entry_match g line = Some (so', eo') ->
                           (so < so')%nat) /\
        (forall g so' eo', In g post -> entry_match g line = Some (so', eo') ->
                           (so <= so')%nat)).
Proof.
  induction fmts as [|f rest IH]; intros bs be; simpl.
  - left. split; [trivial | split; [trivial |]]. intros g so eo [].
  - assert (Hskip :
      entry_match f line = None ->
      let (s, e) := find_match_loop rest line bs be in
      (s = bs /\ e = be /\
       forall g so eo, In g (f :: rest) -> entry_match g line = Some (so, eo) ->
                       bs <> -1 /\ bs <= Z.of_nat so)
      \/
      (exists pre f0 post so eo,
          f :: rest = pre ++ f0 :: post /\
          entry_match f0 line = Some (so, eo) /\
          s = Z.of_nat so /\ e = Z.of_nat eo /\
          (bs = -1 \/ Z.of_nat so < bs) /\
          (forall g so' eo', In g pre -> entry_match g line = Some (so', eo') ->
                             (so < so')%nat) /\
          (forall g so' eo', In g post -> entry_match g line = Some (so', eo') ->
                             (so <= so')%nat))).
    { intros Hnone. specialize (IH bs be).
      destruct (find_match_loop rest line bs be) as [s e].
      destruct IH as [(Hs & He & Hall) | (pre & f0 & post & so & eo & Hsplit & Hm & Hs & He & Hb & Hpre & Hpost)].
      - left. split; [trivial | split; [trivial |]].
        intros g so eo [<- | Hin] Hg; [congruence | eapply Hall; eauto].
      - right. exists (f :: pre), f0, post, so, eo.
        repeat split; trivial.
        + simpl. now rewrite Hsplit.
        + intros g so' eo' [<- | Hin] Hg; [congruence | eauto]. }
    unfold entry_match in Hskip at 1.
    destruct (regcomp (pattern f)) as [regex|] eqn:Hcomp; [| now apply Hskip].
    destruct (regexec regex line) as [[rm_so rm_eo]|] eqn:Hexec; [| now apply Hskip].
    clear Hskip.
    assert (Hf : entry_match f line = Some (rm_so, rm_eo)).
    { unfold entry_match. now rewrite Hcomp. }
    destruct ((bs =? -1) || (Z.of_nat rm_so <? bs)) eqn:Hupd.
    + specialize (IH (Z.of_nat rm_so) (Z.of_nat rm_eo)).
      destruct (find_match_loop rest line (Z.of_nat rm_so) (Z.of_nat rm_eo)) as [s e].
      assert (Hb : bs = -1 \/ Z.of_nat rm_so < bs).
      { apply orb_true_iff in Hupd. destruct Hupd as [H | H]; [left | right]; lia. }
      right.
      destruct IH as [(Hs & He & Hall) | (pre & f0 & post & so & eo & Hsplit & Hm & Hs & He & Hb' & Hpre & Hpost)].
      * exists [], f, rest, rm_so, rm_eo. repeat split; trivial.
        -- intros g so' eo' [].
        -- intros g so' eo' Hin Hg. destruct (Hall g so' eo' Hin Hg). lia.
      * exists (f :: pre), f0, post, so, eo. repeat split; trivial.
        -- simpl. now rewrite Hsplit.
        -- lia.
        -- intros g so' eo' [<- | Hin] Hg; [| eauto].
           rewrite Hf in Hg. inversion Hg; subst. lia.
    + apply orb_false_iff in Hupd. destruct Hupd as [H1 H2].
      specialize (IH bs be).
      destruct (find_match_loop rest line bs be) as [s e].
      destruct IH as [(Hs & He & Hall) | (pre & f0 & post & so & eo & Hsplit & Hm & Hs & He & Hb' & Hpre & Hpost)].
      * left. split; [trivial | split; [trivial |]].
        intros g so eo [<- | Hin] Hg; [| eapply Hall; eauto].
        rewrite Hf in Hg. inversion Hg; subst. lia.
      * right. exists (f :: pre), f0, post, so, eo. repeat split; trivial.
        -- simpl. now rewrite Hsplit.
        -- intros g so' eo' [<- | Hin] Hg; [| eauto].
           rewrite Hf in Hg. inversion Hg; subst. lia.
Qed.

(** C2: [find_timestamp_match] looks at every entry of the table for a
    match only, and returns the span of the entry whose match starts
    leftmost, the earlier entry winning among equal starts; without any
    match it reports a time-parse failure and stores nothing; on
    ["1755921813 test line"] the span is [0, 10). *)
Theorem find_timestamp_match_leftmost :
  (forall line sp ep,
      match find_timestamp_match (Some line) (Some sp) (Some ep) with
      | (TS_SUCCESS, Some s, Some e) =>
        exists pre f post so eo,
          timestamp_formats = pre ++ f :: post /\
          entry_match f line = Some (so, eo) /\
          s = Z.of_nat so /\ e = Z.of_nat eo /\
          (forall g so' eo', In g pre -> entry_match g line = Some (so', eo') ->
                             (so < so')%nat) /\
          (forall g so' eo', In g post -> entry_match g line = Some (so', eo') ->
                             (so <= so')%nat)
      | (TS_ERROR_TIME_PARSE, Some s, Some e) =>
        s = sp /\ e = ep /\
        forall g, In g timestamp_formats -> entry_match g line = None
      | _ => False
      end)
  /\ find_timestamp_match (Some (cs "1755921813 test line")) (Some 0) (Some 0)
     = (TS_SUCCESS, Some 0, Some 10).
Proof.
  split; [| reflexivity].
  intros line sp ep. unfold find_timestamp_match.
  pose proof (find_match_loop_spec line timestamp_formats (-1) (-1)) as H.
  destruct (find_match_loop timestamp_formats line (-1) (-1)) as [s e].
  destruct H as [(Hs & He & Hall) | (pre & f & post & so & eo & Hsplit & Hm & Hs & He & _ & Hpre & Hpost)].
  - subst s e. simpl. repeat split; trivial.
    intros g Hin. destruct (entry_match g line) as [[so eo]|] eqn:Hg; trivial.
    destruct (Hall g so eo Hin Hg) as [Hneq _]. congruence.
  - assert (Hne : (s =? -1) = false) by (apply Z.eqb_neq; lia).
    rewrite Hne. simpl.
    exists pre, f, post, so, eo. repeat split; trivial.
Qed.

(** ** The pattern table *)

(** The table does not have seven entries. *)
Lemma timestamp_formats_not_seven :
  List.length timestamp_formats <> 7%nat.
Proof. discriminate. Qed.

(** ** Detect and parse *)

Section WalkFacts.

Context {libc : Libc}.

Lemma is_success_true (e : ts_error_t) : is_success e = true -> e = TS_SUCCESS.
Proof. destruct e; simpl; congruence. Qed.

Lemma is_success_false (e : ts_error_t) : is_success e = false -> e <> TS_SUCCESS.
Proof. destruct e; simpl; congruence. Qed.

Lemma passed_over_no_match f line st :
  entry_match f line = None -> passed_over f line st st.
Proof. intros H. unfold passed_over. now rewrite H. Qed.

Lemma passed_over_too_long f line st so eo :
  entry_match f line = Some (so, eo) ->
  (MAX_TIMESTAMP_LENGTH <=? eo - so)%nat = true ->
  passed_over f line st st.
Proof. intros H Hlen. unfold passed_over. now rewrite H, Hlen. Qed.

Lemma parse_timestamp_loop_cons f rest line r :
  parse_timestamp_loop (f :: rest) line r =
  match regcomp (pattern f) with
  | None => parse_timestamp_loop rest line r
  | Some regex =>
    match regexec regex line with
    | Some (rm_so, rm_eo) =>
      if (MAX_TIMESTAMP_LENGTH <=? rm_eo - rm_so)%nat
      then parse_timestamp_loop rest line r
      else
        x <- parse_with f (substr line rm_so (rm_eo - rm_so)) r ;;
        if is_success (fst x) then ret (TS_SUCCESS, snd x)
        else parse_timestamp_loop rest line (snd x)
    | None => parse_timestamp_loop rest line r
    end
  end.
Proof. reflexivity. Qed.

Lemma parse_timestamp_loop_spec (line : list ascii) :
  forall fmts r n,
    let '((code, res), n') := parse_timestamp_loop fmts line r n in
    (code = TS_SUCCESS /\
     exists pre f post st,
       fmts = pre ++ f :: post /\
       all_passed_over line pre (r, n) st /\
       wins f line st res n')
    \/ (code = TS_ERROR_TIME_PARSE /\
        all_passed_over line fmts (r, n) (res, n')).
Proof.
  induction fmts as [|f rest IH]; intros r n.
  - simpl. right. split; [reflexivity | constructor].
  - assert (Hskip : forall st' : walk_state,
               passed_over f line (r, n) st' ->
               let '((code, res), n') := parse_timestamp_loop rest line (fst st') (snd st') in
               (code = TS_SUCCESS /\
                exists pre f0 post st,
                  f :: rest = pre ++ f0 :: post /\
                  all_passed_over line pre (r, n) st /\
                  wins f0 line st res n')
               \/ (code = TS_ERROR_TIME_PARSE /\
                   all_passed_over line (f :: rest) (r, n) (res, n'))).
    { intros [r1 n1] Hpo. simpl. specialize (IH r1 n1).
      destruct (parse_timestamp_loop rest line r1 n1) as [[code res] n'].
      destruct IH as [(Hc & pre & f0 & post & st & Hsplit & Hpre & Hwin) | (Hc & Hall)].
      - left. split; trivial. exists (f :: pre), f0, post, st.
        split; [simpl; now rewrite Hsplit |].
        split; [econstructor; eauto | trivial].
      - right. split; trivial. econstructor; eauto. }
    rewrite parse_timestamp_loop_cons.
    destruct (regcomp (pattern f)) as [regex|] eqn:Hcomp.
    2: { apply (Hskip (r, n)). apply passed_over_no_match.
         unfold entry_match. now rewrite Hcomp. }
    destruct (regexec regex line) as [[rm_so rm_eo]|] eqn:Hexec.
    2: { apply (Hskip (r, n)). apply passed_over_no_match.
         unfold entry_match. now rewrite Hcomp. }
    assert (Hf : entry_match f line = Some (rm_so, rm_eo)).
    { unfold entry_match. now rewrite Hcomp. }
    destruct (MAX_TIMESTAMP_LENGTH <=? rm_eo - rm_so)%nat eqn:Hlen.
    { apply (Hskip (r, n)). eapply passed_over_too_long; eauto. }
    unfold bind.
    destruct (parse_with f (substr line rm_so (rm_eo - rm_so)) r n)
      as [[pcode pres] n1] eqn:Hparse.
    cbn [fst snd].
    destruct (is_success pcode) eqn:Hok.
    + apply is_success_true in Hok. subst pcode. unfold ret.
      left. split; trivial. exists [], f, rest, (r, n).
      split; [reflexivity |]. split; [constructor |].
      exists rm_so, rm_eo. repeat split; trivial.
      apply Nat.leb_gt in Hlen. exact Hlen.
    + apply is_success_false in Hok.
      apply (Hskip (pres, n1)). unfold passed_over. rewrite Hf, Hlen.
      exists pcode. split; trivial.
Qed.

End WalkFacts.

(** On a line of 128 digits (118 zeros, then 1755921813) the only entry
    that matches is [unix_plain], over the whole line, and its parser reads
    the matched text as 1755921813; yet the walk reports a time-parse
    failure, because a match of [MAX_TIMESTAMP_LENGTH] bytes or more is
    never handed to a parser. *)
Lemma parse_timestamp_in_line_long_match :
  let libc := UTC.platform (fun _ => 1767998400) in
  let line := repeat "0"%char 118 ++ cs "1755921813" in
  map (fun f => entry_match f line) timestamp_formats
  = [None; None; None; None; None; None; None; Some (0%nat, 128%nat)]
  /\ matches_and_parses unix_plain_entry line (Some 0, O) (Some 1755921813) O
  /\ parse_timestamp_in_line (Some line) (Some 0) O
     = ((TS_ERROR_TIME_PARSE, Some 0), O).
Proof.
  cbv zeta. split; [vm_compute; reflexivity |].
  split; [| vm_compute; reflexivity].
  exists 0%nat, 128%nat. split; vm_compute; reflexivity.
Qed.

(** C1 (amended): [parse_timestamp_in_line] walks the table in its order
    and returns the result of the first entry whose match is shorter than
    [MAX_TIMESTAMP_LENGTH] bytes and whose parser succeeds on the matched
    text, every entry before it having been passed over (no match, a match
    too long, or a failed parse); when every entry is passed over it
    returns a time-parse failure; a null line gives an invalid-argument
    failure.  The winner is decided by the order of the table, not by where
    the matches start: on ["1755921813 Dec 22 22:25:23 test"] the syslog
    entry, matching at offset 11, wins over the RFC entry at offset 8 and
    the plain epoch at offset 0.  An entry that matches and whose parser
    fails is passed over: on ["1234567890 then 1755921813.5"] the
    fractional entry matches at offset 16 and is passed over, and the plain
    entry gives 1234567890; on ["0000000000 1755921813.5"] both epoch
    entries match and both parsers fail. *)
Theorem parse_timestamp_in_line_first_success :
  (forall (libc : Libc) line r n,
      let '((code, res), n') := parse_timestamp_in_line (Some line) (Some r) n in
      (code = TS_SUCCESS /\
       exists pre f post st,
         timestamp_formats = pre ++ f :: post /\
         all_passed_over line pre (Some r, n) st /\
         wins f line st res n')
      \/ (code = TS_ERROR_TIME_PARSE /\
          all_passed_over line timestamp_formats (Some r, n) (res, n')))
  /\ (forall (libc : Libc) result n,
         parse_timestamp_in_line None result n
         = ((TS_ERROR_INVALID_ARGUMENT, result), n))
  /\ (let libc := UTC.platform (fun _ => 1767998400) in
      let line := cs "1755921813 Dec 22 22:25:23 test" in
      map (fun f => entry_match f line) timestamp_formats
      = [Some (11%nat, 26%nat); None; Some (8%nat, 26%nat); None; None; None;
         None; Some (0%nat, 10%nat)]
      /\ parse_timestamp_in_line (Some line) (Some 0) O
         = ((TS_SUCCESS, Some 1766442323), 2%nat))
  /\ (let libc := UTC.platform (fun _ => 1767998400) in
      let line := cs "1234567890 then 1755921813.5" in
      map (fun f => entry_match f line) timestamp_formats
      = [None; None; None; None; None; None;
         Some (16%nat, 28%nat); Some (0%nat, 10%nat)]
      /\ parse_timestamp_in_line (Some line) (Some 0) O
         = ((TS_SUCCESS, Some 1234567890), O)
      /\ parse_timestamp_in_line (Some (cs "0000000000 1755921813.5")) (Some 0) O
         = ((TS_ERROR_TIME_PARSE, Some 0), O)).
Proof.
  split; [| split; [| split]].
  - intros libc line r n. unfold parse_timestamp_in_line.
    apply parse_timestamp_loop_spec.
  - intros libc result n. reflexivity.
  - cbv zeta. split; vm_compute; reflexivity.
  - cbv zeta. repeat split; vm_compute; reflexivity.
Qed.

(** ** The numeric epoch parsers *)

Lemma strtoul_parts (str : list ascii) :
  strtoul str =
  match digit_run str with
  | [] => {| st_value := 0; st_endptr := str; st_erange := false |}
  | _ :: _ =>
    let v := digits_value (digit_run str) in
    if ULONG_MAX <? v
    then {| st_value := ULONG_MAX; st_endptr := remainder str; st_erange := true |}
    else {| st_value := if negated str then (- v) mod 18446744073709551616 else v;
            st_endptr := remainder str; st_erange := false |}
  end.
Proof.
  unfold strtoul, digit_run, remainder, negated, strip_sign.
  destruct (skip_space str) as [|c r]; [reflexivity |].
  destruct (ascii_eqb c "-"); [| destruct (ascii_eqb c "+")];
    cbn [fst snd];
    match goal with
    | |- context [span_digits ?s] => destruct (span_digits s) as [ds rest]
    end; cbn [fst snd]; destruct ds; reflexivity.
Qed.

Lemma digits_value_step (ds : list ascii) (a : Z) :
  0 <= a ->
  Forall (fun c => is_digit c = true) ds ->
  a <= fold_left (fun a c => a * 10 + digit_val c) ds a.
Proof.
  intros Ha Hds. revert a Ha.
  induction Hds as [|c ds Hc _ IH]; intros a Ha; simpl; [lia |].
  assert (0 <= digit_val c).
  { unfold is_digit in Hc. unfold digit_val.
    apply andb_true_iff in Hc. destruct Hc as [Hc _].
    apply Nat.leb_le in Hc. lia. }
  specialize (IH (a * 10 + digit_val c)). lia.
Qed.

Lemma span_digits_digits (s : list ascii) :
  Forall (fun c => is_digit c = true) (fst (span_digits s)).
Proof.
  induction s as [|c s IH]; simpl; [constructor |].
  destruct (is_digit c) eqn:Hc; [| constructor].
  destruct (span_digits s) as [ds r]. simpl in *. constructor; trivial.
Qed.

Lemma digits_value_nonneg (str : list ascii) :
  0 <= digits_value (digit_run str).
Proof.
  unfold digits_value, digit_run.
  apply digits_value_step; [lia | apply span_digits_digits].
Qed.

Lemma span_digits_all (ds : list ascii) :
  forallb is_digit ds = true -> span_digits ds = (ds, []).
Proof.
  induction ds as [|c ds IH]; simpl; [reflexivity |].
  intros H. apply andb_true_iff in H. destruct H as [Hc Hds].
  rewrite Hc, (IH Hds). reflexivity.
Qed.

Lemma digit_not_space (c : ascii) : is_digit c = true -> is_space c = false.
Proof.
  unfold is_digit, is_space. intros H.
  apply andb_true_iff in H. destruct H as [H1 H2].
  apply Nat.leb_le in H1. apply Nat.leb_le in H2.
  apply orb_false_iff. split.
  - apply Nat.eqb_neq. lia.
  - apply andb_false_iff. right. apply Nat.leb_gt. lia.
Qed.

Lemma ascii_eqb_false_of_code (c d : ascii) :
  nat_of_ascii c <> nat_of_ascii d -> ascii_eqb c d = false.
Proof.
  intros H. unfold ascii_eqb. apply Ascii.eqb_neq. congruence.
Qed.

Lemma digit_not_sign (c : ascii) :
  is_digit c = true -> ascii_eqb c "-" = false /\ ascii_eqb c "+" = false.
Proof.
  unfold is_digit. intros H.
  apply andb_true_iff in H. destruct H as [H1 H2].
  apply Nat.leb_le in H1. apply Nat.leb_le in H2.
  split; apply ascii_eqb_false_of_code;
    [change (nat_of_ascii "-") with 45%nat | change (nat_of_ascii "+") with 43%nat];
    lia.
Qed.

Lemma digit_string_parts (ds : list ascii) :
  forallb is_digit ds = true ->
  digit_run ds = ds /\ remainder ds = [] /\ negated ds = false.
Proof.
  intros H. unfold digit_run, remainder, negated.
  destruct ds as [|c ds]; [repeat split |].
  pose proof H as H'. simpl in H'. apply andb_true_iff in H'. destruct H' as [Hc _].
  simpl skip_space. rewrite (digit_not_space c Hc).
  unfold strip_sign. destruct (digit_not_sign c Hc) as [-> ->].
  cbn [fst snd]. rewrite (span_digits_all _ H). repeat split.
Qed.

Lemma to_time_t_small (v : Z) :
  0 <= v < 9223372036854775808 -> to_time_t v = v.
Proof.
  intros H. unfold to_time_t. rewrite Z.mod_small; lia.
Qed.

Lemma parse_unix_timestamp_plain_parts (str : list ascii) (r : Z) :
  let v := digits_value (digit_run str) in
  parse_unix_timestamp_plain (Some str) (Some r) =
  if is_nil (digit_run str) || negb (is_nil (remainder str))
     || (ULONG_MAX <? v) || (v =? 0)
  then (TS_ERROR_TIME_PARSE, Some r)
  else (TS_SUCCESS,
        Some (to_time_t (if negated str then 18446744073709551616 - v else v))).
Proof.
  intros v. unfold parse_unix_timestamp_plain. rewrite strtoul_parts.
  pose proof (digits_value_nonneg str) as Hv. fold v in Hv.
  destruct (digit_run str) as [|c ds] eqn:Hrun.
  { cbn [st_erange st_endptr st_value is_nil orb].
    rewrite orb_true_r. reflexivity. }
  fold v. cbn [is_nil orb].
  destruct (ULONG_MAX <? v) eqn:Hmax; cbn [st_erange st_endptr st_value orb].
  { now rewrite orb_true_r. }
  unfold ULONG_MAX in Hmax. apply Z.ltb_ge in Hmax.
  rewrite orb_false_r.
  destruct (is_nil (remainder str)); cbn [negb orb]; [| reflexivity].
  destruct (v =? 0) eqn:Hz.
  - apply Z.eqb_eq in Hz. rewrite Hz.
    destruct (negated str); reflexivity.
  - apply Z.eqb_neq in Hz.
    destruct (negated str).
    + replace ((- v) mod 18446744073709551616) with (18446744073709551616 - v).
      * assert (Hnz : (18446744073709551616 - v =? 0) = false)
          by (apply Z.eqb_neq; lia).
        now rewrite Hnz.
      * apply Z.mod_unique with (q := -1); lia.
    + apply Z.eqb_neq in Hz. now rewrite Hz.
Qed.

(** The digits of 2^63 are a well-formed, non-zero digit run with no
    remainder that fits an [unsigned long], and the value returned for
    them is negative. *)
Lemma parse_unix_timestamp_plain_wraps :
  digits_value (cs "9223372036854775808") = 9223372036854775808
  /\ 9223372036854775808 <= ULONG_MAX
  /\ parse_unix_timestamp_plain (Some (cs "9223372036854775808")) (Some 0)
     = (TS_SUCCESS, Some (-9223372036854775808)).
Proof. repeat split; vm_compute; congruence. Qed.

Lemma strchr_skipn (c : ascii) :
  forall (s : list ascii) (n : nat),
    strchr s c = Some n -> exists rest, skipn n s = c :: rest.
Proof.
  induction s as [|x s IH]; intros n H; [discriminate |].
  cbn [strchr] in H. destruct (ascii_eqb x c) eqn:Hx.
  - inversion H; subst. unfold ascii_eqb in Hx. apply Ascii.eqb_eq in Hx.
    subst x. now exists s.
  - destruct (strchr s c) as [m|]; [| discriminate].
    inversion H; subst. cbn [skipn]. now apply IH.
Qed.

Lemma parse_unix_timestamp_fractional_fails (str : list ascii) (r : Z) :
  parse_unix_timestamp_fractional (Some str) (Some r)
  = (TS_ERROR_TIME_PARSE, Some r).
Proof.
  unfold parse_unix_timestamp_fractional.
  destruct (strchr str ".") as [dot_pos|] eqn:Hdot; [| reflexivity].
  destruct (strchr_skipn "." str dot_pos Hdot) as (rest & ->).
  cbv zeta.
  assert (Hend : is_nil (st_endptr (strtoul (firstn dot_pos str))
                         ++ "."%char :: rest) = false)
    by (destruct (st_endptr (strtoul (firstn dot_pos str))); reflexivity).
  rewrite Hend. cbn [negb]. now rewrite orb_true_r.
Qed.

(** C4: on non-null arguments the plain-epoch parser fails with a
    time-parse outcome exactly when the digit run (what [strtoul] reads
    after optional white space and sign) is empty, is followed by a
    remainder, exceeds [ULONG_MAX], or is zero; otherwise it succeeds with
    the parsed unsigned integer converted to the signed 64-bit [time_t],
    which is the same number whenever it is below 2^63.  A string of digits
    only is its own digit run.  The fractional-epoch parser cuts the string
    at the first ['.'] for the conversion, but stores the dot back before
    it reads the byte at [endptr]: that byte is the dot, or a byte before
    it, and never the NUL the test asks for, so the parser fails with a
    time-parse outcome on every string.  On ["1755921813.123456"], where
    the claim has 1755921813, it fails. *)
Theorem epoch_parsers_outcomes :
  (forall str r,
      let v := digits_value (digit_run str) in
      parse_unix_timestamp_plain (Some str) (Some r) =
      if is_nil (digit_run str) || negb (is_nil (remainder str))
         || (ULONG_MAX <? v) || (v =? 0)
      then (TS_ERROR_TIME_PARSE, Some r)
      else (TS_SUCCESS,
            Some (to_time_t (if negated str then 18446744073709551616 - v else v))))
  /\ (forall v, 0 <= v < 9223372036854775808 -> to_time_t v = v)
  /\ (forall ds, forallb is_digit ds = true ->
                 digit_run ds = ds /\ remainder ds = [] /\ negated ds = false)
  /\ (forall str r,
         parse_unix_timestamp_fractional (Some str) (Some r)
         = (TS_ERROR_TIME_PARSE, Some r))
  /\ parse_unix_timestamp_fractional (Some (cs "1755921813.123456")) (Some 0)
     = (TS_ERROR_TIME_PARSE, Some 0)
  /\ parse_unix_timestamp_plain (Some (cs "1755921813")) (Some 0)
     = (TS_SUCCESS, Some 1755921813).
Proof.
  split; [exact parse_unix_timestamp_plain_parts |].
  split; [exact to_time_t_small |].
  split; [exact digit_string_parts |].
  split; [exact parse_unix_timestamp_fractional_fails |].
  split; vm_compute; reflexivity.
Qed.

(** ** Calendar parse *)

(** C5: in [parse_timestamp_strptime], when the time computed from the
    parsed and defaulted fields lies more than 30 days after the current
    time, the year is decremented by one and the time computed again, and
    that second value is the outcome whatever it is: it is not compared
    with the current time again.  A time within 30 days is returned as it
    was computed. *)
Theorem future_correction_once (libc : Libc) (str fmt : list ascii) (r : Z)
        (n n1 : nat) (tm0 tm1 tm2 : tm) (r1 : Z) :
  strptime str fmt tm_zero = Some tm0 ->
  default_missing_fields tm0 n = (Some tm1, n1) ->
  mktime tm1 = (r1, tm2) ->
  r1 <> -1 ->
  time_at n1 <> -1 ->
  (time_at n1 + 30 * 86400 < r1 ->
   let r2 := fst (mktime (set_tm_year tm2 (tm_year tm2 - 1))) in
   parse_timestamp_strptime (Some str) (Some fmt) (Some r) n
   = ((if r2 =? -1 then TS_ERROR_TIME_PARSE else TS_SUCCESS, Some r2), S n1))
  /\ (r1 <= time_at n1 + 30 * 86400 ->
      parse_timestamp_strptime (Some str) (Some fmt) (Some r) n
      = ((TS_SUCCESS, Some r1), S n1)).
Proof.
  intros Hparse Hdef Hmk Hr1 Hnow.
  assert (E : parse_timestamp_strptime (Some str) (Some fmt) (Some r) n =
              if time_at n1 + 30 * 86400 <? r1
              then let r2 := fst (mktime (set_tm_year tm2 (tm_year tm2 - 1))) in
                   ((if r2 =? -1 then TS_ERROR_TIME_PARSE else TS_SUCCESS, Some r2), S n1)
              else ((TS_SUCCESS, Some r1), S n1)).
  { unfold parse_timestamp_strptime. rewrite Hparse.
    unfold bind at 1. rewrite Hdef, Hmk.
    apply Z.eqb_neq in Hr1. rewrite Hr1.
    unfold bind, time. apply Z.eqb_neq in Hnow. rewrite Hnow.
    cbn [negb andb].
    change (SECONDS_PER_DAY * FUTURE_THRESHOLD_DAYS) with (30 * 86400).
    destruct (time_at n1 + 30 * 86400 <? r1); [| reflexivity].
    destruct (mktime (set_tm_year tm2 (tm_year tm2 - 1))) as [r2 tm3].
    cbn [fst]. destruct (r2 =? -1); reflexivity. }
  rewrite E. split; intros Hcmp.
  - apply Z.ltb_lt in Hcmp. now rewrite Hcmp.
  - apply Z.ltb_ge in Hcmp. now rewrite Hcmp.
Qed.

(** On the reference platform, on 2026-01-10: ["2030-01-01T00:00:00"] is
    moved to 2029-01-01, which is still more than 30 days ahead, and that
    is the result; the year-less ["Dec 22 22:25:23"] is moved from 2026 to
    2025. *)
Lemma future_correction_once_witness :
  let libc := UTC.platform (fun _ => 1767998400) in
  1767998400 + 30 * 86400 < 1861920000
  /\ parse_timestamp_strptime (Some (cs "Dec 22 22:25:23"))
                              (Some (cs "%b %d %H:%M:%S")) (Some 0) O
     = ((TS_SUCCESS, Some 1766442323), 2%nat)
  /\ parse_timestamp_strptime (Some (cs "2030-01-01T00:00:00"))
                              (Some (cs "%Y-%m-%dT%H:%M:%S")) (Some 0) O
     = ((TS_SUCCESS, Some 1861920000), 1%nat).
Proof.
  cbv zeta. split; [reflexivity |]. split; [vm_compute; reflexivity |].
  pose (tm0 := {| tm_sec := 0; tm_min := 0; tm_hour := 0; tm_mday := 1;
                  tm_mon := 0; tm_year := 130; tm_wday := 0; tm_yday := 0;
                  tm_isdst := 0 |}).
  pose (tm2 := {| tm_sec := 0; tm_min := 0; tm_hour := 0; tm_mday := 1;
                  tm_mon := 0; tm_year := 130; tm_wday := 2; tm_yday := 0;
                  tm_isdst := 0 |}).
  assert (Hlt : 1767998400 + 30 * 86400 < 1893456000) by reflexivity.
  refine (eq_trans
            (proj1 (future_correction_once
                      (UTC.platform (fun _ => 1767998400))
                      (cs "2030-01-01T00:00:00") (cs "%Y-%m-%dT%H:%M:%S") 0
                      O O tm0 tm0 tm2 1893456000 _ _ _ _ _) Hlt) _).
  - vm_compute. reflexivity.
  - vm_compute. reflexivity.
  - vm_compute. reflexivity.
  - discriminate.
  - discriminate.
  - vm_compute. reflexivity.
Defined.

(** ** Character arrays *)

Lemma overwrite_app (src dst : list ascii) :
  overwrite dst src = src ++ skipn (List.length src) dst.
Proof.
  revert dst. induction src as [|x src IH]; intros dst; simpl; [reflexivity |].
  rewrite IH. destruct dst; simpl; [now rewrite skipn_nil | reflexivity].
Qed.

Lemma memcpy_within (dst : buffer) (off : nat) (src : list ascii) :
  (off <= List.length dst)%nat ->
  memcpy dst off src
  = firstn off dst ++ src ++ skipn (off + List.length src) dst.
Proof.
  revert dst. induction off as [|off IH]; intros dst Hoff.
  - simpl. apply overwrite_app.
  - destruct dst as [|c dst]; simpl in Hoff; [lia |].
    simpl. rewrite IH by lia. reflexivity.
Qed.

Lemma memcpy_length (dst : buffer) (off : nat) (src : list ascii) :
  (off + List.length src <= List.length dst)%nat ->
  List.length (memcpy dst off src) = List.length dst.
Proof.
  intros H. rewrite memcpy_within by lia.
  rewrite !length_app, length_firstn, length_skipn. lia.
Qed.

Lemma memcpy_skipn (dst : buffer) (off : nat) (src : list ascii) (k : nat) :
  (off + List.length src <= k)%nat -> (k <= List.length dst)%nat ->
  skipn k (memcpy dst off src) = skipn k dst.
Proof.
  intros H Hk. rewrite memcpy_within by lia.
  rewrite app_assoc, skipn_app.
  rewrite skipn_all2 by (rewrite length_app, length_firstn; lia).
  rewrite length_app, length_firstn, skipn_skipn. simpl.
  f_equal. lia.
Qed.

Lemma memcpy_firstn (dst : buffer) (off : nat) (src : list ascii) :
  (off <= List.length dst)%nat ->
  firstn (off + List.length src) (memcpy dst off src) = firstn off dst ++ src.
Proof.
  intros H. rewrite memcpy_within by lia.
  rewrite app_assoc.
  assert (E : (off + List.length src = List.length (firstn off dst ++ src))%nat).
  { rewrite length_app, length_firstn. lia. }
  rewrite E at 1. rewrite firstn_app, firstn_all, Nat.sub_diag. simpl.
  apply app_nil_r.
Qed.

Lemma strnlen_le (b : buffer) (n : nat) : (strnlen b n <= n)%nat.
Proof.
  revert b. induction n as [|n IH]; intros b; simpl; [lia |].
  destruct b as [|c b]; [lia |].
  destruct (ascii_eqb c NUL); [lia |]. specialize (IH b). lia.
Qed.

Lemma strlen_le (b : buffer) : (strlen b <= List.length b)%nat.
Proof.
  induction b as [|c b IH]; simpl; [lia |].
  destruct (ascii_eqb c NUL); lia.
Qed.

Lemma strlen_text (text rest : list ascii) :
  ~ In NUL text -> strlen (text ++ NUL :: rest) = List.length text.
Proof.
  induction text as [|c text IH]; intros Hn; simpl.
  - reflexivity.
  - destruct (ascii_eqb c NUL) eqn:Hc.
    + exfalso. apply Hn. left. symmetry. now apply Ascii.eqb_eq.
    + rewrite IH; [reflexivity |]. intros H. apply Hn. now right.
Qed.

Lemma cstr_text (text rest : list ascii) :
  ~ In NUL text -> cstr (text ++ NUL :: rest) = text.
Proof.
  intros Hn. unfold cstr. rewrite strlen_text by assumption.
  replace (List.length text) with (List.length text + 0)%nat by lia.
  rewrite firstn_app_2. simpl. apply app_nil_r.
Qed.

(** ** Safe text primitives *)

Lemma safe_strcat_fits (d : buffer) (dest_size : nat) (s : list ascii) :
  (dest_size <= List.length d)%nat ->
  let dest_len := strnlen d dest_size in
  safe_strcat (Some d) dest_size (Some s) =
  if (dest_len + List.length s <? dest_size)%nat
  then (TS_SUCCESS,
        Some (firstn dest_len d ++ (s ++ [NUL])
              ++ skipn (dest_len + List.length (s ++ [NUL])) d))
  else (TS_ERROR_BUFFER_OVERFLOW, Some d).
Proof.
  intros Hsize dest_len. unfold safe_strcat. fold dest_len.
  pose proof (strnlen_le d dest_size) as Hle. fold dest_len in Hle.
  destruct (Nat.leb_spec dest_size (dest_len + List.length s));
    destruct (Nat.ltb_spec (dest_len + List.length s) dest_size); try lia;
    [reflexivity |].
  rewrite memcpy_within by lia. reflexivity.
Qed.

Lemma vsnprintf_bounded (d : buffer) (size : nat) (f : list ascii)
      (args : list printf_arg) :
  (size <= List.length d)%nat ->
  List.length (snd (vsnprintf d size f args)) = List.length d
  /\ skipn size (snd (vsnprintf d size f args)) = skipn size d.
Proof.
  intros Hsize. unfold vsnprintf.
  destruct (sprintf f args) as [text|]; cbn [snd]; [| split; reflexivity].
  destruct size as [|m]; [split; reflexivity |].
  change (overwrite d (firstn m text ++ [NUL]))
    with (memcpy d 0 (firstn m text ++ [NUL])).
  assert (Hlen : (List.length (firstn m text ++ [NUL]) <= S m)%nat).
  { rewrite length_app, length_firstn. simpl. lia. }
  split; [apply memcpy_length | apply memcpy_skipn]; simpl; lia.
Qed.

Lemma vsnprintf_text (d : buffer) (size : nat) (f : list ascii)
      (args : list printf_arg) (text : list ascii) :
  sprintf f args = Some text ->
  (List.length text < size)%nat ->
  vsnprintf d size f args
  = (Z.of_nat (List.length text),
     (text ++ [NUL]) ++ skipn (List.length (text ++ [NUL])) d).
Proof.
  intros Htext Hfit. unfold vsnprintf. rewrite Htext.
  destruct size as [|m]; [lia |].
  rewrite firstn_all2 by lia. rewrite overwrite_app. reflexivity.
Qed.

Lemma safe_snprintf_code (d : buffer) (size : nat) (f : list ascii)
      (args : list printf_arg) :
  fst (safe_snprintf (Some d) size (Some f) args)
  = match sprintf f args with
    | Some text =>
      if (List.length text <? size)%nat then TS_SUCCESS
      else TS_ERROR_BUFFER_OVERFLOW
    | None => TS_ERROR_BUFFER_OVERFLOW
    end
  /\ snd (safe_snprintf (Some d) size (Some f) args)
     = Some (snd (vsnprintf d size f args)).
Proof.
  unfold safe_snprintf.
  destruct (vsnprintf d size f args) as [result d'] eqn:Hv.
  unfold vsnprintf in Hv.
  destruct (sprintf f args) as [text|]; inversion Hv; subst; clear Hv.
  - destruct (Nat.ltb_spec (List.length text) size) as [Hlt | Hge].
    + assert (H1 : (Z.of_nat (List.length text) <? 0) = false) by (apply Z.ltb_ge; lia).
      assert (H2 : (Z.of_nat size <=? Z.of_nat (List.length text)) = false)
        by (apply Z.leb_gt; lia).
      rewrite H1, H2. split; reflexivity.
    + assert (H2 : (Z.of_nat size <=? Z.of_nat (List.length text)) = true)
        by (apply Z.leb_le; lia).
      rewrite H2, orb_true_r. split; reflexivity.
  - split; reflexivity.
Qed.

Lemma safe_snprintf_eq (d : buffer) (size : nat) (f : list ascii)
      (args : list printf_arg) :
  safe_snprintf (Some d) size (Some f) args
  = (match sprintf f args with
     | Some text =>
       if (List.length text <? size)%nat then TS_SUCCESS
       else TS_ERROR_BUFFER_OVERFLOW
     | None => TS_ERROR_BUFFER_OVERFLOW
     end,
     Some (snd (vsnprintf d size f args))).
Proof.
  destruct (safe_snprintf_code d size f args) as [Hc Hd].
  rewrite (surjective_pairing (safe_snprintf (Some d) size (Some f) args)).
  now rewrite Hc, Hd.
Qed.

(** C9: [safe_strcat] and [safe_snprintf] on a destination of at least
    [dest_size] bytes store nothing at or beyond offset [dest_size] and
    never make the array grow.  The append succeeds exactly when the
    present length and the source fit below [dest_size], leaving the bytes
    before the present length as they were and the source with its NUL
    after them; otherwise it reports a buffer overflow and the destination
    is untouched.  The formatted write succeeds exactly when the expansion
    is shorter than [dest_size], and then the destination starts with the
    expansion and a NUL; otherwise it reports a buffer overflow.  An absent
    destination, source or format gives an invalid-argument failure. *)
Theorem safe_primitives_bounded (d : buffer) (dest_size : nat)
        (s f : list ascii) (args : list printf_arg) :
  (dest_size <= List.length d)%nat ->
  (let dest_len := strnlen d dest_size in
   exists code d',
     safe_strcat (Some d) dest_size (Some s) = (code, Some d') /\
     List.length d' = List.length d /\
     skipn dest_size d' = skipn dest_size d /\
     firstn dest_len d' = firstn dest_len d /\
     code = (if (dest_len + List.length s <? dest_size)%nat
             then TS_SUCCESS else TS_ERROR_BUFFER_OVERFLOW) /\
     (code = TS_SUCCESS ->
      firstn (dest_len + List.length s + 1) d' = firstn dest_len d ++ s ++ [NUL]) /\
     (code <> TS_SUCCESS -> d' = d))
  /\ (exists code d',
         safe_snprintf (Some d) dest_size (Some f) args = (code, Some d') /\
         List.length d' = List.length d /\
         skipn dest_size d' = skipn dest_size d /\
         code = match sprintf f args with
                | Some text =>
                  if (List.length text <? dest_size)%nat then TS_SUCCESS
                  else TS_ERROR_BUFFER_OVERFLOW
                | None => TS_ERROR_BUFFER_OVERFLOW
                end /\
         (forall text, sprintf f args = Some text -> code = TS_SUCCESS ->
                       firstn (List.length text + 1) d' = text ++ [NUL]))
  /\ safe_strcat None dest_size (Some s) = (TS_ERROR_INVALID_ARGUMENT, None)
  /\ safe_strcat (Some d) dest_size None = (TS_ERROR_INVALID_ARGUMENT, Some d)
  /\ safe_snprintf None dest_size (Some f) args = (TS_ERROR_INVALID_ARGUMENT, None)
  /\ safe_snprintf (Some d) dest_size None args = (TS_ERROR_INVALID_ARGUMENT, Some d).
Proof.
  intros Hsize.
  split; [| split; [| repeat split]].
  - intros dest_len.
    pose proof (strnlen_le d dest_size) as Hle. fold dest_len in Hle.
    pose proof (safe_strcat_fits d dest_size s Hsize) as E.
    cbv zeta in E. fold dest_len in E. rewrite E.
    destruct (Nat.ltb_spec (dest_len + List.length s) dest_size) as [Hfit | Hno].
    + exists TS_SUCCESS. eexists. split; [reflexivity |].
      assert (Hl : List.length (s ++ [NUL]) = (List.length s + 1)%nat)
        by (rewrite length_app; reflexivity).
      rewrite <- (memcpy_within d dest_len (s ++ [NUL])) by lia.
      split; [apply memcpy_length; lia |].
      split; [apply memcpy_skipn; lia |].
      split.
      { rewrite memcpy_within by lia. rewrite firstn_app, firstn_firstn.
        rewrite Nat.min_id, length_firstn.
        replace (dest_len - Nat.min dest_len (List.length d))%nat with 0%nat by lia.
        simpl. apply app_nil_r. }
      split; [reflexivity |].
      split; [| congruence].
      intros _. rewrite <- Nat.add_assoc, <- Hl. apply memcpy_firstn. lia.
    + exists TS_ERROR_BUFFER_OVERFLOW, d.
      repeat split; trivial. discriminate.
  - destruct (safe_snprintf_code d dest_size f args) as [Hc Hd].
    destruct (vsnprintf_bounded d dest_size f args Hsize) as [Hlen Hskip].
    destruct (safe_snprintf (Some d) dest_size (Some f) args) as [code od] eqn:E.
    cbn [fst snd] in Hc, Hd. subst od.
    exists code, (snd (vsnprintf d dest_size f args)).
    split; [reflexivity |]. split; [exact Hlen |]. split; [exact Hskip |].
    split; [exact Hc |].
    intros text Htext Hok. rewrite Htext in Hc.
    destruct (Nat.ltb_spec (List.length text) dest_size) as [Hfit | Hno];
      [| congruence].
    rewrite (vsnprintf_text d dest_size f args text Htext Hfit). cbn [snd].
    assert (Hl : List.length (text ++ [NUL]) = (List.length text + 1)%nat)
      by (rewrite length_app; reflexivity).
    rewrite <- Hl, firstn_app, firstn_all, Nat.sub_diag. simpl. apply app_nil_r.
Qed.

(** Appending [" the"] to ["Hi"] in eight bytes, and writing [1234] with
    ["%ld"] into the same array. *)
Lemma safe_primitives_bounded_witness :
  let d := cs "Hi" ++ repeat NUL 6 in
  (8 <= List.length d)%nat
  /\ safe_strcat (Some d) 8 (Some (cs " the"))
     = (TS_SUCCESS, Some (cs "Hi the" ++ repeat NUL 2))
  /\ exists code d',
      safe_snprintf (Some d) 8 (Some (cs "%ld")) [ArgInt 1234] = (code, Some d')
      /\ List.length d' = 8%nat.
Proof.
  cbv zeta.
  assert (Hsize : (8 <= List.length (cs "Hi" ++ repeat NUL 6))%nat) by (simpl; lia).
  split; [exact Hsize |]. split; [reflexivity |].
  destruct (safe_primitives_bounded (cs "Hi" ++ repeat NUL 6) 8 (cs " the")
                                    (cs "%ld") [ArgInt 1234] Hsize)
    as (_ & (code & d' & E & Hlen & _) & _).
  exists code, d'. split; [exact E | exact Hlen].
Defined.

(** ** Matches lie inside the line *)

Lemma omax_some (a b : option nat) (n : nat) :
  omax a b = Some n ->
  (a = Some n \/ b = Some n).
Proof.
  destruct a as [x|], b as [y|]; simpl; intros H; inversion H; subst; auto.
  destruct (Nat.max_spec x y) as [[_ ->] | [_ ->]]; auto.
Qed.

Lemma match_rep_le (cl : char_class) (k : list ascii -> option nat) :
  (forall s n, k s = Some n -> (n <= List.length s)%nat) ->
  forall s lo hi n,
    match_rep cl k lo hi s = Some n -> (n <= List.length s)%nat.
Proof.
  intros Hk. induction s as [|c s IH]; intros lo hi n H.
  - simpl in H. destruct (lo =? 0)%nat; [| discriminate]. now apply Hk.
  - simpl in H. apply omax_some in H. destruct H as [H | H].
    + destruct (in_class cl c && may_repeat hi); [| discriminate].
      destruct (match_rep cl k (Nat.pred lo) (option_map Nat.pred hi) s)
        as [m|] eqn:Hm; [| discriminate].
      inversion H; subst. apply IH in Hm. simpl. lia.
    + destruct (lo =? 0)%nat; [| discriminate]. now apply Hk.
Qed.

Lemma match_here_le (re : regex_t) :
  forall s n, match_here re s = Some n -> (n <= List.length s)%nat.
Proof.
  induction re as [|p re IH]; intros s n H.
  - inversion H. lia.
  - simpl in H. eapply match_rep_le; eauto.
Qed.

Lemma search_bounds (re : regex_t) :
  forall s off a b,
    search re s off = Some (a, b) ->
    (off <= a <= b)%nat /\ (b <= off + List.length s)%nat.
Proof.
  induction s as [|c s IH]; intros off a b H; simpl in H.
  - destruct (match_here re []) as [n|] eqn:Hn; [| discriminate].
    inversion H; subst. apply match_here_le in Hn. lia.
  - destruct (match_here re (c :: s)) as [n|] eqn:Hn.
    + inversion H; subst. apply match_here_le in Hn. lia.
    + apply IH in H. simpl. lia.
Qed.

Lemma entry_match_bounds (f : timestamp_format_t) (line : list ascii) (so eo : nat) :
  entry_match f line = Some (so, eo) ->
  (so <= eo <= List.length line)%nat.
Proof.
  unfold entry_match, regexec.
  destruct (regcomp (pattern f)); [| discriminate].
  intros H. apply search_bounds in H. lia.
Qed.

Lemma find_timestamp_match_cases (line : list ascii) (sp ep : Z) :
  (exists f so eo,
      In f timestamp_formats /\ entry_match f line = Some (so, eo) /\
      find_timestamp_match (Some line) (Some sp) (Some ep)
      = (TS_SUCCESS, Some (Z.of_nat so), Some (Z.of_nat eo)))
  \/ find_timestamp_match (Some line) (Some sp) (Some ep)
     = (TS_ERROR_TIME_PARSE, Some sp, Some ep).
Proof.
  unfold find_timestamp_match.
  pose proof (find_match_loop_spec line timestamp_formats (-1) (-1)) as H.
  destruct (find_match_loop timestamp_formats line (-1) (-1)) as [s e].
  destruct H as [(Hs & He & _) | (pre & f & post & so & eo & Hsplit & Hm & Hs & He & _)].
  - right. subst s e. reflexivity.
  - left. exists f, so, eo. split; [| split; [exact Hm |]].
    + rewrite Hsplit. apply in_or_app. right. now left.
    + subst s e. assert (Hne : (Z.of_nat so =? -1) = false) by (apply Z.eqb_neq; lia).
      now rewrite Hne.
Qed.

(** ** Line rewriter *)

Lemma memcpy_app (pre rest src : list ascii) :
  memcpy (pre ++ rest) (List.length pre) src = pre ++ overwrite rest src.
Proof.
  induction pre as [|c pre IH]; simpl; [reflexivity |]. now rewrite IH.
Qed.

Lemma skipn_overwrite (rest src : list ascii) (k : nat) :
  (List.length src <= k)%nat ->
  skipn k (overwrite rest src) = skipn k rest.
Proof.
  intros H. rewrite overwrite_app, skipn_app.
  rewrite skipn_all2 by lia. rewrite skipn_skipn. simpl. f_equal. lia.
Qed.

(** The five stores of the replacement branch, on the three pieces. *)
Lemma splice_stores (out : buffer) (before new after : list ascii) :
  let n1 := List.length before in
  let n2 := (n1 + List.length new)%nat in
  let o1 := memcpy out O before in
  let o2 := memcpy o1 n1 [NUL] in
  let o3 := memcpy o2 n1 new in
  let o4 := memcpy o3 n2 [NUL] in
  memcpy o4 n2 (after ++ [NUL])
  = (before ++ new ++ after) ++ [NUL]
    ++ skipn (List.length (before ++ new ++ after) + 1) out.
Proof.
  cbv zeta. simpl memcpy at 5.
  rewrite (overwrite_app before out).
  rewrite memcpy_app, memcpy_app.
  rewrite (overwrite_app new), app_assoc.
  replace (List.length before + List.length new)%nat
    with (List.length (before ++ new)) by apply length_app.
  rewrite memcpy_app, memcpy_app.
  rewrite (overwrite_app (after ++ [NUL])).
  rewrite <- !app_assoc. do 3 f_equal.
  rewrite skipn_overwrite by (rewrite length_app; simpl; lia).
  rewrite skipn_skipn.
  rewrite skipn_overwrite by (rewrite length_app; simpl; lia).
  rewrite skipn_skipn. do 2 f_equal.
  rewrite !length_app. simpl. lia.
Qed.

(** C6: when [find_timestamp_match] finds the span [start, end) in the
    line, [replace_timestamp_in_line] composes the line before [start],
    the new text and the line from [end]; when it finds none, it composes
    the line itself.  If the composed text with its NUL fits in
    [output_size] bytes, the output array starts with exactly that text
    and a NUL and keeps its other bytes; if not, the result is a
    buffer-overflow failure and the array is untouched.  An array of at
    least [output_size] bytes keeps its length.  An epoch is replaced
    in place, a line without a timestamp is copied with its newline, and a
    result of 15 bytes does not fit in 15. *)
Theorem replace_timestamp_in_line_splices :
  (forall (out : buffer) (output_size : nat) (line new : list ascii),
  let composed :=
    match find_timestamp_match (Some line) (Some 0) (Some 0) with
    | (TS_SUCCESS, Some start_pos, Some end_pos) =>
      firstn (Z.to_nat start_pos) line ++ new ++ skipn (Z.to_nat end_pos) line
    | _ => line
    end in
  replace_timestamp_in_line (Some out) output_size (Some line) (Some new)
  = (if (List.length composed <? output_size)%nat
     then (TS_SUCCESS,
           Some (composed ++ [NUL] ++ skipn (List.length composed + 1) out))
     else (TS_ERROR_BUFFER_OVERFLOW, Some out))
  /\ ((output_size <= List.length out)%nat ->
      forall code out',
        replace_timestamp_in_line (Some out) output_size (Some line) (Some new)
        = (code, Some out') ->
        List.length out' = List.length out))
  /\ replace_timestamp_in_line (Some (repeat "x"%char 24)) 24
       (Some (cs "a 1755921813 test line")) (Some (cs "NEW"))
     = (TS_SUCCESS, Some (cs "a NEW test line" ++ [NUL] ++ repeat "x"%char 8))
  /\ replace_timestamp_in_line (Some (repeat "x"%char 24)) 24
       (Some (cs "no timestamp here" ++ ["010"%char])) (Some (cs "NEW"))
     = (TS_SUCCESS,
        Some (cs "no timestamp here" ++ ["010"%char; NUL] ++ repeat "x"%char 5))
  /\ replace_timestamp_in_line (Some (repeat "x"%char 24)) 15
       (Some (cs "a 1755921813 test line")) (Some (cs "NEW"))
     = (TS_ERROR_BUFFER_OVERFLOW, Some (repeat "x"%char 24)).
Proof.
  split; [| repeat split; vm_compute; reflexivity].
  intros out output_size line new. cbv zeta.
  set (composed :=
         match find_timestamp_match (Some line) (Some 0) (Some 0) with
         | (TS_SUCCESS, Some start_pos, Some end_pos) =>
           firstn (Z.to_nat start_pos) line ++ new ++ skipn (Z.to_nat end_pos) line
         | _ => line
         end).
  assert (E : replace_timestamp_in_line (Some out) output_size (Some line) (Some new)
              = if (List.length composed <? output_size)%nat
                then (TS_SUCCESS,
                      Some (composed ++ [NUL] ++ skipn (List.length composed + 1) out))
                else (TS_ERROR_BUFFER_OVERFLOW, Some out)).
  { unfold replace_timestamp_in_line. subst composed.
    destruct (find_timestamp_match_cases line 0 0)
      as [(f & so & eo & _ & Hm & ->) | ->].
    - apply entry_match_bounds in Hm. rewrite !Nat2Z.id.
      assert (Hb : List.length (firstn so line) = so)
        by (rewrite length_firstn; lia).
      rewrite !length_app, Hb.
      destruct (Nat.leb_spec output_size
                  (so + List.length new + List.length (skipn eo line)));
        destruct (Nat.ltb_spec
                    (so + (List.length new + List.length (skipn eo line)))
                    output_size); try lia; [reflexivity |].
      pose proof (splice_stores out (firstn so line) new (skipn eo line)) as S.
      cbv zeta in S. rewrite Hb in S. rewrite S.
      rewrite !length_app, Hb. reflexivity.
    - destruct (Nat.leb_spec output_size (List.length line));
        destruct (Nat.ltb_spec (List.length line) output_size); try lia;
        [reflexivity |].
      simpl memcpy. rewrite overwrite_app, length_app, <- app_assoc.
      reflexivity. }
  split; [exact E |].
  intros Hsize code out' H. rewrite E in H.
  destruct (Nat.ltb_spec (List.length composed) output_size) as [Hfit | Hno];
    inversion H; subst; [| reflexivity].
  rewrite length_app. simpl. rewrite length_skipn. lia.
Qed.

(** ** Formatted output *)

Lemma sprintf_ld (z : Z) :
  sprintf (cs "%ld") [ArgInt z] = Some (fmt_int false 0 z).
Proof.
  transitivity (Some (fmt_int false 0 z ++ [])); [reflexivity |].
  now rewrite app_nil_r.
Qed.

Lemma sprintf_09ld (z : Z) :
  sprintf (cs "%09ld") [ArgInt z] = Some (fmt_int true 9 z).
Proof.
  transitivity (Some (fmt_int true 9 z ++ [])); [reflexivity |].
  now rewrite app_nil_r.
Qed.

Lemma sprintf_02d_06ld (a b : Z) :
  sprintf (cs "%02d.%06ld") [ArgInt a; ArgInt b]
  = Some (fmt_int true 2 a ++ cs "." ++ fmt_int true 6 b).
Proof.
  transitivity (Some (fmt_int true 2 a ++ cs "." ++ fmt_int true 6 b ++ []));
    [reflexivity |].
  now rewrite app_nil_r.
Qed.

Lemma sprintf_02ld_06ld (a b : Z) :
  sprintf (cs "%02ld.%06ld") [ArgInt a; ArgInt b]
  = Some (fmt_int true 2 a ++ cs "." ++ fmt_int true 6 b).
Proof.
  transitivity (Some (fmt_int true 2 a ++ cs "." ++ fmt_int true 6 b ++ []));
    [reflexivity |].
  now rewrite app_nil_r.
Qed.

Lemma sprintf_ld_06ld (a b : Z) :
  sprintf (cs "%ld.%06ld") [ArgInt a; ArgInt b]
  = Some (fmt_int false 0 a ++ cs "." ++ fmt_int true 6 b).
Proof.
  transitivity (Some (fmt_int false 0 a ++ cs "." ++ fmt_int true 6 b ++ []));
    [reflexivity |].
  now rewrite app_nil_r.
Qed.

Lemma sprintf_s_06ld (s : list ascii) (b : Z) :
  sprintf (cs "%s.%06ld") [ArgStr s; ArgInt b]
  = Some (s ++ cs "." ++ fmt_int true 6 b).
Proof.
  transitivity (Some (s ++ cs "." ++ fmt_int true 6 b ++ []));
    [reflexivity |].
  now rewrite app_nil_r.
Qed.

Lemma sprintf_hms_06ld (h m s u : Z) :
  sprintf (cs "%02ld:%02ld:%02ld.%06ld") [ArgInt h; ArgInt m; ArgInt s; ArgInt u]
  = Some (fmt_int true 2 h ++ cs ":" ++ fmt_int true 2 m ++ cs ":"
          ++ fmt_int true 2 s ++ cs "." ++ fmt_int true 6 u).
Proof.
  transitivity (Some (fmt_int true 2 h ++ cs ":" ++ fmt_int true 2 m ++ cs ":"
                      ++ fmt_int true 2 s ++ cs "." ++ fmt_int true 6 u ++ []));
    [reflexivity |].
  now rewrite app_nil_r.
Qed.

(** ** Decimal digits *)

Lemma digit_char_spec (d : Z) :
  0 <= d < 10 ->
  is_digit (digit_char d) = true /\ digit_val (digit_char d) = d.
Proof.
  intros H.
  assert (C : d = 0 \/ d = 1 \/ d = 2 \/ d = 3 \/ d = 4 \/ d = 5 \/ d = 6
              \/ d = 7 \/ d = 8 \/ d = 9) by lia.
  repeat (destruct C as [-> | C]; [split; reflexivity |]).
  subst d. split; reflexivity.
Qed.

Lemma udec_aux_digits (fuel : nat) :
  forall n acc,
    0 <= n ->
    Forall (fun c => is_digit c = true) acc ->
    Forall (fun c => is_digit c = true) (udec_aux fuel n acc).
Proof.
  induction fuel as [|fuel IH]; intros n acc Hn Hacc; simpl.
  - constructor; [| exact Hacc].
    apply digit_char_spec. apply Z.mod_pos_bound. lia.
  - assert (Hd : is_digit (digit_char (n mod 10)) = true)
      by (apply digit_char_spec; apply Z.mod_pos_bound; lia).
    destruct (n / 10 =? 0); [constructor; assumption |].
    apply IH; [apply Z.div_pos; lia | constructor; assumption].
Qed.

Lemma udec_aux_value (fuel : nat) :
  forall n acc,
    0 <= n < 10 ^ (Z.of_nat fuel + 1) ->
    fold_left (fun a c => a * 10 + digit_val c) (udec_aux fuel n acc) 0
    = fold_left (fun a c => a * 10 + digit_val c) acc n.
Proof.
  induction fuel as [|fuel IH]; intros n acc Hn.
  - simpl in *. f_equal.
    rewrite (proj2 (digit_char_spec (n mod 10) (Z.mod_pos_bound n 10 eq_refl))).
    rewrite Z.mod_small; lia.
  - cbn [udec_aux].
    pose proof (proj2 (digit_char_spec (n mod 10) (Z.mod_pos_bound n 10 eq_refl))) as Hd.
    destruct (n / 10 =? 0) eqn:Hq.
    + apply Z.eqb_eq in Hq. simpl. rewrite Hd. f_equal.
      pose proof (Z.div_mod n 10). lia.
    + rewrite IH.
      * simpl. rewrite Hd. f_equal. pose proof (Z.div_mod n 10). lia.
      * split; [apply Z.div_pos; lia |].
        apply Z.div_lt_upper_bound; [lia |].
        replace (Z.of_nat (S fuel) + 1) with (Z.succ (Z.of_nat fuel + 1)) in Hn by lia.
        rewrite Z.pow_succ_r in Hn by lia. lia.
Qed.

Lemma pow2_le_pow10 (k : Z) : 0 <= k -> 2 ^ k <= 10 ^ k.
Proof. intros Hk. apply Z.pow_le_mono_l. lia. Qed.

Lemma udec_fuel (n : Z) :
  0 <= n -> n < 10 ^ (Z.of_nat (Z.to_nat (Z.log2 n)) + 1).
Proof.
  intros Hn. rewrite Z2Nat.id by apply Z.log2_nonneg.
  destruct (Z.eq_dec n 0) as [-> | Hnz]; [reflexivity |].
  pose proof (Z.log2_spec n ltac:(lia)) as [_ Hup].
  pose proof (pow2_le_pow10 (Z.log2 n + 1)
                            ltac:(pose proof (Z.log2_nonneg n); lia)).
  replace (Z.succ (Z.log2 n)) with (Z.log2 n + 1) in Hup by lia. lia.
Qed.

(** Reading back the digits of a number gives the number. *)
Lemma digits_value_udec (n : Z) : 0 <= n -> digits_value (udec n) = n.
Proof.
  intros Hn. unfold digits_value, udec.
  rewrite udec_aux_value; [reflexivity |].
  split; [exact Hn | now apply udec_fuel].
Qed.

Lemma udec_digits (n : Z) :
  0 <= n -> Forall (fun c => is_digit c = true) (udec n).
Proof. intros Hn. apply udec_aux_digits; [exact Hn | constructor]. Qed.

Lemma udec_aux_length (fuel : nat) :
  forall n acc k,
    0 <= n < 10 ^ (Z.of_nat k + 1) ->
    (List.length (udec_aux fuel n acc) <= List.length acc + k + 1)%nat.
Proof.
  induction fuel as [|fuel IH]; intros n acc k Hn; simpl; [lia |].
  destruct (n / 10 =? 0) eqn:Hq; simpl; [lia |].
  apply Z.eqb_neq in Hq.
  destruct k as [|k].
  - simpl in Hn. exfalso. apply Hq. apply Z.div_small. lia.
  - specialize (IH (n / 10) (digit_char (n mod 10) :: acc) k).
    simpl in IH. assert (Hb : 0 <= n / 10 < 10 ^ (Z.of_nat k + 1)).
    { split; [apply Z.div_pos; lia |].
      apply Z.div_lt_upper_bound; [lia |].
      replace (Z.of_nat (S k) + 1) with (Z.succ (Z.of_nat k + 1)) in Hn by lia.
      rewrite Z.pow_succ_r in Hn by lia. lia. }
    specialize (IH Hb). lia.
Qed.

(** A number below [10^(k+1)] has at most [k+1] digits. *)
Lemma udec_length (n : Z) (k : nat) :
  0 <= n < 10 ^ (Z.of_nat k + 1) -> (List.length (udec n) <= k + 1)%nat.
Proof. intros Hn. apply (udec_aux_length _ n [] k Hn). Qed.

Lemma udec_nonempty (n : Z) : udec n <> [].
Proof.
  unfold udec. generalize (Z.to_nat (Z.log2 n)) as fuel.
  assert (G : forall fuel m acc, udec_aux fuel m acc <> []).
  { induction fuel as [|fuel IH]; intros m acc; simpl; [discriminate |].
    destruct (m / 10 =? 0); [discriminate | apply IH]. }
  intros fuel. apply G.
Qed.

Lemma fmt_int_chars (pad0 : bool) (width : nat) (z : Z) :
  Forall numeric (fmt_int pad0 width z).
Proof.
  unfold fmt_int.
  assert (Hs : Forall numeric (if z <? 0 then cs "-" else [])).
  { destruct (z <? 0); [| constructor].
    constructor; [right; left; reflexivity | constructor]. }
  assert (Hd : Forall numeric (udec (Z.abs z))).
  { eapply Forall_impl; [| apply udec_digits; lia]. intros c Hc. now left. }
  destruct pad0; repeat (apply Forall_app; split); trivial;
    apply Forall_forall; intros c Hc; apply repeat_spec in Hc; subst c.
  - now left.
  - right. now right.
Qed.

Lemma numeric_not_nul (c : ascii) : numeric c -> c <> NUL.
Proof. intros [H | [-> | ->]]; [intros -> |..]; discriminate. Qed.

Lemma numeric_not_percent (c : ascii) : numeric c -> c <> "%"%char.
Proof. intros [H | [-> | ->]]; [intros -> |..]; discriminate. Qed.

Lemma fmt_int_no_nul (pad0 : bool) (width : nat) (z : Z) :
  ~ In NUL (fmt_int pad0 width z).
Proof.
  intros H. pose proof (fmt_int_chars pad0 width z) as F.
  rewrite Forall_forall in F. now apply (numeric_not_nul _ (F _ H)).
Qed.

Lemma fmt_int_no_percent (pad0 : bool) (width : nat) (z : Z) :
  ~ In "%"%char (fmt_int pad0 width z).
Proof.
  intros H. pose proof (fmt_int_chars pad0 width z) as F.
  rewrite Forall_forall in F. now apply (numeric_not_percent _ (F _ H)).
Qed.

Lemma strstr_percent (s : list ascii) :
  strstr s (cs "%") = true <-> In "%"%char s.
Proof.
  induction s as [|c s IH].
  - split; [discriminate | intros []].
  - change (strstr (c :: s) (cs "%"))
      with (ascii_eqb "%" c && true || strstr s (cs "%")).
    rewrite andb_true_r. rewrite orb_true_iff, IH.
    unfold ascii_eqb. rewrite Ascii.eqb_eq. simpl In. intuition congruence.
Qed.

Lemma fmt_int_length (pad0 : bool) (width : nat) (z : Z) :
  long_range z -> (List.length (fmt_int pad0 width z) <= Nat.max width 20)%nat.
Proof.
  intros Hz. unfold long_range in Hz.
  assert (Hd : (List.length (udec (Z.abs z)) <= 19)%nat).
  { apply (udec_length (Z.abs z) 18). simpl. lia. }
  assert (Hs : (List.length (if (z <? 0)%Z then cs "-" else []) <= 1)%nat)
    by (destruct (z <? 0); simpl; lia).
  unfold fmt_int. destruct pad0; rewrite !length_app, repeat_length; lia.
Qed.

(** ** The array of the first pass *)

Lemma strnlen_text (text rest : list ascii) (n : nat) :
  ~ In NUL text -> (List.length text < n)%nat ->
  strnlen (text ++ NUL :: rest) n = List.length text.
Proof.
  revert n. induction text as [|c text IH]; intros n Hn Hlen.
  - destruct n; [simpl in Hlen; lia | reflexivity].
  - destruct n; [simpl in Hlen; lia |]. simpl.
    destruct (ascii_eqb c NUL) eqn:Hc.
    + exfalso. apply Hn. left. symmetry. now apply Ascii.eqb_eq.
    + rewrite IH; [reflexivity | | simpl in Hlen; lia].
      intros H. apply Hn. now right.
Qed.

Lemma holds_text_init : holds_text (repeat NUL MAX_FORMAT_LENGTH) [].
Proof.
  exists (repeat NUL (MAX_FORMAT_LENGTH - 1)).
  split; [reflexivity |]. split; [intros [] | apply repeat_length].
Qed.

Lemma holds_text_cstr (result : buffer) (text : list ascii) :
  holds_text result text ->
  cstr result = text /\ strlen result = List.length text
  /\ (List.length text < MAX_FORMAT_LENGTH)%nat.
Proof.
  intros (rest & -> & Hn & Hlen).
  split; [now apply cstr_text |]. split; [now apply strlen_text |].
  rewrite length_app in Hlen. simpl in Hlen. lia.
Qed.

Lemma not_in_app (c : ascii) (a b : list ascii) :
  ~ In c a -> ~ In c b -> ~ In c (a ++ b).
Proof. intros Ha Hb H. apply in_app_or in H. tauto. Qed.

Lemma append_format_fits (result : buffer) (text fmt : list ascii)
      (args : list printf_arg) (piece : list ascii) :
  holds_text result text ->
  sprintf fmt args = Some piece ->
  ~ In NUL piece ->
  (List.length text + List.length piece < MAX_FORMAT_LENGTH)%nat ->
  exists result',
    append_format result fmt args = (TS_SUCCESS, result')
    /\ holds_text result' (text ++ piece).
Proof.
  intros (rest & -> & Hn & Hlen) Hp Hpn Hfit.
  unfold append_format. rewrite strlen_text by assumption.
  rewrite skipn_app, skipn_all, Nat.sub_diag. cbn [skipn app].
  rewrite firstn_app, firstn_all, Nat.sub_diag. cbn [firstn]. rewrite app_nil_r.
  rewrite safe_snprintf_eq, Hp.
  assert (Hlt : (List.length piece <? MAX_FORMAT_LENGTH - List.length text)%nat = true)
    by (apply Nat.ltb_lt; lia).
  rewrite Hlt.
  rewrite (vsnprintf_text _ _ _ _ piece Hp) by lia. cbn [snd].
  eexists. split; [reflexivity |].
  rewrite length_app in Hlen. cbn [List.length] in Hlen.
  assert (Hl : List.length (piece ++ [NUL]) = S (List.length piece))
    by (rewrite length_app; simpl; lia).
  rewrite Hl. cbn [skipn].
  exists (skipn (List.length piece) rest).
  split; [now rewrite <- !app_assoc |].
  split; [now apply not_in_app |].
  rewrite !length_app, length_skipn. cbn [List.length]. lia.
Qed.

Lemma append_format_overflow (result : buffer) (text fmt : list ascii)
      (args : list printf_arg) (piece : list ascii) :
  holds_text result text ->
  sprintf fmt args = Some piece ->
  (MAX_FORMAT_LENGTH <= List.length text + List.length piece)%nat ->
  fst (append_format result fmt args) = TS_ERROR_BUFFER_OVERFLOW.
Proof.
  intros (rest & -> & Hn & Hlen) Hp Hbig.
  unfold append_format. rewrite strlen_text by assumption.
  rewrite skipn_app, skipn_all, Nat.sub_diag. cbn [skipn app].
  rewrite safe_snprintf_eq, Hp.
  assert (Hlt : (List.length piece <? MAX_FORMAT_LENGTH - List.length text)%nat = false)
    by (apply Nat.ltb_ge; lia).
  now rewrite Hlt.
Qed.

Lemma append_char_fits (result : buffer) (text : list ascii) (c : ascii) :
  holds_text result text ->
  c <> NUL ->
  (List.length text + 1 < MAX_FORMAT_LENGTH)%nat ->
  exists result',
    append_char result c = (TS_SUCCESS, result')
    /\ holds_text result' (text ++ [c]).
Proof.
  intros (rest & -> & Hn & Hlen) Hc Hfit.
  unfold append_char.
  rewrite safe_strcat_fits by lia.
  rewrite strnlen_text by (trivial; lia).
  assert (Hlt : (List.length text + List.length [c] <? MAX_FORMAT_LENGTH)%nat = true)
    by (apply Nat.ltb_lt; simpl; lia).
  rewrite Hlt. eexists. split; [reflexivity |].
  rewrite firstn_app, firstn_all, Nat.sub_diag. cbn [firstn]. rewrite app_nil_r.
  rewrite skipn_app, skipn_all2 by (simpl; lia).
  replace (List.length text + List.length ([c] ++ [NUL]) - List.length text)%nat
    with 2%nat by (simpl; lia).
  rewrite length_app in Hlen. cbn [List.length] in Hlen.
  change (skipn 2 (NUL :: rest)) with (skipn 1 rest). cbn [app].
  exists (skipn 1 rest).
  split; [now rewrite <- !app_assoc |].
  split.
  - apply not_in_app; [assumption |]. intros [H | []]. congruence.
  - rewrite length_app. cbn [List.length]. rewrite length_skipn. lia.
Qed.

Lemma append_char_overflow (result : buffer) (text : list ascii) (c : ascii) :
  holds_text result text ->
  (MAX_FORMAT_LENGTH <= List.length text + 1)%nat ->
  fst (append_char result c) = TS_ERROR_BUFFER_OVERFLOW.
Proof.
  intros (rest & -> & Hn & Hlen) Hbig.
  unfold append_char.
  rewrite safe_strcat_fits by lia.
  rewrite length_app in Hlen. cbn [List.length] in Hlen.
  rewrite strnlen_text by (trivial; lia).
  assert (Hlt : (List.length text + List.length [c] <? MAX_FORMAT_LENGTH)%nat = false)
    by (apply Nat.ltb_ge; simpl; lia).
  now rewrite Hlt.
Qed.

(** ** The first pass computes the expansion *)

Lemma extends_by_done : extends_by (fun result => (TS_SUCCESS, result)) [].
Proof.
  intros result text H. split.
  - intros _. exists result. split; [reflexivity |]. now rewrite app_nil_r.
  - intros Hbig. apply holds_text_cstr in H. simpl in Hbig. lia.
Qed.

Lemma extends_by_format (k : buffer -> ts_error_t * buffer) (out : list ascii)
      (fmt : list ascii) (args : list printf_arg) (piece : list ascii) :
  sprintf fmt args = Some piece ->
  ~ In NUL piece ->
  extends_by k out ->
  extends_by (fun result =>
                let (code, result') := append_format result fmt args in
                if is_success code then k result' else (code, result'))
             (piece ++ out).
Proof.
  intros Hp Hn Hk result text H. rewrite length_app. split.
  - intros Hfit.
    destruct (append_format_fits result text fmt args piece H Hp Hn ltac:(lia))
      as (r1 & -> & H1).
    cbn [is_success].
    destruct (Hk r1 (text ++ piece) H1) as [Hok _].
    rewrite length_app in Hok.
    destruct (Hok ltac:(lia)) as (r2 & E & H2).
    exists r2. split; [exact E |]. now rewrite app_assoc.
  - intros Hbig.
    destruct (Nat.lt_ge_cases (List.length text + List.length piece) MAX_FORMAT_LENGTH)
      as [Hfit | Hno].
    + destruct (append_format_fits result text fmt args piece H Hp Hn Hfit)
        as (r1 & -> & H1).
      cbn [is_success].
      destruct (Hk r1 (text ++ piece) H1) as [_ Hov].
      apply Hov. rewrite length_app. lia.
    + pose proof (append_format_overflow result text fmt args piece H Hp Hno) as E.
      destruct (append_format result fmt args) as [code r1].
      cbn [fst] in E. subst code. reflexivity.
Qed.

Lemma extends_by_char (k : buffer -> ts_error_t * buffer) (out : list ascii)
      (c : ascii) :
  c <> NUL ->
  extends_by k out ->
  extends_by (fun result =>
                let (code, result') := append_char result c in
                if is_success code then k result' else (code, result'))
             (c :: out).
Proof.
  intros Hc Hk result text H. cbn [List.length]. split.
  - intros Hfit.
    destruct (append_char_fits result text c H Hc ltac:(lia)) as (r1 & -> & H1).
    cbn [is_success].
    destruct (Hk r1 (text ++ [c]) H1) as [Hok _].
    rewrite length_app in Hok. cbn [List.length] in Hok.
    destruct (Hok ltac:(lia)) as (r2 & E & H2).
    exists r2. split; [exact E |]. now rewrite <- app_assoc in H2.
  - intros Hbig.
    destruct (Nat.lt_ge_cases (List.length text + 1) MAX_FORMAT_LENGTH)
      as [Hfit | Hno].
    + destruct (append_char_fits result text c H Hc Hfit) as (r1 & -> & H1).
      cbn [is_success].
      destruct (Hk r1 (text ++ [c]) H1) as [_ Hov].
      apply Hov. rewrite length_app. cbn [List.length]. lia.
    + pose proof (append_char_overflow result text c H Hno) as E.
      destruct (append_char result c) as [code r1].
      cbn [fst] in E. subst code. reflexivity.
Qed.

Section FirstPass.

Context {libc : Libc}.

Variables (tm_info : tm) (ts : high_res_time_t) (hms : list ascii).

Hypothesis hms_text :
  strftime MAX_TIME_STR_LENGTH (cs "%H:%M:%S") tm_info = Some hms.

Hypothesis hms_no_nul : ~ In NUL hms.

Lemma hms_is_text : strftime_text (cs "%H:%M:%S") tm_info = hms.
Proof.
  pose proof hms_text as H. unfold strftime in H.
  destruct (is_nil (strftime_text (cs "%H:%M:%S") tm_info)
            || (MAX_TIME_STR_LENGTH <=? List.length (strftime_text (cs "%H:%M:%S") tm_info))%nat);
    congruence.
Qed.

Lemma first_pass_refines :
  forall current skip,
    ~ In NUL current ->
    extends_by (first_pass current skip tm_info ts)
               (expand_custom current skip tm_info ts).
Proof.
  induction current as [|c rest IH]; intros skip Hn.
  - apply extends_by_done.
  - assert (Hrest : ~ In NUL rest) by (intros H; apply Hn; now right).
    assert (Hc : c <> NUL) by (intros ->; apply Hn; now left).
    destruct skip as [|k]; [| apply IH; exact Hrest].
    intros result text H.
    cbn [first_pass expand_custom].
    assert (Hdot : forall x y, ~ In NUL x -> ~ In NUL y -> ~ In NUL (x ++ cs "." ++ y)).
    { intros x y Hx Hy. apply not_in_app; [exact Hx |].
      apply not_in_app; [intros [E | []]; discriminate | exact Hy]. }
    destruct (has_prefix (cs "%.S") (c :: rest)).
    { pose proof (extends_by_format
                    _ _ _ _ _
                    (sprintf_02d_06ld (tm_sec tm_info) (Z.quot (nanoseconds ts) 1000))
                    (Hdot _ _ (fmt_int_no_nul _ _ _) (fmt_int_no_nul _ _ _))
                    (IH 2%nat Hrest) result text H) as G.
      rewrite <- !app_assoc in G. exact G. }
    destruct (has_prefix (cs "%.s") (c :: rest)).
    { pose proof (extends_by_format
                    _ _ _ _ _
                    (sprintf_ld_06ld (seconds ts) (Z.quot (nanoseconds ts) 1000))
                    (Hdot _ _ (fmt_int_no_nul _ _ _) (fmt_int_no_nul _ _ _))
                    (IH 2%nat Hrest) result text H) as G.
      rewrite <- !app_assoc in G. exact G. }
    destruct (has_prefix (cs "%.T") (c :: rest)).
    { rewrite hms_text, hms_is_text.
      pose proof (extends_by_format
                    _ _ _ _ _
                    (sprintf_s_06ld hms (Z.quot (nanoseconds ts) 1000))
                    (Hdot _ _ hms_no_nul (fmt_int_no_nul _ _ _))
                    (IH 2%nat Hrest) result text H) as G.
      rewrite <- !app_assoc in G. exact G. }
    destruct (has_prefix (cs "%N") (c :: rest)).
    { exact (extends_by_format
               _ _ _ _ _ (sprintf_09ld (nanoseconds ts))
               (fmt_int_no_nul _ _ _) (IH 1%nat Hrest) result text H). }
    destruct (has_prefix (cs "%s") (c :: rest)).
    { exact (extends_by_format
               _ _ _ _ _ (sprintf_ld (seconds ts))
               (fmt_int_no_nul _ _ _) (IH 1%nat Hrest) result text H). }
    exact (extends_by_char _ _ c Hc (IH 0%nat Hrest) result text H).
Qed.

End FirstPass.

(** ** Time formatter *)

Lemma no_nul_check (s : list ascii) :
  forallb (fun c => negb (ascii_eqb c NUL)) s = true -> ~ In NUL s.
Proof.
  induction s as [|c s IH]; simpl; intros H; [tauto |].
  apply andb_true_iff in H. destruct H as [Hc Hs].
  intros [E | Hin]; [| now apply IH].
  subst c. discriminate.
Qed.

Lemma format_timestamp_with_subsecond_eq (libc : Libc) (b : buffer)
      (buffer_size : nat) (fmt : list ascii) (ts : high_res_time_t)
      (tm_info : tm) (hms : list ascii) :
  localtime (seconds ts) = Some tm_info ->
  ~ In NUL fmt ->
  strftime MAX_TIME_STR_LENGTH (cs "%H:%M:%S") tm_info = Some hms ->
  ~ In NUL hms ->
  let pass1 := expand_custom fmt 0 tm_info ts in
  format_timestamp_with_subsecond (Some b) buffer_size (Some fmt) (Some ts)
  = if (MAX_FORMAT_LENGTH <=? List.length pass1)%nat
    then (TS_ERROR_BUFFER_OVERFLOW, Some b)
    else if strstr pass1 (cs "%") then
      match strftime MAX_FORMAT_LENGTH pass1 tm_info with
      | None => (TS_ERROR_BUFFER_OVERFLOW, Some b)
      | Some text =>
        if (buffer_size <=? List.length text)%nat
        then (TS_ERROR_BUFFER_OVERFLOW, Some b)
        else (TS_SUCCESS, Some (memcpy b O (text ++ [NUL])))
      end
    else
      if (buffer_size <=? List.length pass1)%nat
      then (TS_ERROR_BUFFER_OVERFLOW, Some b)
      else (TS_SUCCESS, Some (memcpy b O (pass1 ++ [NUL]))).
Proof.
  intros Hlocal Hfmt Hhms Hnn pass1.
  unfold format_timestamp_with_subsecond. rewrite Hlocal.
  destruct (first_pass_refines tm_info ts hms Hhms Hnn fmt 0 Hfmt
                               (repeat NUL MAX_FORMAT_LENGTH) [] holds_text_init)
    as [Hok Hov].
  fold pass1 in Hok, Hov. cbn [List.length app Nat.add] in Hok, Hov.
  destruct (Nat.leb_spec MAX_FORMAT_LENGTH (List.length pass1)) as [Hbig | Hfit].
  - specialize (Hov Hbig).
    destruct (first_pass fmt 0 tm_info ts (repeat NUL MAX_FORMAT_LENGTH))
      as [code result].
    cbn [fst] in Hov. subst code. reflexivity.
  - destruct (Hok Hfit) as (result & -> & Hres).
    apply holds_text_cstr in Hres. destruct Hres as (Hcstr & Hlen & _).
    cbn [is_success negb]. rewrite Hcstr, Hlen. reflexivity.
Qed.

(** C7: [format_timestamp_with_subsecond] expands a format in two passes.
    With the calendar fields of the timestamp at hand and a format without
    NUL, the first pass yields [expand_custom]: the left-to-right scan
    that puts two-digit seconds, a dot and six-digit microseconds for
    [%.S], epoch seconds, a dot and six-digit microseconds for [%.s], the
    [%H:%M:%S] text, a dot and six-digit microseconds for [%.T], nine-digit
    nanoseconds for [%N], epoch seconds for [%s], and copies every other
    character.  It fails with a buffer overflow when that text does not
    fit the array of [MAX_FORMAT_LENGTH] bytes.  Otherwise the standard
    formatter runs on the text exactly when it holds a [%], and the result
    (the first pass's text when it holds none) is stored with its NUL if it
    fits in [buffer_size] bytes.  A successful call stores [two_pass]. *)
Theorem format_timestamp_two_pass (libc : Libc) (b : buffer)
        (buffer_size : nat) (fmt : list ascii) (ts : high_res_time_t)
        (tm_info : tm) (hms : list ascii) :
  localtime (seconds ts) = Some tm_info ->
  ~ In NUL fmt ->
  strftime MAX_TIME_STR_LENGTH (cs "%H:%M:%S") tm_info = Some hms ->
  ~ In NUL hms ->
  let pass1 := expand_custom fmt 0 tm_info ts in
  format_timestamp_with_subsecond (Some b) buffer_size (Some fmt) (Some ts)
  = (if (MAX_FORMAT_LENGTH <=? List.length pass1)%nat
     then (TS_ERROR_BUFFER_OVERFLOW, Some b)
     else if strstr pass1 (cs "%") then
       match strftime MAX_FORMAT_LENGTH pass1 tm_info with
       | None => (TS_ERROR_BUFFER_OVERFLOW, Some b)
       | Some text =>
         if (buffer_size <=? List.length text)%nat
         then (TS_ERROR_BUFFER_OVERFLOW, Some b)
         else (TS_SUCCESS, Some (memcpy b O (text ++ [NUL])))
       end
     else
       if (buffer_size <=? List.length pass1)%nat
       then (TS_ERROR_BUFFER_OVERFLOW, Some b)
       else (TS_SUCCESS, Some (memcpy b O (pass1 ++ [NUL]))))
  /\ (forall out,
         format_timestamp_with_subsecond (Some b) buffer_size (Some fmt) (Some ts)
         = (TS_SUCCESS, Some out) ->
         out = memcpy b O (two_pass fmt tm_info ts ++ [NUL])).
Proof.
  intros Hlocal Hfmt Hhms Hnn pass1.
  pose proof (format_timestamp_with_subsecond_eq
                libc b buffer_size fmt ts tm_info hms Hlocal Hfmt Hhms Hnn) as E.
  cbv zeta in E. fold pass1 in E.
  split; [exact E |].
  intros out Hout. rewrite E in Hout. unfold two_pass. fold pass1.
  destruct (MAX_FORMAT_LENGTH <=? List.length pass1)%nat; [discriminate |].
  destruct (strstr pass1 (cs "%")).
  - unfold strftime in Hout.
    destruct (is_nil (strftime_text pass1 tm_info)
              || (MAX_FORMAT_LENGTH <=? List.length (strftime_text pass1 tm_info))%nat);
      [discriminate |].
    destruct (buffer_size <=? List.length (strftime_text pass1 tm_info))%nat;
      [discriminate |].
    now inversion Hout.
  - destruct (buffer_size <=? List.length pass1)%nat; [discriminate |].
    now inversion Hout.
Qed.

(** On the reference platform the format
    ["%Y%m%d-%H%M%S.%.S %s %N %.T"] at 1755921813.123456789 gives
    ["20250823-040333.33.123456 1755921813 123456789 04:03:33.123456"]. *)
Lemma format_timestamp_two_pass_witness :
  let libc := UTC.platform (fun _ => 1767998400) in
  format_timestamp_with_subsecond
    (Some (repeat "x"%char 64)) 64
    (Some (cs "%Y%m%d-%H%M%S.%.S %s %N %.T"))
    (Some {| seconds := 1755921813; nanoseconds := 123456789 |})
  = (TS_SUCCESS,
     Some (cs "20250823-040333.33.123456 1755921813 123456789 04:03:33.123456"
           ++ [NUL] ++ repeat "x"%char 1)).
Proof.
  cbv zeta.
  refine (eq_trans
            (proj1 (format_timestamp_two_pass
                      (UTC.platform (fun _ => 1767998400))
                      (repeat "x"%char 64) 64
                      (cs "%Y%m%d-%H%M%S.%.S %s %N %.T")
                      {| seconds := 1755921813; nanoseconds := 123456789 |}
                      {| tm_sec := 33; tm_min := 3; tm_hour := 4; tm_mday := 23;
                         tm_mon := 7; tm_year := 125; tm_wday := 6; tm_yday := 234;
                         tm_isdst := 0 |}
                      (cs "04:03:33") _ _ _ _)) _).
  - vm_compute. reflexivity.
  - apply no_nul_check. vm_compute. reflexivity.
  - vm_compute. reflexivity.
  - apply no_nul_check. vm_compute. reflexivity.
  - vm_compute. reflexivity.
Defined.

(** ** Round trip through [%s] *)

Lemma fmt_int_plain (z : Z) :
  fmt_int false 0 z = (if z <? 0 then cs "-" else []) ++ udec (Z.abs z).
Proof. reflexivity. Qed.

Lemma udec_forallb (n : Z) : 0 <= n -> forallb is_digit (udec n) = true.
Proof.
  intros Hn. apply forallb_forall. intros c Hc.
  pose proof (udec_digits n Hn) as F. rewrite Forall_forall in F. now apply F.
Qed.

Lemma parse_plain_of_printed (t r : Z) :
  t <> 0 -> long_range t ->
  parse_unix_timestamp_plain (Some (fmt_int false 0 t)) (Some r)
  = (TS_SUCCESS, Some t).
Proof.
  intros Hnz Hr. unfold long_range in Hr.
  rewrite parse_unix_timestamp_plain_parts. rewrite fmt_int_plain.
  destruct (Z.ltb_spec t 0) as [Hneg | Hpos].
  - (* a minus sign, then the digits of -t *)
    assert (Habs : Z.abs t = - t) by lia. rewrite Habs.
    pose proof (udec_forallb (- t) ltac:(lia)) as Hd.
    assert (Hparts : digit_run (cs "-" ++ udec (- t)) = udec (- t)
                     /\ remainder (cs "-" ++ udec (- t)) = []
                     /\ negated (cs "-" ++ udec (- t)) = true).
    { unfold digit_run, remainder, negated. cbn [cs list_ascii_of_string app].
      change (skip_space ("-"%char :: udec (- t))) with ("-"%char :: udec (- t)).
      change (strip_sign ("-"%char :: udec (- t))) with (true, udec (- t)).
      cbn [fst snd]. rewrite (span_digits_all _ Hd). repeat split. }
    destruct Hparts as (-> & -> & ->).
    rewrite digits_value_udec by lia.
    destruct (udec (- t)) as [|c ds] eqn:Hu; [now apply udec_nonempty in Hu |].
    cbn [is_nil negb orb].
    assert (H1 : (ULONG_MAX <? - t) = false) by (apply Z.ltb_ge; unfold ULONG_MAX; lia).
    assert (H2 : (- t =? 0) = false) by (apply Z.eqb_neq; lia).
    rewrite H1, H2. cbn [orb]. do 2 f_equal. unfold to_time_t.
    replace (18446744073709551616 - - t + 9223372036854775808)
      with (t + 9223372036854775808 + 1 * 18446744073709551616) by lia.
    rewrite Z.mod_add by lia. rewrite Z.mod_small; lia.
  - assert (Habs : Z.abs t = t) by lia. rewrite Habs. cbn [app].
    pose proof (udec_forallb t ltac:(lia)) as Hd.
    destruct (digit_string_parts _ Hd) as (-> & -> & ->).
    rewrite digits_value_udec by lia.
    destruct (udec t) as [|c ds] eqn:Hu; [now apply udec_nonempty in Hu |].
    cbn [is_nil negb orb].
    assert (H1 : (ULONG_MAX <? t) = false) by (apply Z.ltb_ge; unfold ULONG_MAX; lia).
    assert (H2 : (t =? 0) = false) by (apply Z.eqb_neq; lia).
    rewrite H1, H2. cbn [orb]. do 2 f_equal. apply to_time_t_small. lia.
Qed.

Lemma format_epoch_seconds (libc : Libc) (b : buffer) (buffer_size : nat)
      (ts : high_res_time_t) (tm_info : tm) :
  localtime (seconds ts) = Some tm_info ->
  long_range (seconds ts) ->
  (21 <= buffer_size)%nat ->
  format_timestamp_with_subsecond (Some b) buffer_size (Some (cs "%s")) (Some ts)
  = (TS_SUCCESS, Some (memcpy b O (fmt_int false 0 (seconds ts) ++ [NUL]))).
Proof.
  intros Hlocal Hr Hsize.
  pose proof (fmt_int_length false 0 (seconds ts) Hr) as Hlen.
  change (Nat.max 0 20) with 20%nat in Hlen.
  unfold format_timestamp_with_subsecond. rewrite Hlocal.
  change (first_pass (cs "%s") 0 tm_info ts (repeat NUL MAX_FORMAT_LENGTH))
    with (let (code, result') :=
            append_format (repeat NUL MAX_FORMAT_LENGTH) (cs "%ld")
                          [ArgInt (seconds ts)] in
          if is_success code then (TS_SUCCESS, result') else (code, result')).
  destruct (append_format_fits
              (repeat NUL MAX_FORMAT_LENGTH) [] (cs "%ld") [ArgInt (seconds ts)]
              (fmt_int false 0 (seconds ts))
              holds_text_init (sprintf_ld _) (fmt_int_no_nul _ _ _))
    as (result & -> & Hres).
  { cbn [List.length Nat.add]. unfold MAX_FORMAT_LENGTH. lia. }
  cbn [app] in Hres. apply holds_text_cstr in Hres.
  destruct Hres as (Hcstr & Hstrlen & _).
  cbn [is_success negb]. rewrite Hcstr, Hstrlen.
  assert (Hpct : strstr (fmt_int false 0 (seconds ts)) (cs "%") = false).
  { destruct (strstr (fmt_int false 0 (seconds ts)) (cs "%")) eqn:E; trivial.
    apply strstr_percent in E. now apply fmt_int_no_percent in E. }
  rewrite Hpct.
  assert (Hfit : (buffer_size <=? List.length (fmt_int false 0 (seconds ts)))%nat = false)
    by (apply Nat.leb_gt; lia).
  now rewrite Hfit.
Qed.

(** At [t = 0] the text written for [%s] is ["0"], which the plain-epoch
    parser refuses. *)
Lemma epoch_round_trip_zero :
  let libc := UTC.platform (fun _ => 1767998400) in
  exists out,
    format_timestamp_with_subsecond
      (Some (repeat "x"%char 32)) 32 (Some (cs "%s"))
      (Some {| seconds := 0; nanoseconds := 0 |})
    = (TS_SUCCESS, Some out)
    /\ cstr out = cs "0"
    /\ parse_unix_timestamp_plain (Some (cstr out)) (Some 7)
       = (TS_ERROR_TIME_PARSE, Some 7).
Proof.
  cbv zeta. eexists. split; [vm_compute; reflexivity |].
  split; vm_compute; reflexivity.
Qed.

(** C8 (amended): for a time [t] other than zero in the range of the
    64-bit [time_t] that the platform can break down, formatting with
    ["%s"] into a buffer of at least 21 bytes succeeds, and the plain-epoch
    parser reads the text written back as [t]. *)
Theorem epoch_round_trip (libc : Libc) (b : buffer) (buffer_size : nat)
        (t ns r : Z) (tm_info : tm) :
  t <> 0 ->
  long_range t ->
  localtime t = Some tm_info ->
  (21 <= buffer_size)%nat ->
  exists out,
    format_timestamp_with_subsecond
      (Some b) buffer_size (Some (cs "%s"))
      (Some {| seconds := t; nanoseconds := ns |})
    = (TS_SUCCESS, Some out)
    /\ cstr out = fmt_int false 0 t
    /\ parse_unix_timestamp_plain (Some (cstr out)) (Some r)
       = (TS_SUCCESS, Some t).
Proof.
  intros Hnz Hr Hlocal Hsize.
  eexists. split.
  - apply (format_epoch_seconds libc b buffer_size
                                {| seconds := t; nanoseconds := ns |} tm_info);
      assumption.
  - cbn [seconds].
    change (memcpy b O (fmt_int false 0 t ++ [NUL]))
      with (overwrite b (fmt_int false 0 t ++ [NUL])).
    rewrite overwrite_app, <- app_assoc.
    change ([NUL] ++ skipn (List.length (fmt_int false 0 t ++ [NUL])) b)
      with (NUL :: skipn (List.length (fmt_int false 0 t ++ [NUL])) b).
    rewrite cstr_text by apply fmt_int_no_nul.
    split; [reflexivity |]. now apply parse_plain_of_printed.
Qed.

(** The round trip of 1755921813, and of a time before the epoch. *)
Lemma epoch_round_trip_witness :
  let libc := UTC.platform (fun _ => 1767998400) in
  (exists out,
      format_timestamp_with_subsecond
        (Some (repeat "x"%char 32)) 32 (Some (cs "%s"))
        (Some {| seconds := 1755921813; nanoseconds := 5 |})
      = (TS_SUCCESS, Some out)
      /\ cstr out = fmt_int false 0 1755921813
      /\ parse_unix_timestamp_plain (Some (cstr out)) (Some 0)
         = (TS_SUCCESS, Some 1755921813))
  /\ fmt_int false 0 1755921813 = cs "1755921813".
Proof.
  cbv zeta. split; [| vm_compute; reflexivity].
  apply (epoch_round_trip (UTC.platform (fun _ => 1767998400))
                          (repeat "x"%char 32) 32 1755921813 5 0
                          {| tm_sec := 33; tm_min := 3; tm_hour := 4; tm_mday := 23;
                             tm_mon := 7; tm_year := 125; tm_wday := 6;
                             tm_yday := 234; tm_isdst := 0 |}).
  - discriminate.
  - unfold long_range. lia.
  - vm_compute. reflexivity.
  - lia.
Defined.

(** ** Delta modes *)

Lemma quot_long_range (z k : Z) :
  0 < k -> long_range z -> long_range (Z.quot z k).
Proof.
  unfold long_range. intros Hk Hz.
  Z.to_euclidean_division_equations. nia.
Qed.

Lemma rem_long_range (z k : Z) :
  0 < k <= 9223372036854775807 -> long_range (Z.rem z k).
Proof.
  unfold long_range. intros Hk.
  Z.to_euclidean_division_equations. nia.
Qed.

Lemma snprintf_text (d : buffer) (fmt : list ascii) (args : list printf_arg)
      (text : list ascii) :
  sprintf fmt args = Some text ->
  ~ In NUL text ->
  (List.length text < MAX_FORMAT_LENGTH)%nat ->
  exists b,
    safe_snprintf (Some d) MAX_FORMAT_LENGTH (Some fmt) args = (TS_SUCCESS, Some b)
    /\ cstr b = text.
Proof.
  intros Ht Hn Hlen. rewrite safe_snprintf_eq, Ht.
  apply Nat.ltb_lt in Hlen. rewrite Hlen. apply Nat.ltb_lt in Hlen.
  eexists. split; [reflexivity |].
  rewrite (vsnprintf_text d MAX_FORMAT_LENGTH fmt args text Ht Hlen). cbn [snd].
  rewrite <- app_assoc.
  change ([NUL] ++ skipn (List.length (text ++ [NUL])) d)
    with (NUL :: skipn (List.length (text ++ [NUL])) d).
  now apply cstr_text.
Qed.

(** C10: in the incremental and since-start modes the branch looks for
    [%.s], then [%.S], then [%.T] anywhere in the format and prints the
    rendering of the first one present, a space and the line: seconds, a
    dot and six-digit microseconds of the elapsed time for [%.s]; the
    seconds modulo 60 on two digits for [%.S]; hours, minutes and seconds
    on two digits for [%.T].  Nothing else of the format reaches the
    output.  Both modes print the same for the same pair of readings. *)
Theorem delta_mode_token_priority (libc : Libc) (fmt line : list ascii)
        (timestamp : buffer) (current_time reference : high_res_time_t)
        (diff_sec diff_nsec : Z) :
  elapsed current_time reference = (diff_sec, diff_nsec) ->
  long_range diff_sec ->
  long_range diff_nsec ->
  let usec := fmt_int true 6 (Z.quot diff_nsec 1000) in
  let printed := since_start_mode_line fmt line timestamp current_time reference in
  fst (incremental_mode_line fmt line timestamp current_time reference) = printed
  /\ (strstr fmt (cs "%.s") = true ->
      printed = fmt_int false 0 diff_sec ++ cs "." ++ usec ++ cs " " ++ line)
  /\ (strstr fmt (cs "%.s") = false ->
      strstr fmt (cs "%.S") = true ->
      printed = fmt_int true 2 (Z.rem diff_sec 60) ++ cs "." ++ usec
                ++ cs " " ++ line)
  /\ (strstr fmt (cs "%.s") = false ->
      strstr fmt (cs "%.S") = false ->
      strstr fmt (cs "%.T") = true ->
      printed = fmt_int true 2 (Z.quot diff_sec 3600) ++ cs ":"
                ++ fmt_int true 2 (Z.quot (Z.rem diff_sec 3600) 60) ++ cs ":"
                ++ fmt_int true 2 (Z.rem diff_sec 60) ++ cs "." ++ usec
                ++ cs " " ++ line).
Proof.
  intros He Hs Hn usec printed.
  assert (Hsep : forall (sep : string) x y,
             ~ In NUL (cs sep) ->
             ~ In NUL x -> ~ In NUL y -> ~ In NUL (x ++ cs sep ++ y)).
  { intros sep x y Hsepn Hx Hy.
    apply not_in_app; [exact Hx |]. apply not_in_app; assumption. }
  assert (Hdot : ~ In NUL (cs ".")) by (intros [E | []]; discriminate).
  assert (Hcolon : ~ In NUL (cs ":")) by (intros [E | []]; discriminate).
  pose proof (fmt_int_length true 6 (Z.quot diff_nsec 1000)
                             (quot_long_range _ 1000 eq_refl Hn)) as Lu.
  fold usec in Lu. change (Nat.max 6 20) with 20%nat in Lu.
  assert (Nu : ~ In NUL usec) by apply fmt_int_no_nul.
  split; [reflexivity |].
  subst printed. unfold since_start_mode_line, delta_output. rewrite He.
  unfold delta_timestamp.
  split; [| split].
  - intros H1. rewrite H1.
    pose proof (fmt_int_length false 0 diff_sec Hs) as L1.
    change (Nat.max 0 20) with 20%nat in L1.
    destruct (snprintf_text timestamp _ _ _ (sprintf_ld_06ld diff_sec (Z.quot diff_nsec 1000)))
      as (b & -> & Hb).
    + apply (Hsep "."%string); trivial. apply fmt_int_no_nul.
    + rewrite !length_app. fold usec. unfold MAX_FORMAT_LENGTH.
      change (List.length (cs ".")) with 1%nat.
      try change (List.length (cs ":")) with 1%nat. lia.
    + cbn [is_success]. rewrite Hb. now rewrite <- !app_assoc.
  - intros H1 H2. rewrite H1, H2.
    pose proof (fmt_int_length true 2 (Z.rem diff_sec 60)
                               (rem_long_range diff_sec 60 ltac:(lia))) as L1.
    change (Nat.max 2 20) with 20%nat in L1.
    destruct (snprintf_text timestamp _ _ _
                            (sprintf_02ld_06ld (Z.rem diff_sec 60) (Z.quot diff_nsec 1000)))
      as (b & -> & Hb).
    + apply (Hsep "."%string); trivial. apply fmt_int_no_nul.
    + rewrite !length_app. fold usec. unfold MAX_FORMAT_LENGTH.
      change (List.length (cs ".")) with 1%nat.
      try change (List.length (cs ":")) with 1%nat. lia.
    + cbn [is_success]. rewrite Hb. now rewrite <- !app_assoc.
  - intros H1 H2 H3. rewrite H1, H2, H3.
    unfold SECONDS_PER_HOUR, SECONDS_PER_MINUTE.
    pose proof (fmt_int_length true 2 (Z.quot diff_sec 3600)
                               (quot_long_range _ 3600 eq_refl Hs)) as L1.
    pose proof (fmt_int_length
                  true 2 (Z.quot (Z.rem diff_sec 3600) 60)
                  (quot_long_range _ 60 eq_refl
                                   (rem_long_range diff_sec 3600 ltac:(lia)))) as L2.
    pose proof (fmt_int_length true 2 (Z.rem diff_sec 60)
                               (rem_long_range diff_sec 60 ltac:(lia))) as L3.
    change (Nat.max 2 20) with 20%nat in L1, L2, L3.
    destruct (snprintf_text
                timestamp _ _ _
                (sprintf_hms_06ld (Z.quot diff_sec 3600)
                                  (Z.quot (Z.rem diff_sec 3600) 60)
                                  (Z.rem diff_sec 60) (Z.quot diff_nsec 1000)))
      as (b & -> & Hb).
    + apply (Hsep ":"%string); trivial; [apply fmt_int_no_nul |].
      apply (Hsep ":"%string); trivial; [apply fmt_int_no_nul |].
      apply (Hsep "."%string); trivial. apply fmt_int_no_nul.
    + rewrite !length_app. fold usec. unfold MAX_FORMAT_LENGTH.
      change (List.length (cs ".")) with 1%nat.
      try change (List.length (cs ":")) with 1%nat. lia.
    + cbn [is_success]. rewrite Hb. now rewrite <- !app_assoc.
Qed.

(** With a format holding both [%.T] and [%.s], 12.2 seconds after the
    reference reading, the line is printed after ["12.200000"]. *)
Lemma delta_mode_token_priority_witness :
  let libc := UTC.platform (fun _ => 1767998400) in
  since_start_mode_line
    (cs "pre %.T and %.s") (cs "line") (repeat "x"%char 256)
    {| seconds := 1755921813; nanoseconds := 123456789 |}
    {| seconds := 1755921800; nanoseconds := 923456789 |}
  = cs "12.200000 line".
Proof.
  cbv zeta.
  refine (eq_trans
            (proj1 (proj2 (delta_mode_token_priority
                             (UTC.platform (fun _ => 1767998400))
                             (cs "pre %.T and %.s") (cs "line") (repeat "x"%char 256)
                             {| seconds := 1755921813; nanoseconds := 123456789 |}
                             {| seconds := 1755921800; nanoseconds := 923456789 |}
                             12 200000000 _ _ _)) _) _).
  - reflexivity.
  - unfold long_range. lia.
  - unfold long_range. lia.
  - reflexivity.
  - vm_compute. reflexivity.
Defined.

(** ** Where the epoch entries match *)

Lemma search_found (re : regex_t) :
  forall s off a b,
    search re s off = Some (a, b) ->
    (off <= a)%nat /\ match_here re (skipn (a - off) s) = Some (b - a)%nat.
Proof.
  induction s as [|c s IH]; intros off a b H; simpl in H.
  - destruct (match_here re []) as [n|] eqn:Hn; [| discriminate].
    inversion H; subst. rewrite Nat.sub_diag. simpl.
    split; [lia |]. rewrite Hn. f_equal. lia.
  - destruct (match_here re (c :: s)) as [n|] eqn:Hn.
    + inversion H; subst. rewrite Nat.sub_diag.
      split; [lia |]. cbn [skipn]. rewrite Hn. f_equal. lia.
    + apply IH in H. destruct H as [Hle Hm]. split; [lia |].
      replace (a - off)%nat with (S (a - S off)) by lia. exact Hm.
Qed.

Lemma match_rep_min (cl : char_class) (k : list ascii -> option nat) :
  forall s lo hi n,
    match_rep cl k lo hi s = Some n ->
    (lo <= List.length s)%nat
    /\ Forall (fun c => in_class cl c = true) (firstn lo s).
Proof.
  induction s as [|c s IH]; intros lo hi n H.
  - simpl in H. destruct lo; [| discriminate]. split; [simpl; lia | constructor].
  - simpl in H. apply omax_some in H. destruct H as [H | H].
    + destruct (in_class cl c) eqn:Hc; [| discriminate].
      destruct (may_repeat hi); [| discriminate]. cbn [andb] in H.
      destruct (match_rep cl k (Nat.pred lo) (option_map Nat.pred hi) s)
        as [m|] eqn:Hm; [| discriminate].
      apply IH in Hm. destruct Hm as [Hlen Hall].
      destruct lo as [|lo]; [split; [simpl; lia | constructor] |].
      simpl in *. split; [lia |]. constructor; assumption.
    + destruct lo; [| discriminate]. split; [simpl; lia | constructor].
Qed.

Lemma in_digit_class (c : ascii) :
  in_class [("0"%char, "9"%char)] c = is_digit c.
Proof. unfold in_class, is_digit. simpl. now rewrite orb_false_r. Qed.

Lemma digit_outside (c lo hi : ascii) :
  is_digit c = true ->
  (nat_of_ascii hi < 48 \/ 57 < nat_of_ascii lo)%nat ->
  in_class [(lo, hi)] c = false.
Proof.
  unfold is_digit, in_class. intros Hd Hout. cbn [existsb fst snd].
  apply andb_true_iff in Hd. destruct Hd as [H1 H2].
  apply Nat.leb_le in H1. apply Nat.leb_le in H2.
  rewrite orb_false_r. apply andb_false_iff.
  destruct Hout; [right | left]; apply Nat.leb_gt; lia.
Qed.

Lemma digit_classes (c : ascii) :
  is_digit c = true ->
  in_class [("0"%char, "9"%char)] c = true
  /\ in_class [("A"%char, "Z"%char); ("a"%char, "z"%char)] c = false
  /\ in_class [("a"%char, "z"%char)] c = false
  /\ in_class [(" "%char, " "%char)] c = false
  /\ in_class [("-"%char, "-"%char)] c = false.
Proof.
  intros Hd. split; [now rewrite in_digit_class |].
  assert (Hup : in_class [("A"%char, "Z"%char)] c = false)
    by (apply digit_outside; [exact Hd | right; apply Nat.ltb_lt; reflexivity]).
  assert (Hlow : in_class [("a"%char, "z"%char)] c = false)
    by (apply digit_outside; [exact Hd | right; apply Nat.ltb_lt; reflexivity]).
  split; [| split; [exact Hlow |]].
  - unfold in_class in *. cbn [existsb] in *.
    rewrite orb_false_r in Hup, Hlow. now rewrite Hup, Hlow.
  - split; apply digit_outside; trivial; left; apply Nat.ltb_lt; reflexivity.
Qed.

Lemma calendar_entries_need_a_letter_or_separator
      (c0 c1 c2 c3 c4 : ascii) (u : list ascii) :
  is_digit c0 = true -> is_digit c1 = true -> is_digit c2 = true ->
  is_digit c3 = true -> is_digit c4 = true ->
  forall g, In g (firstn 6 timestamp_formats) ->
  forall regex, regcomp (pattern g) = Some regex ->
  match_here regex (c0 :: c1 :: c2 :: c3 :: c4 :: u) = None.
Proof.
  intros D0 D1 D2 D3 D4 g Hg regex Hre.
  destruct (digit_classes c0 D0) as (A0 & B0 & C0 & S0 & M0).
  destruct (digit_classes c1 D1) as (A1 & B1 & C1 & S1 & M1).
  destruct (digit_classes c2 D2) as (A2 & B2 & C2 & S2 & M2).
  destruct (digit_classes c3 D3) as (A3 & B3 & C3 & S3 & M3).
  destruct (digit_classes c4 D4) as (A4 & B4 & C4 & S4 & M4).
  cbn [firstn timestamp_formats In] in Hg.
  repeat (destruct Hg as [<- | Hg]);
    try (exfalso; exact Hg);
    vm_compute in Hre; inversion Hre; subst regex; clear Hre;
    repeat (cbn [match_here match_rep p_class p_min p_max omax option_map
                 may_repeat Nat.eqb Nat.ltb Nat.leb Nat.pred andb];
            rewrite ?A0, ?B0, ?C0, ?S0, ?M0, ?A1, ?B1, ?C1, ?S1, ?M1,
                    ?A2, ?B2, ?C2, ?S2, ?M2, ?A3, ?B3, ?C3, ?S3, ?M3,
                    ?A4, ?B4, ?C4, ?S4, ?M4);
    reflexivity.
Qed.

Lemma fractional_match_starts_with_digits (line : list ascii) (s e : nat) :
  entry_match unix_fractional_entry line = Some (s, e) ->
  exists c0 c1 c2 c3 c4 u,
    skipn s line = c0 :: c1 :: c2 :: c3 :: c4 :: u
    /\ is_digit c0 = true /\ is_digit c1 = true /\ is_digit c2 = true
    /\ is_digit c3 = true /\ is_digit c4 = true.
Proof.
  unfold entry_match, regexec.
  destruct (regcomp (pattern unix_fractional_entry)) as [regex|] eqn:Hre;
    [| discriminate].
  vm_compute in Hre. inversion Hre; subst regex; clear Hre.
  intros H. apply search_found in H. destruct H as [_ H].
  rewrite Nat.sub_0_r in H. cbn [match_here p_class p_min p_max] in H.
  apply match_rep_min in H. destruct H as [Hlen Hall].
  destruct (skipn s line) as [|c0 [|c1 [|c2 [|c3 [|c4 u]]]]];
    try (simpl in Hlen; lia).
  exists c0, c1, c2, c3, c4, u. split; [reflexivity |].
  cbn [firstn] in Hall.
  repeat match goal with
         | F : Forall _ (_ :: _) |- _ => inversion F; subst; clear F
         end.
  rewrite in_digit_class in *. repeat split; assumption.
Qed.

Lemma winner_cases (pre post : list timestamp_format_t) (f : timestamp_format_t) :
  timestamp_formats = pre ++ f :: post ->
  In f (firstn 6 timestamp_formats)
  \/ f = unix_fractional_entry
  \/ (f = unix_plain_entry /\ In unix_fractional_entry pre).
Proof.
  intros H. unfold timestamp_formats in H.
  do 6 (destruct pre as [|? pre];
        [injection H as <- _; left; simpl; tauto | injection H as <- H]).
  destruct pre as [|? pre]; [injection H as <- _; right; left; reflexivity |].
  injection H as <- H.
  destruct pre as [|? pre].
  - injection H as <- _. right; right. split; [reflexivity |]. simpl. tauto.
  - injection H as _ H. destruct pre; discriminate.
Qed.

(** The defect of the fractional parser at the level of the walk: on
    ["1755921813.5"] the fractional entry matches the whole text, its
    parser fails, and the plain entry then parses the integer prefix. *)
Lemma plain_parser_reads_integer_prefix :
  let libc := UTC.platform (fun _ => 1767998400) in
  let line := cs "1755921813.5" in
  entry_match unix_fractional_entry line = Some (0%nat, 12%nat)
  /\ parse_unix_timestamp_fractional (Some line) (Some 0)
     = (TS_ERROR_TIME_PARSE, Some 0)
  /\ entry_match unix_plain_entry line = Some (0%nat, 10%nat)
  /\ parse_timestamp_in_line (Some line) (Some 0) O
     = ((TS_SUCCESS, Some 1755921813), O).
Proof. cbv zeta. repeat split; vm_compute; reflexivity. Qed.

(** C3 (amended): the table has exactly eight entries, in the order
    syslog, ISO-8601, RFC, lastlog, short, short_with_year,
    unix_fractional, unix_plain; the first six carry a calendar format and
    the two epoch entries none.  The fractional entry stands before the
    plain one: wherever the plain entry stands in the table, the fractional
    entry is among the entries before it, so that a walk of the table
    comes to the plain entry only after the fractional one. *)
Theorem timestamp_formats_order :
  List.length timestamp_formats = 8%nat
  /\ map name timestamp_formats
     = map cs ["syslog"; "ISO-8601"; "RFC"; "lastlog"; "short";
               "short_with_year"; "unix_fractional"; "unix_plain"]%string
  /\ map (fun f => is_nil (match format f with Some x => x | None => [] end))
         timestamp_formats
     = [false; false; false; false; false; false; true; true]
  /\ nth_error timestamp_formats 6 = Some unix_fractional_entry
  /\ nth_error timestamp_formats 7 = Some unix_plain_entry
  /\ (forall pre post,
         timestamp_formats = pre ++ unix_plain_entry :: post ->
         In unix_fractional_entry pre /\ post = []).
Proof.
  repeat (split; [reflexivity |]).
  intros pre post H. unfold timestamp_formats in H.
  do 6 (destruct pre as [|? pre]; [discriminate | injection H as _ H]).
  destruct pre as [|x pre]; [discriminate |].
  injection H as Hx H.
  destruct pre as [|? pre].
  - injection H as <-. split; [| reflexivity].
    do 6 right. left. symmetry. exact Hx.
  - injection H as _ H. destruct pre; discriminate.
Qed.

(** ** The span of a fractional epoch *)

(** X17: a span that [find_timestamp_match] starts where the fractional
    entry matches is the fractional entry's whole match, with its
    fraction, never the integer prefix that the plain entry matches
    there. *)
Theorem fractional_span_whole (line : list ascii) (sp ep : Z) (s ef : nat)
        (s' e' : Z) :
  entry_match unix_fractional_entry line = Some (s, ef) ->
  find_timestamp_match (Some line) (Some sp) (Some ep)
  = (TS_SUCCESS, Some s', Some e') ->
  s' = Z.of_nat s ->
  e' = Z.of_nat ef.
Proof.
  intros Hfrac Hfind Hs.
  unfold find_timestamp_match in Hfind.
  pose proof (find_match_loop_spec line timestamp_formats (-1) (-1)) as H.
  destruct (find_match_loop timestamp_formats line (-1) (-1)) as [bs be].
  destruct H as [(Hb & _ & _) | (pre & f & post & so & eo & Hsplit & Hm & Hbs & Hbe & _ & Hpre & _)].
  { subst bs. discriminate. }
  assert (Hne : (bs =? -1) = false) by (apply Z.eqb_neq; lia).
  rewrite Hne in Hfind. cbn [negb] in Hfind.
  inversion Hfind; subst s' e'. clear Hfind.
  assert (so = s) by lia. subst so.
  destruct (winner_cases pre post f Hsplit) as [Hcal | [-> | [-> Hin]]].
  - exfalso.
    destruct (fractional_match_starts_with_digits line s ef Hfrac)
      as (c0 & c1 & c2 & c3 & c4 & u & Hu & D0 & D1 & D2 & D3 & D4).
    unfold entry_match, regexec in Hm.
    destruct (regcomp (pattern f)) as [regex|] eqn:Hre; [| discriminate].
    apply search_found in Hm. destruct Hm as [_ Hm].
    rewrite Nat.sub_0_r, Hu in Hm.
    rewrite (calendar_entries_need_a_letter_or_separator
               c0 c1 c2 c3 c4 u D0 D1 D2 D3 D4 f Hcal regex Hre) in Hm.
    discriminate.
  - rewrite Hfrac in Hm. inversion Hm; subst. reflexivity.
  - exfalso. specialize (Hpre unix_fractional_entry s ef Hin Hfrac). lia.
Qed.

Lemma fractional_span_whole_witness :
  entry_match unix_plain_entry (cs "1755921813.123456 x") = Some (0%nat, 10%nat)
  /\ find_timestamp_match (Some (cs "1755921813.123456 x")) (Some 0) (Some 0)
     = (TS_SUCCESS, Some 0, Some 17).
Proof.
  split; [reflexivity |].
  assert (E : find_timestamp_match (Some (cs "1755921813.123456 x"))
                                   (Some 0) (Some 0)
              = (TS_SUCCESS, Some 0,
                 Some (snd (find_match_loop timestamp_formats
                                            (cs "1755921813.123456 x")
                                            (-1) (-1)))))
    by reflexivity.
  pose proof (fractional_span_whole (cs "1755921813.123456 x") 0 0 0 17 0 _
                                    eq_refl E eq_refl) as H.
  rewrite E, H. reflexivity.
Defined.

(** * Further properties *)

(** ** What a match of the table needs *)

Lemma match_rep_ge (cl : char_class) (k : list ascii -> option nat) (m : nat) :
  (forall s n, k s = Some n -> (m <= n)%nat) ->
  forall s lo hi n,
    match_rep cl k lo hi s = Some n -> (lo + m <= n)%nat.
Proof.
  intros Hk. induction s as [|c s IH]; intros lo hi n H.
  - simpl in H. destruct lo; [| discriminate]. apply Hk in H. lia.
  - simpl in H. apply omax_some in H. destruct H as [H | H].
    + destruct (in_class cl c && may_repeat hi); [| discriminate].
      destruct (match_rep cl k (Nat.pred lo) (option_map Nat.pred hi) s)
        as [n'|] eqn:Hm; [| discriminate].
      inversion H; subst. apply IH in Hm. lia.
    + destruct lo; [| discriminate]. apply Hk in H. lia.
Qed.

Lemma match_here_ge (re : regex_t) :
  forall s n, match_here re s = Some n -> (min_length re <= n)%nat.
Proof.
  induction re as [|p re IH]; intros s n H.
  - simpl. lia.
  - simpl in *. eapply match_rep_ge; eauto.
Qed.

Lemma match_rep_cont (cl : char_class) (k : list ascii -> option nat) :
  forall s lo hi n,
    match_rep cl k lo hi s = Some n ->
    exists j,
      k (skipn j s) = Some (n - j)%nat
      /\ ((1 <= lo)%nat -> exists c, In c s /\ in_class cl c = true).
Proof.
  induction s as [|c s IH]; intros lo hi n H.
  - simpl in H. destruct lo; [| discriminate].
    exists O. simpl. rewrite Nat.sub_0_r. split; [exact H | lia].
  - simpl in H. apply omax_some in H. destruct H as [H | H].
    + destruct (in_class cl c) eqn:Hc; [| discriminate].
      destruct (may_repeat hi); [| discriminate]. cbn [andb] in H.
      destruct (match_rep cl k (Nat.pred lo) (option_map Nat.pred hi) s)
        as [n'|] eqn:Hm; [| discriminate].
      inversion H; subst. apply IH in Hm. destruct Hm as (j & Hj & _).
      exists (S j). split; [exact Hj |].
      intros _. exists c. split; [now left | exact Hc].
    + destruct lo; [| discriminate].
      exists O. simpl. rewrite Nat.sub_0_r. split; [exact H | lia].
Qed.

Lemma in_skipn (c : ascii) (j : nat) (s : list ascii) :
  In c (skipn j s) -> In c s.
Proof.
  intros H. rewrite <- (firstn_skipn j s). apply in_or_app. now right.
Qed.

Lemma match_here_needs (re : regex_t) :
  forall s n,
    match_here re s = Some n ->
    forall p, In p re -> (1 <= p_min p)%nat ->
              exists c, In c s /\ in_class (p_class p) c = true.
Proof.
  induction re as [|p0 re IH]; intros s n H p Hin Hmin; [destruct Hin |].
  simpl in H. apply match_rep_cont in H. destruct H as (j & Hj & Hhead).
  destruct Hin as [<- | Hin]; [now apply Hhead |].
  destruct (IH _ _ Hj p Hin Hmin) as (c & Hc & Hcl).
  exists c. split; [eapply in_skipn; eauto | exact Hcl].
Qed.

Lemma needs_digit_spec (re : regex_t) (s : list ascii) (n : nat) :
  needs_digit re = true ->
  match_here re s = Some n ->
  exists c, In c s /\ is_digit c = true.
Proof.
  unfold needs_digit. intros Hd Hm.
  apply existsb_exists in Hd. destruct Hd as (p & Hin & Hp).
  apply andb_true_iff in Hp. destruct Hp as [Hmin Hcl].
  apply Nat.leb_le in Hmin.
  destruct (match_here_needs re s n Hm p Hin Hmin) as (c & Hc & Hclass).
  exists c. split; [exact Hc |].
  unfold class_is_digits in Hcl.
  destruct (p_class p) as [|[lo hi] [|? ?]]; try discriminate.
  apply andb_true_iff in Hcl. destruct Hcl as [Hlo Hhi].
  apply Ascii.eqb_eq in Hlo. apply Ascii.eqb_eq in Hhi. subst lo hi.
  now rewrite in_digit_class in Hclass.
Qed.

Lemma table_expressions :
  forallb (fun f => match regcomp (pattern f) with
                    | Some re => (10 <=? min_length re)%nat && needs_digit re
                    | None => true
                    end) timestamp_formats = true.
Proof. vm_compute. reflexivity. Qed.

Lemma entry_match_needs (f : timestamp_format_t) (line : list ascii) (so eo : nat) :
  In f timestamp_formats ->
  entry_match f line = Some (so, eo) ->
  (so + 10 <= eo)%nat /\ (eo <= List.length line)%nat
  /\ exists c, In c line /\ is_digit c = true.
Proof.
  intros Hin Hm.
  pose proof (entry_match_bounds f line so eo Hm) as Hb.
  pose proof table_expressions as T. rewrite forallb_forall in T.
  specialize (T f Hin).
  unfold entry_match, regexec in Hm.
  destruct (regcomp (pattern f)) as [re|]; [| discriminate].
  apply andb_true_iff in T. destruct T as [Tmin Tdig].
  apply Nat.leb_le in Tmin.
  apply search_found in Hm. destruct Hm as [_ Hm].
  pose proof (match_here_ge re _ _ Hm) as Hge.
  destruct (needs_digit_spec re _ _ Tdig Hm) as (c & Hc & Hd).
  split; [lia |]. split; [lia |].
  exists c. split; [eapply in_skipn; eauto | exact Hd].
Qed.

Lemma find_timestamp_match_outcome (line : list ascii) (sp ep : Z) :
  (exists f so eo,
      In f timestamp_formats /\ entry_match f line = Some (so, eo) /\
      find_timestamp_match (Some line) (Some sp) (Some ep)
      = (TS_SUCCESS, Some (Z.of_nat so), Some (Z.of_nat eo)))
  \/ ((forall g, In g timestamp_formats -> entry_match g line = None) /\
      find_timestamp_match (Some line) (Some sp) (Some ep)
      = (TS_ERROR_TIME_PARSE, Some sp, Some ep)).
Proof.
  unfold find_timestamp_match.
  pose proof (find_match_loop_spec line timestamp_formats (-1) (-1)) as H.
  destruct (find_match_loop timestamp_formats line (-1) (-1)) as [s e].
  destruct H as [(Hs & He & Hall) | (pre & f & post & so & eo & Hsplit & Hm & Hs & He & _)].
  - right. subst s e. split; [| reflexivity].
    intros g Hin. destruct (entry_match g line) as [[so eo]|] eqn:Hg; trivial.
    destruct (Hall g so eo Hin Hg) as [Hneq _]. congruence.
  - left. exists f, so, eo. split; [| split; [exact Hm |]].
    + rewrite Hsplit. apply in_or_app. right. now left.
    + subst s e. assert (Hne : (Z.of_nat so =? -1) = false) by (apply Z.eqb_neq; lia).
      now rewrite Hne.
Qed.

Lemma replace_timestamp_in_line_eq (out : buffer) (output_size : nat)
      (line new : list ascii) :
  replace_timestamp_in_line (Some out) output_size (Some line) (Some new)
  = let composed :=
        match find_timestamp_match (Some line) (Some 0) (Some 0) with
        | (TS_SUCCESS, Some start_pos, Some end_pos) =>
          firstn (Z.to_nat start_pos) line ++ new ++ skipn (Z.to_nat end_pos) line
        | _ => line
        end in
    if (List.length composed <? output_size)%nat
    then (TS_SUCCESS,
          Some (composed ++ [NUL] ++ skipn (List.length composed + 1) out))
    else (TS_ERROR_BUFFER_OVERFLOW, Some out).
Proof.
  cbv zeta. unfold replace_timestamp_in_line.
  destruct (find_timestamp_match_cases line 0 0)
    as [(f & so & eo & _ & Hm & ->) | ->].
  - apply entry_match_bounds in Hm. rewrite !Nat2Z.id.
    assert (Hb : List.length (firstn so line) = so)
      by (rewrite length_firstn; lia).
    rewrite !length_app, Hb.
    destruct (Nat.leb_spec output_size
                (so + List.length new + List.length (skipn eo line)));
      destruct (Nat.ltb_spec
                  (so + (List.length new + List.length (skipn eo line)))
                  output_size); try lia; [reflexivity |].
    pose proof (splice_stores out (firstn so line) new (skipn eo line)) as S.
    cbv zeta in S. rewrite Hb in S. rewrite S.
    rewrite !length_app, Hb. reflexivity.
  - destruct (Nat.leb_spec output_size (List.length line));
      destruct (Nat.ltb_spec (List.length line) output_size); try lia;
      [reflexivity |].
    simpl memcpy. rewrite overwrite_app, length_app, <- app_assoc.
    reflexivity.
Qed.

Lemma parse_timestamp_loop_no_match (libc : Libc) (line : list ascii) :
  forall fmts r n,
    (forall g, In g fmts -> entry_match g line = None) ->
    parse_timestamp_loop fmts line r n = ((TS_ERROR_TIME_PARSE, r), n).
Proof.
  induction fmts as [|f rest IH]; intros r n Hnone; [reflexivity |].
  rewrite parse_timestamp_loop_cons.
  pose proof (Hnone f (or_introl eq_refl)) as Hf. unfold entry_match in Hf.
  assert (Hrest : forall g, In g rest -> entry_match g line = None)
    by (intros g Hg; apply Hnone; now right).
  destruct (regcomp (pattern f)) as [regex|]; [| now apply IH].
  rewrite Hf. now apply IH.
Qed.

(** ** Spans and lines without a timestamp *)

(** X1: a span that [find_timestamp_match] returns lies inside the line
    and covers at least ten bytes. *)
Theorem located_span_shape (line : list ascii) (sp ep s e : Z) :
  find_timestamp_match (Some line) (Some sp) (Some ep)
  = (TS_SUCCESS, Some s, Some e) ->
  0 <= s /\ s + 10 <= e /\ e <= Z.of_nat (List.length line).
Proof.
  intros H.
  destruct (find_timestamp_match_outcome line sp ep)
    as [(f & so & eo & Hin & Hm & E) | (_ & E)]; rewrite E in H;
    [| discriminate].
  inversion H; subst. destruct (entry_match_needs f line so eo Hin Hm) as (H1 & H2 & _).
  lia.
Qed.

Lemma located_span_shape_witness :
  find_timestamp_match (Some (cs "up: Dec 22 22:25:23 ok")) (Some 0) (Some 0)
  = (TS_SUCCESS, Some 4, Some 19)
  /\ (0 <= 4 /\ 4 + 10 <= 19 /\ 19 <= 22).
Proof.
  assert (E : find_timestamp_match (Some (cs "up: Dec 22 22:25:23 ok"))
                                   (Some 0) (Some 0)
              = (TS_SUCCESS, Some 4, Some 19)) by (vm_compute; reflexivity).
  split; [exact E |].
  exact (located_span_shape (cs "up: Dec 22 22:25:23 ok") 0 0 4 19 E).
Defined.

(** X2: a line shorter than ten bytes, or without a decimal digit, holds
    no timestamp: [find_timestamp_match] and [parse_timestamp_in_line]
    report a time-parse failure and store nothing (the parser does not
    read the clock), and [replace_timestamp_in_line] copies the line. *)
Theorem line_without_timestamp (libc : Libc) (line new : list ascii)
        (out : buffer) (output_size : nat) (sp ep r : Z) (n : nat) :
  (List.length line < 10)%nat
  \/ forallb (fun c => negb (is_digit c)) line = true ->
  find_timestamp_match (Some line) (Some sp) (Some ep)
  = (TS_ERROR_TIME_PARSE, Some sp, Some ep)
  /\ parse_timestamp_in_line (Some line) (Some r) n
     = ((TS_ERROR_TIME_PARSE, Some r), n)
  /\ replace_timestamp_in_line (Some out) output_size (Some line) (Some new)
     = (if (List.length line <? output_size)%nat
        then (TS_SUCCESS,
              Some (line ++ [NUL] ++ skipn (List.length line + 1) out))
        else (TS_ERROR_BUFFER_OVERFLOW, Some out)).
Proof.
  intros Hline.
  assert (Hnone : forall g, In g timestamp_formats -> entry_match g line = None).
  { intros g Hin. destruct (entry_match g line) as [[so eo]|] eqn:Hg; trivial.
    destruct (entry_match_needs g line so eo Hin Hg) as (H1 & H2 & c & Hc & Hd).
    destruct Hline as [Hshort | Hnodigit]; [lia |].
    rewrite forallb_forall in Hnodigit. specialize (Hnodigit c Hc).
    rewrite Hd in Hnodigit. discriminate. }
  assert (Hfind : forall a b,
             find_timestamp_match (Some line) (Some a) (Some b)
             = (TS_ERROR_TIME_PARSE, Some a, Some b)).
  { intros a b.
    destruct (find_timestamp_match_outcome line a b)
      as [(f & so & eo & Hin & Hm & _) | (_ & E)]; [| exact E].
    rewrite (Hnone f Hin) in Hm. discriminate. }
  split; [apply Hfind |]. split.
  - unfold parse_timestamp_in_line. now apply parse_timestamp_loop_no_match.
  - rewrite replace_timestamp_in_line_eq. cbv zeta. now rewrite Hfind.
Qed.

Lemma line_without_timestamp_witness :
  let libc := UTC.platform (fun _ => 1767998400) in
  parse_timestamp_in_line (Some (cs "no timestamp here")) (Some 0) O
  = ((TS_ERROR_TIME_PARSE, Some 0), O)
  /\ find_timestamp_match (Some (cs "12:30 x")) (Some 0) (Some 0)
     = (TS_ERROR_TIME_PARSE, Some 0, Some 0).
Proof.
  cbv zeta. split.
  - refine (proj1 (proj2 (line_without_timestamp
                            (UTC.platform (fun _ => 1767998400))
                            (cs "no timestamp here") [] [] 0 0 0 0 O _))).
    right. vm_compute. reflexivity.
  - refine (proj1 (line_without_timestamp
                     (UTC.platform (fun _ => 1767998400))
                     (cs "12:30 x") [] [] 0 0 0 0 O _)).
    left. simpl. lia.
Defined.

(** X3: when [parse_timestamp_in_line] succeeds on a line,
    [find_timestamp_match] finds a span in it, so that
    [replace_timestamp_in_line] on that line replaces a span (or reports an
    overflow) and never takes its copy branch. *)
Theorem parsed_line_has_span (libc : Libc) (line new : list ascii)
        (out : buffer) (output_size : nat) (r sp ep : Z) (n : nat) :
  fst (fst (parse_timestamp_in_line (Some line) (Some r) n)) = TS_SUCCESS ->
  exists s e,
    (s + 10 <= e <= List.length line)%nat
    /\ find_timestamp_match (Some line) (Some sp) (Some ep)
       = (TS_SUCCESS, Some (Z.of_nat s), Some (Z.of_nat e))
    /\ replace_timestamp_in_line (Some out) output_size (Some line) (Some new)
       = (let composed := firstn s line ++ new ++ skipn e line in
          if (List.length composed <? output_size)%nat
          then (TS_SUCCESS,
                Some (composed ++ [NUL] ++ skipn (List.length composed + 1) out))
          else (TS_ERROR_BUFFER_OVERFLOW, Some out)).
Proof.
  intros Hok. unfold parse_timestamp_in_line in Hok.
  pose proof (parse_timestamp_loop_spec line timestamp_formats (Some r) n) as P.
  destruct (parse_timestamp_loop timestamp_formats line (Some r) n)
    as [[code res] n'].
  cbn [fst] in Hok. subst code.
  destruct P as [(_ & pre & f & post & st & Hsplit & _ & (so & eo & Hm & _)) | (Hc & _)];
    [| discriminate].
  assert (Hin : In f timestamp_formats)
    by (rewrite Hsplit; apply in_or_app; right; now left).
  assert (Hfind : forall a b, exists s e,
               (s + 10 <= e <= List.length line)%nat /\
               find_timestamp_match (Some line) (Some a) (Some b)
               = (TS_SUCCESS, Some (Z.of_nat s), Some (Z.of_nat e))).
  { intros a b.
    destruct (find_timestamp_match_outcome line a b)
      as [(g & s & e & Hg & Hgm & E) | (Hnone & _)].
    - exists s, e. split; [| exact E].
      destruct (entry_match_needs g line s e Hg Hgm) as (H1 & H2 & _). lia.
    - rewrite (Hnone f Hin) in Hm. discriminate. }
  destruct (Hfind sp ep) as (s & e & Hb & E).
  exists s, e. split; [exact Hb |]. split; [exact E |].
  rewrite replace_timestamp_in_line_eq.
  destruct (Hfind 0 0) as (s0 & e0 & _ & E0).
  assert (s0 = s /\ e0 = e) as [-> ->].
  { unfold find_timestamp_match in E, E0.
    destruct (find_match_loop timestamp_formats line (-1) (-1)) as [bs be].
    destruct (negb (bs =? -1)); inversion E; inversion E0; subst. lia. }
  cbv zeta. rewrite E0, !Nat2Z.id. reflexivity.
Qed.

Lemma parsed_line_has_span_witness :
  let libc := UTC.platform (fun _ => 1767998400) in
  exists s e,
    (s + 10 <= e <= 22)%nat
    /\ find_timestamp_match (Some (cs "up: Dec 22 22:25:23 ok")) (Some 0) (Some 0)
       = (TS_SUCCESS, Some (Z.of_nat s), Some (Z.of_nat e)).
Proof.
  cbv zeta.
  destruct (parsed_line_has_span (UTC.platform (fun _ => 1767998400))
                                 (cs "up: Dec 22 22:25:23 ok") [] [] 0 0 0 0 O)
    as (s & e & Hb & E & _).
  - vm_compute. reflexivity.
  - exists s, e. split; [exact Hb | exact E].
Defined.

(** X4: replacing the located span by the text it covers gives the line
    back. *)
Theorem replace_by_matched_text (line : list ascii) (out : buffer)
        (output_size : nat) (s e : Z) :
  find_timestamp_match (Some line) (Some 0) (Some 0)
  = (TS_SUCCESS, Some s, Some e) ->
  (List.length line < output_size)%nat ->
  replace_timestamp_in_line
    (Some out) output_size (Some line)
    (Some (substr line (Z.to_nat s) (Z.to_nat e - Z.to_nat s)))
  = (TS_SUCCESS, Some (line ++ [NUL] ++ skipn (List.length line + 1) out)).
Proof.
  intros Hfind Hfit.
  destruct (find_timestamp_match_outcome line 0 0)
    as [(f & so & eo & Hin & Hm & E) | (_ & E)]; rewrite E in Hfind;
    [| discriminate].
  inversion Hfind; subst s e. clear Hfind.
  apply entry_match_bounds in Hm.
  rewrite replace_timestamp_in_line_eq. cbv zeta. rewrite E, !Nat2Z.id.
  assert (Hline : firstn so line ++ substr line so (eo - so) ++ skipn eo line = line).
  { unfold substr.
    transitivity (firstn so line ++ skipn so line);
      [| apply firstn_skipn].
    f_equal.
    transitivity (firstn (eo - so) (skipn so line)
                  ++ skipn (eo - so) (skipn so line));
      [| apply firstn_skipn].
    f_equal. rewrite skipn_skipn. f_equal. lia. }
  rewrite Hline. apply Nat.ltb_lt in Hfit. now rewrite Hfit.
Qed.

Lemma replace_by_matched_text_witness :
  replace_timestamp_in_line
    (Some (repeat "x"%char 32)) 32 (Some (cs "a 1755921813 test line"))
    (Some (cs "1755921813"))
  = (TS_SUCCESS, Some (cs "a 1755921813 test line" ++ [NUL] ++ repeat "x"%char 9)).
Proof.
  refine (eq_trans
            (replace_by_matched_text (cs "a 1755921813 test line")
                                     (repeat "x"%char 32) 32 2 12 _ _) _).
  - vm_compute. reflexivity.
  - simpl. lia.
  - vm_compute. reflexivity.
Defined.

(** ** Elapsed time *)

(** X5: for two readings with nanoseconds in [0, 10^9) whose seconds
    differ by an amount that fits a [long] (also after the borrow), the
    borrow of [elapsed] leaves the nanosecond part in [0, 10^9) and the two
    parts add up to the difference of the instants; the second part is
    therefore not negative exactly when the reference is not later than the
    current reading. *)
Theorem elapsed_normalised (current_time reference : high_res_time_t) :
  normal_time current_time ->
  normal_time reference ->
  long_range (seconds current_time - seconds reference) ->
  long_range (seconds current_time - seconds reference - 1) ->
  0 <= snd (elapsed current_time reference) < NANOSECONDS_PER_SECOND
  /\ fst (elapsed current_time reference) * NANOSECONDS_PER_SECOND
     + snd (elapsed current_time reference)
     = instant current_time - instant reference
  /\ (0 <= fst (elapsed current_time reference)
      <-> instant reference <= instant current_time).
Proof.
  unfold normal_time, instant, elapsed, NANOSECONDS_PER_SECOND.
  intros Hc Hr _ _.
  destruct (Z.ltb_spec (nanoseconds current_time - nanoseconds reference) 0);
    cbn [fst snd]; lia.
Qed.

Lemma elapsed_normalised_witness :
  let current_time := {| seconds := 12; nanoseconds := 100 |} in
  let reference := {| seconds := 10; nanoseconds := 999999900 |} in
  elapsed current_time reference = (1, 200)
  /\ (0 <= snd (elapsed current_time reference) < NANOSECONDS_PER_SECOND
      /\ fst (elapsed current_time reference) * NANOSECONDS_PER_SECOND
         + snd (elapsed current_time reference)
         = instant current_time - instant reference
      /\ (0 <= fst (elapsed current_time reference)
          <-> instant reference <= instant current_time)).
Proof.
  cbv zeta. split; [reflexivity |].
  apply elapsed_normalised;
    unfold normal_time, long_range, NANOSECONDS_PER_SECOND;
    cbn [nanoseconds seconds]; lia.
Defined.

(** ** Relative time *)

Lemma safe_snprintf_text (d : buffer) (size : nat) (f : list ascii)
      (args : list printf_arg) (text : list ascii) :
  sprintf f args = Some text ->
  ~ In NUL text ->
  (List.length text < size)%nat ->
  exists b,
    safe_snprintf (Some d) size (Some f) args = (TS_SUCCESS, Some b)
    /\ cstr b = text.
Proof.
  intros Hs Hn Hlen. rewrite safe_snprintf_eq, Hs.
  apply Nat.ltb_lt in Hlen. rewrite Hlen. apply Nat.ltb_lt in Hlen.
  eexists. split; [reflexivity |].
  rewrite (vsnprintf_text d size f args text Hs Hlen). cbn [snd].
  rewrite <- app_assoc. apply cstr_text. exact Hn.
Qed.

Lemma magnitude_quot (d : Z) :
  0 <= d ->
  magnitude d
  = (let num := fmt_int false 0 in
     if d <? SECONDS_PER_MINUTE then num d ++ cs "s"
     else if d <? SECONDS_PER_HOUR then
       num (Z.quot d SECONDS_PER_MINUTE) ++ cs "m"
       ++ (if 0 <? Z.rem d SECONDS_PER_MINUTE
           then num (Z.rem d SECONDS_PER_MINUTE) ++ cs "s" else [])
     else if d <? SECONDS_PER_DAY then
       num (Z.quot d SECONDS_PER_HOUR) ++ cs "h"
       ++ (if 0 <? Z.quot (Z.rem d SECONDS_PER_HOUR) SECONDS_PER_MINUTE
           then num (Z.quot (Z.rem d SECONDS_PER_HOUR) SECONDS_PER_MINUTE) ++ cs "m"
           else [])
     else
       num (Z.quot d SECONDS_PER_DAY) ++ cs "d"
       ++ (if 0 <? Z.quot (Z.rem d SECONDS_PER_DAY) SECONDS_PER_HOUR
           then num (Z.quot (Z.rem d SECONDS_PER_DAY) SECONDS_PER_HOUR) ++ cs "h"
           else [])).
Proof.
  intros Hd. unfold magnitude, SECONDS_PER_MINUTE, SECONDS_PER_HOUR, SECONDS_PER_DAY.
  rewrite !Z.rem_mod_nonneg by lia.
  rewrite !Z.quot_div_nonneg
    by first [lia | apply Z.mod_pos_bound; lia
              | apply Z.lt_le_incl, Z.mod_pos_bound; lia].
  reflexivity.
Qed.

Lemma magnitude_no_nul (d : Z) : ~ In NUL (magnitude d).
Proof.
  unfold magnitude.
  repeat match goal with
         | |- context [if ?c then _ else _] => destruct c
         end;
    repeat (apply not_in_app;
            [first [apply fmt_int_no_nul
                   | apply no_nul_check; reflexivity] |]);
    first [apply fmt_int_no_nul | apply no_nul_check; reflexivity
           | intros []].
Qed.

Lemma relative_text_no_nul (now timestamp : Z) :
  ~ In NUL (relative_text now timestamp).
Proof.
  unfold relative_text. destruct (now - timestamp <? 0).
  - apply not_in_app; [apply no_nul_check; reflexivity | apply magnitude_no_nul].
  - apply not_in_app; [apply magnitude_no_nul | apply no_nul_check; reflexivity].
Qed.

Lemma fmt_int_two_digits (z : Z) :
  0 <= z < 100 -> (List.length (fmt_int false 0 z) <= 2)%nat.
Proof.
  intros Hz. rewrite fmt_int_plain.
  destruct (Z.ltb_spec z 0); [lia |].
  rewrite Z.abs_eq by lia. cbn [app].
  apply (udec_length z 1). simpl. lia.
Qed.

Lemma magnitude_length (d : Z) :
  0 <= d -> long_range d -> (List.length (magnitude d) <= 24)%nat.
Proof.
  intros Hd Hr. unfold magnitude.
  assert (H60 : forall x, 0 <= x mod 60 < 100)
    by (intros x; pose proof (Z.mod_pos_bound x 60); lia).
  assert (Hnum : forall x, 0 <= x -> x <= d ->
                           (List.length (fmt_int false 0 x) <= 20)%nat).
  { intros x H0 Hx. apply (fmt_int_length false 0 x).
    unfold long_range in *. lia. }
  destruct (Z.ltb_spec d 60).
  - rewrite length_app. pose proof (fmt_int_two_digits d ltac:(lia)).
    change (List.length (cs "s")) with 1%nat. lia.
  - destruct (Z.ltb_spec d 3600).
    + assert (Hq : 0 <= d / 60 < 100)
        by (split; [apply Z.div_pos; lia | apply Z.div_lt_upper_bound; lia]).
      pose proof (fmt_int_two_digits (d / 60) Hq).
      pose proof (fmt_int_two_digits (d mod 60) (H60 d)).
      destruct (0 <? d mod 60); rewrite ?length_app;
        change (List.length (cs "m")) with 1%nat;
        change (List.length (cs "s")) with 1%nat;
        cbn [List.length]; lia.
    + destruct (Z.ltb_spec d 86400).
      * assert (Hq : 0 <= d / 3600 < 100)
          by (split; [apply Z.div_pos; lia | apply Z.div_lt_upper_bound; lia]).
        assert (Hm : 0 <= d mod 3600 / 60 < 100).
        { pose proof (Z.mod_pos_bound d 3600 ltac:(lia)).
          split; [apply Z.div_pos; lia | apply Z.div_lt_upper_bound; lia]. }
        pose proof (fmt_int_two_digits _ Hq).
        pose proof (fmt_int_two_digits _ Hm).
        destruct (0 <? d mod 3600 / 60); rewrite ?length_app;
          change (List.length (cs "h")) with 1%nat;
          change (List.length (cs "m")) with 1%nat;
          cbn [List.length]; lia.
      * assert (Hq : 0 <= d / 86400 <= d).
        { split; [apply Z.div_pos; lia |].
          apply Z.div_le_upper_bound; nia. }
        assert (Hh : 0 <= d mod 86400 / 3600 < 100).
        { pose proof (Z.mod_pos_bound d 86400 ltac:(lia)).
          split; [apply Z.div_pos; lia | apply Z.div_lt_upper_bound; lia]. }
        pose proof (Hnum _ (proj1 Hq) (proj2 Hq)).
        pose proof (fmt_int_two_digits _ Hh).
        destruct (0 <? d mod 86400 / 3600); rewrite ?length_app;
          change (List.length (cs "d")) with 1%nat;
          change (List.length (cs "h")) with 1%nat;
          cbn [List.length]; lia.
Qed.

Lemma relative_text_length (now timestamp : Z) :
  long_range (now - timestamp) -> long_range (timestamp - now) ->
  (List.length (relative_text now timestamp) <= 28)%nat.
Proof.
  intros H1 H2. unfold relative_text.
  destruct (Z.ltb_spec (now - timestamp) 0); rewrite length_app.
  - pose proof (magnitude_length (timestamp - now) ltac:(lia) H2).
    change (List.length (cs "in ")) with 3%nat. lia.
  - pose proof (magnitude_length (now - timestamp) ltac:(lia) H1).
    change (List.length (cs " ago")) with 4%nat. lia.
Qed.

(** The call [format_relative_time] makes once the clock is read: one
    [safe_snprintf] whose expansion is [relative_text]. *)
Lemma format_relative_time_call (libc : Libc) (b : buffer) (buffer_size : nat)
      (timestamp : Z) (n : nat) :
  time_at n <> -1 ->
  exists f args,
    format_relative_time (Some b) buffer_size timestamp n
    = (safe_snprintf (Some b) buffer_size (Some f) args, S n)
    /\ sprintf f args = Some (relative_text (time_at n) timestamp).
Proof.
  intros Hclock.
  unfold format_relative_time, bind, time, ret.
  assert (Hne : (time_at n =? -1) = false) by (apply Z.eqb_neq; exact Hclock).
  rewrite Hne. unfold relative_text.
  destruct (Z.ltb_spec (time_at n - timestamp) 0) as [Hneg | Hpos].
  - replace (timestamp - time_at n) with (- (time_at n - timestamp)) by lia.
    set (d := - (time_at n - timestamp)).
    assert (Hd : 0 <= d) by (unfold d; lia).
    rewrite (magnitude_quot d Hd). cbv zeta.
    destruct (d <? SECONDS_PER_MINUTE);
      [| destruct (d <? SECONDS_PER_HOUR);
         [destruct (0 <? Z.rem d SECONDS_PER_MINUTE)
         | destruct (d <? SECONDS_PER_DAY);
           [destruct (0 <? Z.quot (Z.rem d SECONDS_PER_HOUR) SECONDS_PER_MINUTE)
           | destruct (0 <? Z.quot (Z.rem d SECONDS_PER_DAY) SECONDS_PER_HOUR)]]];
      do 2 eexists; (split; [reflexivity | reflexivity]).
  - set (d := time_at n - timestamp) in *.
    rewrite (magnitude_quot d Hpos). cbv zeta.
    destruct (d <? SECONDS_PER_MINUTE);
      [| destruct (d <? SECONDS_PER_HOUR);
         [destruct (0 <? Z.rem d SECONDS_PER_MINUTE)
         | destruct (d <? SECONDS_PER_DAY);
           [destruct (0 <? Z.quot (Z.rem d SECONDS_PER_HOUR) SECONDS_PER_MINUTE)
           | destruct (0 <? Z.quot (Z.rem d SECONDS_PER_DAY) SECONDS_PER_HOUR)]]];
      do 2 eexists; (split; [reflexivity |]);
      rewrite <- ?app_assoc; reflexivity.
Qed.

(** X6: when the clock works and the difference of the two times and its
    negation fit a [long], [format_relative_time] on a buffer of 29 bytes
    or more succeeds after one reading of the clock, and the buffer then
    holds [relative_text]: the duration in its largest unit among days,
    hours, minutes and seconds, followed by the next smaller unit when that
    part is not zero, between ["in "] and nothing for a time in the future,
    between nothing and [" ago"] otherwise. *)
Theorem format_relative_time_text (libc : Libc) (b : buffer)
        (buffer_size : nat) (timestamp : Z) (n : nat) :
  time_at n <> -1 ->
  long_range (time_at n - timestamp) ->
  long_range (timestamp - time_at n) ->
  (29 <= buffer_size)%nat ->
  exists b',
    format_relative_time (Some b) buffer_size timestamp n
    = ((TS_SUCCESS, Some b'), S n)
    /\ cstr b' = relative_text (time_at n) timestamp.
Proof.
  intros Hclock H1 H2 Hsize.
  destruct (format_relative_time_call libc b buffer_size timestamp n Hclock)
    as (f & args & -> & Hs).
  pose proof (relative_text_length (time_at n) timestamp H1 H2) as Hlen.
  destruct (safe_snprintf_text b buffer_size f args _ Hs
                               (relative_text_no_nul _ _) ltac:(lia))
    as (b' & -> & Hb).
  exists b'. split; [reflexivity | exact Hb].
Qed.

Lemma format_relative_time_text_witness :
  let libc := UTC.platform (fun _ => 1767998400) in
  exists b',
    format_relative_time (Some (repeat "x"%char 32)) 32 1755921813 O
    = ((TS_SUCCESS, Some b'), 1%nat)
    /\ cstr b' = cs "139d18h ago".
Proof.
  cbv zeta.
  destruct (format_relative_time_text (UTC.platform (fun _ => 1767998400))
                                      (repeat "x"%char 32) 32 1755921813 O)
    as (b' & E & Hb).
  - cbn. discriminate.
  - unfold long_range. cbn. lia.
  - unfold long_range. cbn. lia.
  - lia.
  - exists b'. split; [exact E |]. rewrite Hb. vm_compute. reflexivity.
Defined.

(** X7: the failures of [format_relative_time].  Without a buffer it
    reports an invalid argument and does not read the clock; when the clock
    fails it reports a system error and leaves the buffer as it was; when
    the clock works and the difference of the two times and its negation
    fit a [long], it reports a buffer overflow exactly when [relative_text]
    does not fit the buffer with its NUL. *)
Theorem format_relative_time_failures (libc : Libc) (b : buffer)
        (buffer_size : nat) (timestamp : Z) (n : nat) :
  format_relative_time None buffer_size timestamp n
  = ((TS_ERROR_INVALID_ARGUMENT, None), n)
  /\ (time_at n = -1 ->
      format_relative_time (Some b) buffer_size timestamp n
      = ((TS_ERROR_SYSTEM, Some b), S n))
  /\ (time_at n <> -1 ->
      long_range (time_at n - timestamp) ->
      long_range (timestamp - time_at n) ->
      fst (fst (format_relative_time (Some b) buffer_size timestamp n))
      = (if (List.length (relative_text (time_at n) timestamp) <? buffer_size)%nat
         then TS_SUCCESS else TS_ERROR_BUFFER_OVERFLOW)).
Proof.
  split; [reflexivity |]. split.
  - intros Hclock. unfold format_relative_time, bind, time, ret.
    rewrite Hclock. reflexivity.
  - intros Hclock _ _.
    destruct (format_relative_time_call libc b buffer_size timestamp n Hclock)
      as (f & args & -> & Hs).
    cbn [fst]. rewrite safe_snprintf_eq, Hs. reflexivity.
Qed.

Lemma format_relative_time_failures_witness :
  let libc := UTC.platform (fun n => if Nat.eqb n 0 then -1 else 1767998400) in
  format_relative_time (Some (cs "abc")) 3 1755921813 O
  = ((TS_ERROR_SYSTEM, Some (cs "abc")), 1%nat)
  /\ fst (fst (format_relative_time (Some (repeat "x"%char 8)) 8 1755921813 1%nat))
     = TS_ERROR_BUFFER_OVERFLOW.
Proof.
  cbv zeta. split.
  - apply (proj1 (proj2 (format_relative_time_failures
                           (UTC.platform
                              (fun n => if Nat.eqb n 0 then -1 else 1767998400))
                           (cs "abc") 3 1755921813 O))).
    reflexivity.
  - refine (eq_trans
              (proj2 (proj2 (format_relative_time_failures
                               (UTC.platform
                                  (fun n => if Nat.eqb n 0 then -1 else 1767998400))
                               (repeat "x"%char 8) 8 1755921813 1%nat))
                     _ _ _) _).
    + cbn. discriminate.
    + unfold long_range. cbn. lia.
    + unfold long_range. cbn. lia.
    + vm_compute. reflexivity.
Defined.

(** ** Appending text *)

Lemma strnlen_min (n : nat) :
  forall d : buffer,
    (n <= List.length d)%nat -> strnlen d n = Nat.min (strlen d) n.
Proof.
  induction n as [|n IH]; intros d Hn.
  - now rewrite Nat.min_0_r.
  - destruct d as [|c d]; [simpl in Hn; lia |].
    cbn [strnlen strlen]. destruct (ascii_eqb c NUL); [reflexivity |].
    rewrite IH by (simpl in Hn; lia). reflexivity.
Qed.

Lemma cstr_no_nul (d : buffer) : ~ In NUL (cstr d).
Proof.
  unfold cstr. induction d as [|c d IH]; [intros [] |].
  cbn [strlen]. destruct (ascii_eqb c NUL) eqn:Hc; [intros [] |].
  cbn [firstn]. intros [E | H]; [| now apply IH].
  subst c. discriminate.
Qed.

Lemma safe_strcat_string (d : buffer) (dest_size : nat) (s : list ascii) :
  (dest_size <= List.length d)%nat ->
  safe_strcat (Some d) dest_size (Some s)
  = if (strlen d + List.length s <? dest_size)%nat
    then (TS_SUCCESS,
          Some ((cstr d ++ s) ++ NUL
                :: skipn (strlen d + List.length s + 1) d))
    else (TS_ERROR_BUFFER_OVERFLOW, Some d).
Proof.
  intros Hsize.
  pose proof (safe_strcat_fits d dest_size s Hsize) as E. cbv zeta in E.
  rewrite E, (strnlen_min dest_size d Hsize).
  destruct (Nat.ltb_spec (strlen d + List.length s) dest_size) as [Hfit | Hno].
  - rewrite Nat.min_l by lia.
    assert (Hlt : (strlen d + List.length s < dest_size)%nat) by exact Hfit.
    apply Nat.ltb_lt in Hlt. rewrite Hlt.
    unfold cstr. rewrite length_app. cbn [List.length].
    rewrite <- !app_assoc. cbn [app].
    replace (strlen d + (List.length s + 1))%nat
      with (strlen d + List.length s + 1)%nat by lia.
    reflexivity.
  - assert (Hge : (Nat.min (strlen d) dest_size + List.length s <? dest_size)%nat
                  = false) by (apply Nat.ltb_ge; lia).
    now rewrite Hge.
Qed.

(** X8: [safe_strcat] on the strings the arrays hold.  On a destination
    of at least [dest_size] bytes and a source without NUL, the append
    succeeds exactly when the destination's string and the source fit
    below [dest_size]; the destination then holds the concatenation of the
    two strings and keeps its size.  Otherwise the destination is left as
    it was, so a destination without a NUL among its first [dest_size]
    bytes is never written to.  Two appends that fit store the same bytes
    as one append of the two sources joined. *)
Theorem safe_strcat_text (d : buffer) (dest_size : nat) (s : list ascii) :
  (dest_size <= List.length d)%nat ->
  ~ In NUL s ->
  ((strlen d + List.length s < dest_size)%nat ->
   exists d',
     safe_strcat (Some d) dest_size (Some s) = (TS_SUCCESS, Some d')
     /\ cstr d' = cstr d ++ s
     /\ List.length d' = List.length d)
  /\ ((dest_size <= strlen d + List.length s)%nat ->
      safe_strcat (Some d) dest_size (Some s)
      = (TS_ERROR_BUFFER_OVERFLOW, Some d))
  /\ (forall s2,
         ~ In NUL s2 ->
         (strlen d + List.length s + List.length s2 < dest_size)%nat ->
         exists d1,
           safe_strcat (Some d) dest_size (Some s) = (TS_SUCCESS, Some d1)
           /\ safe_strcat (Some d1) dest_size (Some s2)
              = safe_strcat (Some d) dest_size (Some (s ++ s2))).
Proof.
  intros Hsize Hs.
  pose proof (strlen_le d) as Hle.
  assert (Hcl : List.length (cstr d) = strlen d)
    by (unfold cstr; rewrite length_firstn; lia).
  assert (Hstep : forall t : list ascii,
             ~ In NUL t ->
             (strlen d + List.length t < dest_size)%nat ->
             let d' := (cstr d ++ t) ++ NUL
                       :: skipn (strlen d + List.length t + 1) d in
             safe_strcat (Some d) dest_size (Some t) = (TS_SUCCESS, Some d')
             /\ cstr d' = cstr d ++ t
             /\ strlen d' = (strlen d + List.length t)%nat
             /\ List.length d' = List.length d).
  { intros t Ht Hfit d'.
    assert (Hn : ~ In NUL (cstr d ++ t))
      by (apply not_in_app; [apply cstr_no_nul | exact Ht]).
    split; [| split; [| split]].
    - rewrite (safe_strcat_string d dest_size t Hsize).
      apply Nat.ltb_lt in Hfit. now rewrite Hfit.
    - apply cstr_text. exact Hn.
    - unfold d'. rewrite (strlen_text _ _ Hn), length_app. lia.
    - unfold d'. rewrite length_app. cbn [List.length].
      rewrite length_app, length_skipn, Hcl. lia. }
  split; [| split].
  - intros Hfit. destruct (Hstep s Hs Hfit) as (E & Hc & _ & Hl).
    eexists. split; [exact E |]. split; [exact Hc | exact Hl].
  - intros Hno. rewrite (safe_strcat_string d dest_size s Hsize).
    assert (Hge : (strlen d + List.length s <? dest_size)%nat = false)
      by (apply Nat.ltb_ge; lia).
    now rewrite Hge.
  - intros s2 Hs2 Hfit.
    destruct (Hstep s Hs ltac:(lia)) as (E & Hc & Hsl & Hl).
    eexists. split; [exact E |].
    set (d1 := (cstr d ++ s) ++ NUL :: skipn (strlen d + List.length s + 1) d) in *.
    rewrite (safe_strcat_string d1 dest_size s2) by lia.
    rewrite (safe_strcat_string d dest_size (s ++ s2) Hsize).
    rewrite Hsl, Hc, !length_app.
    replace (strlen d + (List.length s + List.length s2))%nat
      with (strlen d + List.length s + List.length s2)%nat by lia.
    assert (Hlt : (strlen d + List.length s + List.length s2 <? dest_size)%nat
                  = true) by (apply Nat.ltb_lt; exact Hfit).
    rewrite Hlt.
    do 2 f_equal. rewrite <- !app_assoc. do 3 f_equal.
    unfold d1.
    replace ((cstr d ++ s) ++ NUL :: skipn (strlen d + List.length s + 1) d)
      with (((cstr d ++ s) ++ [NUL]) ++ skipn (strlen d + List.length s + 1) d)
      by (now rewrite <- (app_assoc (cstr d ++ s))).
    assert (Hal : List.length ((cstr d ++ s) ++ [NUL])
                  = (strlen d + List.length s + 1)%nat)
      by (rewrite !length_app, Hcl; reflexivity).
    rewrite skipn_app, Hal.
    rewrite skipn_all2 by lia.
    rewrite skipn_skipn. cbn [app].
    replace (strlen d + List.length s + List.length s2 + 1
             - (strlen d + List.length s + 1)
             + (strlen d + List.length s + 1))%nat
      with (strlen d + List.length s + List.length s2 + 1)%nat by lia.
    reflexivity.
Qed.

Lemma safe_strcat_text_witness :
  exists d',
    safe_strcat (Some (cs "ab" ++ [NUL] ++ cs "xxxxx")) 8 (Some (cs "cde"))
    = (TS_SUCCESS, Some d')
    /\ cstr d' = cs "abcde" /\ List.length d' = 8%nat.
Proof.
  refine (proj1 (safe_strcat_text (cs "ab" ++ [NUL] ++ cs "xxxxx") 8
                                  (cs "cde") _ _) _).
  - simpl. lia.
  - apply no_nul_check. reflexivity.
  - simpl. lia.
Defined.

(** ** Formats without a custom token *)

Lemma strstr_cons_false (c : ascii) (rest tok : list ascii) :
  strstr (c :: rest) tok = false ->
  has_prefix tok (c :: rest) = false /\ strstr rest tok = false.
Proof.
  cbn [strstr]. intros H. apply orb_false_iff in H. exact H.
Qed.

Lemma no_custom_token_cons (c : ascii) (rest : list ascii) :
  no_custom_token (c :: rest) = true ->
  (has_prefix (cs "%.S") (c :: rest) = false
   /\ has_prefix (cs "%.s") (c :: rest) = false
   /\ has_prefix (cs "%.T") (c :: rest) = false
   /\ has_prefix (cs "%N") (c :: rest) = false
   /\ has_prefix (cs "%s") (c :: rest) = false)
  /\ no_custom_token rest = true.
Proof.
  unfold no_custom_token. intros H.
  repeat (apply andb_true_iff in H; destruct H as [H ?]).
  repeat match goal with
         | G : negb _ = true |- _ =>
           apply negb_true_iff, strstr_cons_false in G; destruct G
         end.
  repeat split; try assumption.
  repeat (apply andb_true_iff; split); apply negb_true_iff; assumption.
Qed.

Lemma first_pass_plain (libc : Libc) (tm_info : tm) (ts : high_res_time_t) :
  forall current,
    ~ In NUL current ->
    no_custom_token current = true ->
    extends_by (first_pass current 0 tm_info ts) current.
Proof.
  induction current as [|c rest IH]; intros Hn Hplain.
  - apply extends_by_done.
  - assert (Hrest : ~ In NUL rest) by (intros H; apply Hn; now right).
    assert (Hc : c <> NUL) by (intros ->; apply Hn; now left).
    destruct (no_custom_token_cons c rest Hplain)
      as ((H1 & H2 & H3 & H4 & H5) & Hplain').
    intros result text H. cbn [first_pass].
    rewrite H1, H2, H3, H4, H5.
    exact (extends_by_char _ _ c Hc (IH Hrest Hplain') result text H).
Qed.

(** X9: a format without NUL in which none of [%.S], [%.s], [%.T], [%N]
    and [%s] occurs goes through the first pass of
    [format_timestamp_with_subsecond] unchanged: a format of
    [MAX_FORMAT_LENGTH] bytes or more is refused, a format with a [%] is
    handed to the standard formatter as it is, and a format without [%] is
    stored as it is when it fits the buffer.  The nanoseconds of the
    timestamp have no part in the result. *)
Theorem format_without_custom_token (libc : Libc) (b : buffer)
        (buffer_size : nat) (fmt : list ascii) (ts : high_res_time_t)
        (tm_info : tm) :
  localtime (seconds ts) = Some tm_info ->
  ~ In NUL fmt ->
  no_custom_token fmt = true ->
  format_timestamp_with_subsecond (Some b) buffer_size (Some fmt) (Some ts)
  = (if (MAX_FORMAT_LENGTH <=? List.length fmt)%nat
     then (TS_ERROR_BUFFER_OVERFLOW, Some b)
     else if strstr fmt (cs "%") then
       match strftime MAX_FORMAT_LENGTH fmt tm_info with
       | None => (TS_ERROR_BUFFER_OVERFLOW, Some b)
       | Some text =>
         if (buffer_size <=? List.length text)%nat
         then (TS_ERROR_BUFFER_OVERFLOW, Some b)
         else (TS_SUCCESS, Some (memcpy b O (text ++ [NUL])))
       end
     else
       if (buffer_size <=? List.length fmt)%nat
       then (TS_ERROR_BUFFER_OVERFLOW, Some b)
       else (TS_SUCCESS, Some (memcpy b O (fmt ++ [NUL]))))
  /\ (forall nsec,
         format_timestamp_with_subsecond
           (Some b) buffer_size (Some fmt)
           (Some {| seconds := seconds ts; nanoseconds := nsec |})
         = format_timestamp_with_subsecond (Some b) buffer_size (Some fmt)
                                           (Some ts)).
Proof.
  intros Hlocal Hfmt Hplain.
  assert (E : forall t,
             seconds t = seconds ts ->
             format_timestamp_with_subsecond (Some b) buffer_size (Some fmt)
                                             (Some t)
             = (if (MAX_FORMAT_LENGTH <=? List.length fmt)%nat
                then (TS_ERROR_BUFFER_OVERFLOW, Some b)
                else if strstr fmt (cs "%") then
                  match strftime MAX_FORMAT_LENGTH fmt tm_info with
                  | None => (TS_ERROR_BUFFER_OVERFLOW, Some b)
                  | Some text =>
                    if (buffer_size <=? List.length text)%nat
                    then (TS_ERROR_BUFFER_OVERFLOW, Some b)
                    else (TS_SUCCESS, Some (memcpy b O (text ++ [NUL])))
                  end
                else
                  if (buffer_size <=? List.length fmt)%nat
                  then (TS_ERROR_BUFFER_OVERFLOW, Some b)
                  else (TS_SUCCESS, Some (memcpy b O (fmt ++ [NUL]))))).
  { intros t Ht. unfold format_timestamp_with_subsecond. rewrite Ht, Hlocal.
    destruct (first_pass_plain libc tm_info t fmt Hfmt Hplain
                               (repeat NUL MAX_FORMAT_LENGTH) [] holds_text_init)
      as [Hok Hov].
    cbn [List.length app Nat.add] in Hok, Hov.
    destruct (Nat.leb_spec MAX_FORMAT_LENGTH (List.length fmt)) as [Hbig | Hfit].
    - specialize (Hov Hbig).
      destruct (first_pass fmt 0 tm_info t (repeat NUL MAX_FORMAT_LENGTH))
        as [code result].
      cbn [fst] in Hov. subst code. reflexivity.
    - destruct (Hok Hfit) as (result & -> & Hres).
      apply holds_text_cstr in Hres. destruct Hres as (Hcstr & Hlen & _).
      cbn [is_success negb]. rewrite Hcstr, Hlen. reflexivity. }
  split; [apply E; reflexivity |].
  intros nsec. rewrite (E ts eq_refl). apply E. reflexivity.
Qed.

Lemma format_without_custom_token_witness :
  let libc := UTC.platform (fun _ => 1767998400) in
  format_timestamp_with_subsecond
    (Some (repeat "x"%char 8)) 8 (Some (cs "%H:%M"))
    (Some {| seconds := 1755921813; nanoseconds := 123456789 |})
  = (TS_SUCCESS, Some (cs "04:03" ++ [NUL] ++ cs "xx")).
Proof.
  cbv zeta.
  refine (eq_trans
            (proj1 (format_without_custom_token
                      (UTC.platform (fun _ => 1767998400))
                      (repeat "x"%char 8) 8 (cs "%H:%M")
                      {| seconds := 1755921813; nanoseconds := 123456789 |}
                      {| tm_sec := 33; tm_min := 3; tm_hour := 4; tm_mday := 23;
                         tm_mon := 7; tm_year := 125; tm_wday := 6; tm_yday := 234;
                         tm_isdst := 0 |} _ _ _)) _).
  - vm_compute. reflexivity.
  - apply no_nul_check. vm_compute. reflexivity.
  - vm_compute. reflexivity.
  - vm_compute. reflexivity.
Defined.

(** ** Options *)

Lemma flag_option_cases (c : ascii) :
  has_option c (cs "rismu") = true ->
  c = "r"%char \/ c = "i"%char \/ c = "s"%char \/ c = "m"%char \/ c = "u"%char.
Proof.
  unfold has_option. cbn [cs list_ascii_of_string existsb]. intros H.
  repeat (apply orb_true_iff in H; destruct H as [H | H]);
    try discriminate; unfold ascii_eqb in H;
    apply Ascii.eqb_eq in H; subst c; tauto.
Qed.

Lemma getopt_loop_flags (opts : list ascii) :
  forall o,
    flag_options opts = true ->
    getopt_loop opts o
    = inl {| relative_mode := relative_mode o || has_option "r" opts;
             incremental_mode := incremental_mode o || has_option "i" opts;
             since_start_mode := since_start_mode o || has_option "s" opts;
             monotonic_mode := monotonic_mode o || has_option "m" opts;
             unique_mode := unique_mode o || has_option "u" opts;
             format_buffer := if has_option "i" opts || has_option "s" opts
                              then cs "%H:%M:%S" else format_buffer o |}.
Proof.
  induction opts as [|c rest IH]; intros o Hall.
  - cbn. rewrite !orb_false_r. now destruct o.
  - unfold flag_options in Hall. cbn [forallb] in Hall.
    apply andb_true_iff in Hall. destruct Hall as [Hc Hrest].
    destruct (flag_option_cases c Hc) as [-> | [-> | [-> | [-> | ->]]]];
      cbn [getopt_loop]; unfold ascii_eqb; cbn [Ascii.eqb Bool.eqb];
      rewrite (IH _ Hrest); unfold has_option; cbn [existsb];
      unfold ascii_eqb; cbn [Ascii.eqb Bool.eqb];
      cbn [relative_mode incremental_mode since_start_mode monotonic_mode
           unique_mode format_buffer andb orb];
      rewrite ?orb_true_r, ?orb_false_r;
      try reflexivity.
    + destruct (existsb _ rest || existsb _ rest); reflexivity.
    + destruct (existsb _ rest || existsb _ rest); reflexivity.
Qed.

(** X10: what the options come to.  When every option character is one of
    [r], [i], [s], [m] and [u], each flag is set exactly when its
    character occurs, whatever the order and the number of occurrences; the
    format is the format argument cut to [MAX_FORMAT_LENGTH - 1] bytes when
    there is one, otherwise ["%H:%M:%S"] when [i] or [s] occurs, otherwise
    ["%b %d %H:%M:%S"].  The first other character ends the program, with
    status 0 when it is [h] and 1 when it is not, whatever follows it. *)
Theorem read_arguments_flags (opts : list ascii)
        (format_arg : option (list ascii)) :
  (flag_options opts = true ->
   read_arguments opts format_arg
   = inl ({| relative_mode := has_option "r" opts;
             incremental_mode := has_option "i" opts;
             since_start_mode := has_option "s" opts;
             monotonic_mode := has_option "m" opts;
             unique_mode := has_option "u" opts;
             format_buffer :=
               match format_arg with
               | Some arg => firstn (MAX_FORMAT_LENGTH - 1) arg
               | None => if has_option "i" opts || has_option "s" opts
                         then cs "%H:%M:%S" else cs "%b %d %H:%M:%S"
               end |},
          match format_arg with Some _ => true | None => false end))
  /\ (forall c rest,
         flag_options opts = true ->
         has_option c (cs "rismu") = false ->
         read_arguments (opts ++ c :: rest) format_arg
         = inr (if ascii_eqb c "h" then 0 else 1)).
Proof.
  split.
  - intros Hall. unfold read_arguments.
    rewrite (getopt_loop_flags opts default_options Hall).
    cbn [relative_mode incremental_mode since_start_mode monotonic_mode
         unique_mode format_buffer default_options orb].
    destruct format_arg; reflexivity.
  - intros c rest Hall Hc. unfold read_arguments.
    assert (G : forall o, getopt_loop (opts ++ c :: rest) o
                          = inr (if ascii_eqb c "h" then 0 else 1)).
    { clear format_arg. induction opts as [|x opts IH]; intros o.
      - unfold has_option in Hc. cbn [cs list_ascii_of_string existsb] in Hc.
        repeat (apply orb_false_iff in Hc; destruct Hc as [? Hc]).
        cbn [app getopt_loop]. unfold ascii_eqb in *.
        repeat match goal with
               | H : Ascii.eqb _ c = false |- _ =>
                 rewrite Ascii.eqb_sym in H; rewrite H; clear H
               end.
        destruct (Ascii.eqb c "h"); reflexivity.
      - unfold flag_options in Hall. cbn [forallb] in Hall.
        apply andb_true_iff in Hall. destruct Hall as [Hx Hrest].
        destruct (flag_option_cases x Hx) as [-> | [-> | [-> | [-> | ->]]]];
          cbn [app getopt_loop]; unfold ascii_eqb; cbn [Ascii.eqb Bool.eqb];
          apply (IH Hrest). }
    now rewrite G.
Qed.

Lemma read_arguments_flags_witness :
  read_arguments (cs "uiu") None
  = inl ({| relative_mode := false; incremental_mode := true;
            since_start_mode := false; monotonic_mode := false;
            unique_mode := true; format_buffer := cs "%H:%M:%S" |}, false)
  /\ read_arguments (cs "rxh") (Some (cs "%T")) = inr 1.
Proof.
  split.
  - apply (proj1 (read_arguments_flags (cs "uiu") None)). reflexivity.
  - apply (proj2 (read_arguments_flags (cs "r") (Some (cs "%T")))
                 "x"%char (cs "h")); reflexivity.
Defined.

(** ** The line loop *)

Section DriverFacts.

Context {libc : Libc}.

Variables clock_gettime clock_gettime' : bool -> nat -> option (Z * Z).
Variables have_clock_monotonic have_clock_monotonic' : bool.
Variables stack256 stack4096 : buffer.

Lemma loop_body_unique_off (o : options) (format_given : bool)
      (start_time : high_res_time_t) (line : list ascii) (st st' : loop_state) :
  relative_mode o = false ->
  unique_mode o && str_eqb line (last_line st) = false ->
  last_time st = last_time st' ->
  time_calls st = time_calls st' ->
  clock_calls st = clock_calls st' ->
  let r := loop_body clock_gettime have_clock_monotonic stack256 stack4096
                     o format_given start_time line st in
  let r' := loop_body clock_gettime have_clock_monotonic stack256 stack4096
                      (with_unique false o) format_given start_time line st' in
  fst r = fst r'
  /\ last_line (snd r) = remember_line o line st
  /\ last_time (snd r) = last_time (snd r')
  /\ time_calls (snd r) = time_calls (snd r')
  /\ clock_calls (snd r) = clock_calls (snd r').
Proof.
  intros Hrel Hkeep Hlt Htc Hcc. cbv zeta. unfold loop_body.
  rewrite Hkeep.
  cbn [with_unique unique_mode relative_mode incremental_mode since_start_mode
       monotonic_mode format_buffer andb].
  rewrite Hrel, <- Hcc, <- Hlt, <- Htc.
  destruct (get_high_res_time clock_gettime have_clock_monotonic
                              (monotonic_mode o) (clock_calls st))
    as [current_time clock'].
  destruct (incremental_mode o).
  - unfold incremental_mode_line. cbn. repeat split.
  - destruct (since_start_mode o).
    + cbn. repeat split.
    + destruct (process_line stack256 (Some line) (Some (format_buffer o))
                             (Some current_time)) as [result out].
      cbn. repeat split.
Qed.


Lemma line_loop_squeeze (o : options) (format_given : bool)
      (start_time : high_res_time_t) :
  unique_mode o = true ->
  relative_mode o = false ->
  forall lines st st',
    Forall fgets_line lines ->
    last_time st = last_time st' ->
    time_calls st = time_calls st' ->
    clock_calls st = clock_calls st' ->
    line_loop clock_gettime have_clock_monotonic stack256 stack4096
              o format_given start_time lines st
    = line_loop clock_gettime have_clock_monotonic stack256 stack4096
                (with_unique false o) format_given start_time
                (squeeze (last_line st) lines) st'.
Proof.
  intros Hu Hrel.
  induction lines as [|line rest IH]; intros st st' Hshort Hlt Htc Hcc;
    [reflexivity |].
  inversion Hshort as [|? ? [_ Hline] Hrest]; subst.
  cbn [line_loop squeeze].
  destruct (str_eqb line (last_line st)) eqn:Heq.
  - unfold loop_body at 1. rewrite Hu, Heq. cbn [andb app].
    now apply IH.
  - cbn [line_loop].
    assert (Hkeep : unique_mode o && str_eqb line (last_line st) = false)
      by (now rewrite Heq, andb_false_r).
    pose proof (loop_body_unique_off o format_given start_time line st st'
                                     Hrel Hkeep Hlt Htc Hcc) as B.
    cbv zeta in B.
    destruct (loop_body clock_gettime have_clock_monotonic stack256 stack4096
                        o format_given start_time line st) as [out st1].
    destruct (loop_body clock_gettime have_clock_monotonic stack256 stack4096
                        (with_unique false o) format_given start_time line st')
      as [out' st1'].
    cbn [fst snd] in B. destruct B as (-> & Hl & Hlt1 & Htc1 & Hcc1).
    f_equal.
    assert (Hlast : last_line st1 = line).
    { rewrite Hl. unfold remember_line. rewrite Hu.
      apply firstn_all2. unfold MAX_LINE_LENGTH in *. lia. }
    rewrite <- Hlast at 1. now apply IH.
Qed.


Lemma loop_body_relative (o o' : options) (format_given : bool)
      (start_time start_time' : high_res_time_t) (line : list ascii)
      (st st' : loop_state) :
  relative_mode o = true ->
  relative_mode o' = true ->
  (format_given = true -> format_buffer o = format_buffer o') ->
  line <> [] ->
  last_line st = [] ->
  last_line st' = [] ->
  time_calls st = time_calls st' ->
  let r := loop_body clock_gettime have_clock_monotonic stack256 stack4096
                     o format_given start_time line st in
  let r' := loop_body clock_gettime' have_clock_monotonic' stack256 stack4096
                      o' format_given start_time' line st' in
  fst r = fst r'
  /\ last_line (snd r) = []
  /\ last_line (snd r') = []
  /\ time_calls (snd r) = time_calls (snd r').
Proof.
  intros Hrel Hrel' Hfmt Hline Hl Hl' Htc. cbv zeta. unfold loop_body.
  rewrite Hl, Hl', Hrel, Hrel', <- Htc.
  assert (Hne : str_eqb line [] = false) by (destruct line; [congruence | reflexivity]).
  rewrite Hne, !andb_false_r.
  assert (Hsame : relative_mode_line stack256 stack4096 format_given
                                     (format_buffer o') line
                  = relative_mode_line stack256 stack4096 format_given
                                       (format_buffer o) line).
  { destruct format_given; [now rewrite (Hfmt eq_refl) | reflexivity]. }
  rewrite Hsame.
  destruct (get_high_res_time clock_gettime have_clock_monotonic
                              (monotonic_mode o) (clock_calls st)).
  destruct (get_high_res_time clock_gettime' have_clock_monotonic'
                              (monotonic_mode o') (clock_calls st')).
  destruct (relative_mode_line stack256 stack4096 format_given
                               (format_buffer o) line (time_calls st)).
  cbn. repeat split.
Qed.

Lemma line_loop_relative (o o' : options) (format_given : bool)
      (start_time start_time' : high_res_time_t) :
  relative_mode o = true ->
  relative_mode o' = true ->
  (format_given = true -> format_buffer o = format_buffer o') ->
  forall lines st st',
    Forall fgets_line lines ->
    last_line st = [] ->
    last_line st' = [] ->
    time_calls st = time_calls st' ->
    line_loop clock_gettime have_clock_monotonic stack256 stack4096
              o format_given start_time lines st
    = line_loop clock_gettime' have_clock_monotonic' stack256 stack4096
                o' format_given start_time' lines st'.
Proof.
  intros Hrel Hrel' Hfmt.
  induction lines as [|line rest IH]; intros st st' Hlines Hl Hl' Htc;
    [reflexivity |].
  inversion Hlines as [|? ? [Hline _] Hrest]; subst.
  cbn [line_loop].
  pose proof (loop_body_relative o o' format_given start_time start_time'
                                 line st st' Hrel Hrel' Hfmt Hline Hl Hl' Htc)
    as B.
  cbv zeta in B.
  destruct (loop_body clock_gettime have_clock_monotonic stack256 stack4096
                      o format_given start_time line st) as [out st1].
  destruct (loop_body clock_gettime' have_clock_monotonic' stack256 stack4096
                      o' format_given start_time' line st') as [out' st1'].
  cbn [fst snd] in B. destruct B as (-> & Hl1 & Hl1' & Htc1).
  f_equal. now apply IH.
Qed.

(** X11: with [-u] outside the relative mode, the program prints what it
    prints without [-u] on the input from which every line equal to the
    line kept before it is removed: a removed line is not printed, takes no
    reading of the clock and is not the reference of a later increment. *)
Theorem unique_mode_squeezes (o : options) (format_given : bool)
        (lines : list (list ascii)) :
  unique_mode o = true ->
  relative_mode o = false ->
  Forall fgets_line lines ->
  main_loop clock_gettime have_clock_monotonic stack256 stack4096
            o format_given lines
  = main_loop clock_gettime have_clock_monotonic stack256 stack4096
              (with_unique false o) format_given (squeeze [] lines).
Proof.
  intros Hu Hrel Hlines. unfold main_loop.
  cbn [with_unique monotonic_mode].
  destruct (get_high_res_time clock_gettime have_clock_monotonic
                              (monotonic_mode o) 0) as [start_time clock'].
  now apply (line_loop_squeeze o format_given start_time Hu Hrel lines).
Qed.


(** X13: in the relative mode the output depends on the options only
    through the format argument, when one is given, and on no reading of
    the high-resolution clock: [-i], [-s], [-m] and [-u] change nothing.
    Without a format argument the format is not used, so the format that
    [-i] and [-s] set makes no difference either; with [-r -u] a line equal
    to the one before it is still printed. *)
Theorem relative_mode_ignores_other_options (o o' : options)
        (format_given : bool) (lines : list (list ascii)) :
  relative_mode o = true ->
  relative_mode o' = true ->
  (format_given = true -> format_buffer o = format_buffer o') ->
  Forall fgets_line lines ->
  main_loop clock_gettime have_clock_monotonic stack256 stack4096
            o format_given lines
  = main_loop clock_gettime' have_clock_monotonic' stack256 stack4096
              o' format_given lines.
Proof.
  intros Hrel Hrel' Hfmt Hlines. unfold main_loop.
  destruct (get_high_res_time clock_gettime have_clock_monotonic
                              (monotonic_mode o) 0) as [start_time clock1].
  destruct (get_high_res_time clock_gettime' have_clock_monotonic'
                              (monotonic_mode o') 0) as [start_time' clock1'].
  now apply line_loop_relative.
Qed.

End DriverFacts.

Lemma unique_mode_squeezes_witness :
  let libc := UTC.platform (fun _ => 1767998400) in
  let clock := fun (_ : bool) (n : nat) => Some (1755921813 + Z.of_nat n, 0) in
  let o := {| relative_mode := false; incremental_mode := true;
              since_start_mode := false; monotonic_mode := false;
              unique_mode := true; format_buffer := cs "%H:%M:%S" |} in
  main_loop clock true (repeat "x"%char 256) (repeat "x"%char 4096) o false
            [cs "a"; cs "a"; cs "b"]
  = main_loop clock true (repeat "x"%char 256) (repeat "x"%char 4096)
              (with_unique false o) false [cs "a"; cs "b"].
Proof.
  cbv zeta.
  apply (@unique_mode_squeezes
           (UTC.platform (fun _ => 1767998400))
           (fun (_ : bool) (n : nat) => Some (1755921813 + Z.of_nat n, 0)) true
           (repeat "x"%char 256) (repeat "x"%char 4096) _ false
           [cs "a"; cs "a"; cs "b"]);
    [reflexivity | reflexivity |].
  repeat constructor; try discriminate; unfold MAX_LINE_LENGTH; simpl; lia.
Defined.


Lemma relative_mode_ignores_other_options_witness :
  let libc := UTC.platform (fun _ => 1767998400) in
  let o := {| relative_mode := true; incremental_mode := false;
              since_start_mode := false; monotonic_mode := false;
              unique_mode := true; format_buffer := cs "%b %d %H:%M:%S" |} in
  let o' := {| relative_mode := true; incremental_mode := true;
               since_start_mode := false; monotonic_mode := true;
               unique_mode := false; format_buffer := cs "%H:%M:%S" |} in
  read_arguments (cs "ru") None = inl (o, false)
  /\ read_arguments (cs "rim") None = inl (o', false)
  /\ main_loop (fun _ _ => None) false (repeat "x"%char 256)
               (repeat "x"%char 4096)
               o false [cs "at 1755921813"; cs "at 1755921813"]
     = main_loop (fun _ n => Some (Z.of_nat n, 0)) true
                 (repeat "x"%char 256) (repeat "x"%char 4096)
                 o' false [cs "at 1755921813"; cs "at 1755921813"].
Proof.
  cbv zeta. split; [reflexivity |]. split; [reflexivity |].
  apply (@relative_mode_ignores_other_options
           (UTC.platform (fun _ => 1767998400)));
    [reflexivity | reflexivity | discriminate |].
  repeat constructor; try discriminate; unfold MAX_LINE_LENGTH; simpl; lia.
Defined.

(** ** One line in the relative mode *)

Lemma cstr_app_nul (a rest : list ascii) : cstr (a ++ NUL :: rest) = cstr a.
Proof.
  unfold cstr. induction a as [|c a IH]; [reflexivity |].
  cbn [app strlen]. destruct (ascii_eqb c NUL); [reflexivity |].
  cbn [firstn]. now rewrite IH.
Qed.

Lemma cstr_id (a : list ascii) : ~ In NUL a -> cstr a = a.
Proof.
  intros Ha. unfold cstr.
  induction a as [|c a IH]; [reflexivity |]. cbn [strlen].
  destruct (ascii_eqb c NUL) eqn:Hc.
  - exfalso. apply Ha. left. unfold ascii_eqb in Hc.
    apply Ascii.eqb_eq in Hc. now subst.
  - cbn [firstn]. f_equal. apply IH. intros H. apply Ha. now right.
Qed.

Lemma in_firstn (c : ascii) (j : nat) (s : list ascii) :
  In c (firstn j s) -> In c s.
Proof.
  intros H. rewrite <- (firstn_skipn j s). apply in_or_app. now left.
Qed.

Lemma parse_success_span (libc : Libc) (line : list ascii) (r : Z) (n : nat) :
  fst (fst (parse_timestamp_in_line (Some line) (Some r) n)) = TS_SUCCESS ->
  exists s e,
    (s + 10 <= e <= List.length line)%nat
    /\ forall a b,
        find_timestamp_match (Some line) (Some a) (Some b)
        = (TS_SUCCESS, Some (Z.of_nat s), Some (Z.of_nat e)).
Proof.
  intros Hok. unfold parse_timestamp_in_line in Hok.
  pose proof (parse_timestamp_loop_spec line timestamp_formats (Some r) n) as P.
  destruct (parse_timestamp_loop timestamp_formats line (Some r) n)
    as [[code res] n'].
  cbn [fst] in Hok. subst code.
  destruct P as [(_ & pre & f & post & st & Hsplit & _ & (so & eo & Hm & _)) | (Hc & _)];
    [| discriminate].
  assert (Hin : In f timestamp_formats)
    by (rewrite Hsplit; apply in_or_app; right; now left).
  destruct (find_timestamp_match_outcome line 0 0)
    as [(g & s & e & Hg & Hgm & E) | (Hnone & _)];
    [| rewrite (Hnone f Hin) in Hm; discriminate].
  exists s, e. split.
  - destruct (entry_match_needs g line s e Hg Hgm) as (H1 & H2 & _). lia.
  - intros a b. unfold find_timestamp_match in E |- *.
    destruct (find_match_loop timestamp_formats line (-1) (-1)) as [bs be].
    destruct (negb (bs =? -1)); [exact E | discriminate].
Qed.

Lemma print_replaced_span (stack4096 : buffer) (line new_text : list ascii)
      (s e : nat) :
  find_timestamp_match (Some line) (Some 0) (Some 0)
  = (TS_SUCCESS, Some (Z.of_nat s), Some (Z.of_nat e)) ->
  print_replaced stack4096 line new_text
  = (let composed := firstn s line ++ new_text ++ skipn e line in
     if (List.length composed <? MAX_LINE_LENGTH)%nat
     then cstr composed else line).
Proof.
  intros E. unfold print_replaced.
  rewrite replace_timestamp_in_line_eq. cbv zeta. rewrite E, !Nat2Z.id.
  destruct (List.length (firstn s line ++ new_text ++ skipn e line)
            <? MAX_LINE_LENGTH)%nat; [| reflexivity].
  cbn [app]. apply cstr_app_nul.
Qed.

(** X14: one line of the relative mode without a format argument.  When
    the parser finds the time [t] in the line, the clock works and the
    difference fits a [long], the program prints the line with the located
    span replaced by [relative_text] of [t] seen at the reading of the
    clock taken after the parse, or the line itself when the result does
    not fit [MAX_LINE_LENGTH] bytes. *)
Theorem relative_mode_line_text (libc : Libc) (stack256 stack4096 : buffer)
        (fmt line : list ascii) (t : Z) (n n' : nat) :
  parse_timestamp_in_line (Some line) (Some 0) n = ((TS_SUCCESS, Some t), n') ->
  time_at n' <> -1 ->
  long_range (time_at n' - t) ->
  long_range (t - time_at n') ->
  ~ In NUL line ->
  exists s e,
    find_timestamp_match (Some line) (Some 0) (Some 0)
    = (TS_SUCCESS, Some (Z.of_nat s), Some (Z.of_nat e))
    /\ relative_mode_line stack256 stack4096 false fmt line n
       = (let composed :=
              firstn s line ++ relative_text (time_at n') t ++ skipn e line in
          if (List.length composed <? MAX_LINE_LENGTH)%nat
          then composed else line,
          S n').
Proof.
  intros Hparse Hclock H1 H2 Hline.
  destruct (parse_success_span libc line 0 n) as (s & e & _ & Hfind);
    [now rewrite Hparse |].
  exists s, e. split; [apply Hfind |].
  unfold relative_mode_line, bind. rewrite Hparse.
  destruct (format_relative_time_call libc stack256 MAX_FORMAT_LENGTH t n' Hclock)
    as (f & args & -> & Hs).
  pose proof (relative_text_length (time_at n') t H1 H2) as Hlen.
  destruct (safe_snprintf_text stack256 MAX_FORMAT_LENGTH f args _ Hs
                               (relative_text_no_nul _ _)
                               ltac:(unfold MAX_FORMAT_LENGTH; lia))
    as (b' & -> & Hb).
  unfold ret. rewrite Hb, (print_replaced_span stack4096 line _ s e (Hfind 0 0)).
  cbv zeta. f_equal.
  destruct (List.length (firstn s line ++ relative_text (time_at n') t
                                ++ skipn e line) <? MAX_LINE_LENGTH)%nat;
    [| reflexivity].
  apply cstr_id.
  apply not_in_app; [intros H; apply Hline; now apply in_firstn in H |].
  apply not_in_app; [apply relative_text_no_nul |].
  intros H; apply Hline; now apply in_skipn in H.
Qed.

Lemma relative_mode_line_text_witness :
  let libc := UTC.platform (fun _ => 1767998400) in
  exists s e,
    find_timestamp_match (Some (cs "up 1755921813.25 ok")) (Some 0) (Some 0)
    = (TS_SUCCESS, Some (Z.of_nat s), Some (Z.of_nat e))
    /\ relative_mode_line (repeat "x"%char 256) (repeat "x"%char 4096) false
                          (cs "%b %d %H:%M:%S") (cs "up 1755921813.25 ok") O
       = (let composed :=
              firstn s (cs "up 1755921813.25 ok")
              ++ relative_text 1767998400 1755921813
              ++ skipn e (cs "up 1755921813.25 ok") in
          if (List.length composed <? MAX_LINE_LENGTH)%nat
          then composed else cs "up 1755921813.25 ok",
          1%nat).
Proof.
  cbv zeta.
  apply (relative_mode_line_text (UTC.platform (fun _ => 1767998400))
                                 (repeat "x"%char 256) (repeat "x"%char 4096)
                                 (cs "%b %d %H:%M:%S") (cs "up 1755921813.25 ok")
                                 1755921813 O O).
  - vm_compute. reflexivity.
  - cbn. discriminate.
  - unfold long_range. cbn. lia.
  - unfold long_range. cbn. lia.
  - apply no_nul_check. vm_compute. reflexivity.
Defined.

(** X15: one line of the relative mode with a format argument.  A line in
    which the parser finds no time is printed as it is, with or without a
    format argument.  A line in which it finds the time [t] is dropped when
    [localtime] fails on [t] or [strftime] yields nothing for the format;
    otherwise the text of [strftime] replaces the located span, and the
    line itself is printed when the result does not fit [MAX_LINE_LENGTH]
    bytes. *)
Theorem relative_mode_line_reformat (libc : Libc) (stack256 stack4096 : buffer)
        (format_given : bool) (fmt line : list ascii) (n : nat) :
  (fst (fst (parse_timestamp_in_line (Some line) (Some 0) n)) <> TS_SUCCESS ->
   relative_mode_line stack256 stack4096 format_given fmt line n
   = (line, snd (parse_timestamp_in_line (Some line) (Some 0) n)))
  /\ (forall t n',
         parse_timestamp_in_line (Some line) (Some 0) n
         = ((TS_SUCCESS, Some t), n') ->
         exists s e,
           find_timestamp_match (Some line) (Some 0) (Some 0)
           = (TS_SUCCESS, Some (Z.of_nat s), Some (Z.of_nat e))
           /\ relative_mode_line stack256 stack4096 true fmt line n
              = (match localtime t with
                 | None => []
                 | Some tm_info =>
                   match strftime MAX_FORMAT_LENGTH fmt tm_info with
                   | None => []
                   | Some text =>
                     let composed := firstn s line ++ text ++ skipn e line in
                     if (List.length composed <? MAX_LINE_LENGTH)%nat
                     then cstr composed else line
                   end
                 end, n')).
Proof.
  split.
  - intros Hfail. unfold relative_mode_line, bind.
    destruct (parse_timestamp_in_line (Some line) (Some 0) n)
      as [[code res] n'].
    cbn [fst snd] in *. destruct code; try reflexivity. congruence.
  - intros t n' Hparse.
    destruct (parse_success_span libc line 0 n) as (s & e & _ & Hfind);
      [now rewrite Hparse |].
    exists s, e. split; [apply Hfind |].
    unfold relative_mode_line, bind. rewrite Hparse.
    destruct (localtime t) as [tm_info|]; [| reflexivity].
    destruct (strftime MAX_FORMAT_LENGTH fmt tm_info) as [text|];
      [| reflexivity].
    unfold ret.
    now rewrite (print_replaced_span stack4096 line text s e (Hfind 0 0)).
Qed.

Lemma relative_mode_line_reformat_witness :
  let libc := UTC.platform (fun _ => 1767998400) in
  relative_mode_line (repeat "x"%char 256) (repeat "x"%char 4096) true
                     (cs "%Y") (cs "0000000000 1755921813.5") O
  = (cs "0000000000 1755921813.5", O)
  /\ relative_mode_line (repeat "x"%char 256) (repeat "x"%char 4096) true
                        (cs "%Y") (cs "1234567890 then 1755921813.5") O
     = (cs "2009 then 1755921813.5", O).
Proof.
  cbv zeta. split.
  - refine (eq_trans
              (proj1 (relative_mode_line_reformat
                        (UTC.platform (fun _ => 1767998400))
                        (repeat "x"%char 256) (repeat "x"%char 4096) true
                        (cs "%Y") (cs "0000000000 1755921813.5") O) _) _).
    + vm_compute. discriminate.
    + vm_compute. reflexivity.
  - destruct (proj2 (relative_mode_line_reformat
                       (UTC.platform (fun _ => 1767998400))
                       (repeat "x"%char 256) (repeat "x"%char 4096) true
                       (cs "%Y") (cs "1234567890 then 1755921813.5") O)
                    1234567890 O) as (s & e & E & R).
    + vm_compute. reflexivity.
    + rewrite R.
      assert (Hs : s = 0%nat /\ e = 10%nat).
      { assert (E' : find_timestamp_match
                       (Some (cs "1234567890 then 1755921813.5"))
                       (Some 0) (Some 0)
                     = (TS_SUCCESS, Some 0, Some 10))
          by (vm_compute; reflexivity).
        rewrite E' in E. inversion E. lia. }
      destruct Hs as [-> ->]. vm_compute. reflexivity.
Defined.

(** ** The default mode *)

(** X16: [process_line] prints the stamp of
    [format_timestamp_with_subsecond], a space and the line when the
    formatter succeeds, and the stamp is then the string of [two_pass];
    when the formatter fails it prints nothing and returns the formatter's
    error.  Without a line, a format or a time it reports an invalid
    argument and prints nothing. *)
Theorem process_line_stamp (libc : Libc) (stack256 : buffer)
        (line fmt : list ascii) (ts : high_res_time_t) (tm_info : tm)
        (hms : list ascii) :
  localtime (seconds ts) = Some tm_info ->
  ~ In NUL fmt ->
  strftime MAX_TIME_STR_LENGTH (cs "%H:%M:%S") tm_info = Some hms ->
  ~ In NUL hms ->
  process_line stack256 (Some line) (Some fmt) (Some ts)
  = (let code := fst (format_timestamp_with_subsecond
                        (Some stack256) MAX_FORMAT_LENGTH (Some fmt) (Some ts)) in
     if is_success code
     then (TS_SUCCESS, cstr (two_pass fmt tm_info ts) ++ cs " " ++ line)
     else (code, []))
  /\ process_line stack256 None (Some fmt) (Some ts)
     = (TS_ERROR_INVALID_ARGUMENT, [])
  /\ process_line stack256 (Some line) None (Some ts)
     = (TS_ERROR_INVALID_ARGUMENT, [])
  /\ process_line stack256 (Some line) (Some fmt) None
     = (TS_ERROR_INVALID_ARGUMENT, []).
Proof.
  intros Hlocal Hfmt Hhms Hnn.
  split; [| repeat split].
  unfold process_line. cbv zeta.
  pose proof (format_timestamp_with_subsecond_eq
                libc stack256 MAX_FORMAT_LENGTH fmt ts tm_info hms
                Hlocal Hfmt Hhms Hnn) as E.
  cbv zeta in E. rewrite E. unfold two_pass.
  set (pass1 := expand_custom fmt 0 tm_info ts).
  assert (Hstored : forall text : list ascii,
             cstr (memcpy stack256 O (text ++ [NUL])) = cstr text).
  { intros text. cbn [memcpy]. rewrite overwrite_app, <- app_assoc.
    apply cstr_app_nul. }
  destruct (MAX_FORMAT_LENGTH <=? List.length pass1)%nat; [reflexivity |].
  destruct (strstr pass1 (cs "%")).
  - unfold strftime.
    destruct (is_nil (strftime_text pass1 tm_info)
              || (MAX_FORMAT_LENGTH <=? List.length (strftime_text pass1 tm_info))%nat);
      [reflexivity |].
    destruct (MAX_FORMAT_LENGTH <=? List.length (strftime_text pass1 tm_info))%nat;
      [reflexivity |].
    cbn [fst is_success]. now rewrite Hstored.
  - cbn [fst is_success]. now rewrite Hstored.
Qed.

Lemma process_line_stamp_witness :
  let libc := UTC.platform (fun _ => 1767998400) in
  process_line (repeat "x"%char 256) (Some (cs "hello")) (Some (cs "%H:%M:%.S"))
               (Some {| seconds := 1755921813; nanoseconds := 123456789 |})
  = (TS_SUCCESS, cs "04:03:33.123456 hello").
Proof.
  cbv zeta.
  refine (eq_trans
            (proj1 (process_line_stamp
                      (UTC.platform (fun _ => 1767998400))
                      (repeat "x"%char 256) (cs "hello") (cs "%H:%M:%.S")
                      {| seconds := 1755921813; nanoseconds := 123456789 |}
                      {| tm_sec := 33; tm_min := 3; tm_hour := 4; tm_mday := 23;
                         tm_mon := 7; tm_year := 125; tm_wday := 6; tm_yday := 234;
                         tm_isdst := 0 |}
                      (cs "04:03:33") _ _ _ _)) _).
  - vm_compute. reflexivity.
  - apply no_nul_check. vm_compute. reflexivity.
  - vm_compute. reflexivity.
  - apply no_nul_check. vm_compute. reflexivity.
  - vm_compute. reflexivity.
Defined.
